(** * graph_editor.py: scene graph, connection model and persistence codec

    A shallow embedding of the editor core of [src/graph_editor.py]
    (classes [GraphConnection], [AnchorHandle], [GraphBlock], [GraphCluster]
    and [GraphEditor]) and the properties of its specification.

    - Python objects are kept in typed stores and named by references, so
      that the aliasing of the source is the aliasing of the model: a
      cluster's [blocks] list and the editor's [blocks] dictionary name the
      same block objects, and a block deleted from the dictionary is still
      the object the list names.
    - Python dictionaries are insertion-ordered association lists.
    - Coordinates (Qt's [qreal], a double) are rationals, and the
      arithmetic on them is exact.  A number enters the model as the editor
      receives it: a float is the rational it denotes, an integer of a file
      is converted as PyQt converts it ([double_of_int], [qreal]).  Where
      the rounding of double arithmetic matters to a property, its
      statement says for which values the arithmetic is exact ([is_double],
      [offsets_exact], [on_grid]), and [Doubles] has the operations of
      [updateAnchors] in IEEE doubles.
    - The toolkit is present through what the editor reads from it or
      writes to it: positions, parents and rects of items, the selection
      handed to an action, the values returned by dialogs, the texts of the
      edit fields.  The scene's list of items, brushes, text items and the
      dock are not part of the model.  Of [scene.removeItem] and
      [scene.clear] the model has what the editor can observe afterwards:
      a block taken out of the scene loses its parent item
      ([scene_removeItem]), and the line of the pending connection is
      deleted with the scene ([scene_clear]), after which the calls that
      reach Qt through it raise [RuntimeError].
    - Exceptions are values: [openFile] returns the state it leaves together
      with the exception that ended it, if any.  An operation of the
      interactive state machine that raises returns the state it leaves. *)

From Stdlib Require Import QArith Qminmax ZArith String List Lia.
From stdpp Require Import base option list strings pretty.
From Stdlib Require Import Lqa Floats.

Local Open Scope Z_scope.

(** ** Qt value types: [QPointF], [QRectF], [QLineF] *)

Module Geometry.

Record QPointF := mkPoint { px : Q; py : Q }.
Record QRectF := mkRect { rx : Q; ry : Q; rw : Q; rh : Q }.
Record QLineF := mkLine { lx1 : Q; ly1 : Q; lx2 : Q; ly2 : Q }.

(** [QPointF()] and [QRectF()]. *)
Definition origin : QPointF := mkPoint 0 0.
Definition null_rect : QRectF := mkRect 0 0 0 0.

Definition padd (p q : QPointF) : QPointF :=
  mkPoint (px p + px q) (py p + py q).

(** Equality of points as numbers. *)
Definition pt_eq (p q : QPointF) : Prop := (px p == px q)%Q /\ (py p == py q)%Q.

Definition Qltb (a b : Q) : bool := negb (Qle_bool b a).

(** [QRectF.isNull]: width and height are both zero. *)
Definition isNull (r : QRectF) : bool :=
  Qeq_bool (rw r) 0 && Qeq_bool (rh r) 0.

(** [QRectF.adjust(dx1, dy1, dx2, dy2)]. *)
Definition adjust (dx1 dy1 dx2 dy2 : Q) (r : QRectF) : QRectF :=
  mkRect (rx r + dx1) (ry r + dy1) (rw r + dx2 - dx1) (rh r + dy2 - dy1).

Definition translated (p : QPointF) (r : QRectF) : QRectF :=
  mkRect (rx r + px p) (ry r + py p) (rw r) (rh r).

Definition center (r : QRectF) : QPointF :=
  mkPoint (rx r + rw r / 2) (ry r + rh r / 2).

(** Left and right edge (top and bottom edge) of a possibly
    non-normalised extent. *)
Definition lo (x w : Q) : Q := if Qltb w 0 then x + w else x.
Definition hi (x w : Q) : Q := if Qltb w 0 then x else x + w.

(** [QRectF.united]. *)
Definition united (r1 r2 : QRectF) : QRectF :=
  if isNull r1 then r2
  else if isNull r2 then r1
  else
    let l := Qmin (lo (rx r1) (rw r1)) (lo (rx r2) (rw r2)) in
    let r := Qmax (hi (rx r1) (rw r1)) (hi (rx r2) (rw r2)) in
    let t := Qmin (lo (ry r1) (rh r1)) (lo (ry r2) (rh r2)) in
    let b := Qmax (hi (ry r1) (rh r1)) (hi (ry r2) (rh r2)) in
    mkRect l t (r - l) (b - t).

(** [QRectF.contains(QPointF)]: false on an extent of zero length, edges
    included otherwise. *)
Definition contains (r : QRectF) (p : QPointF) : bool :=
  let l := lo (rx r) (rw r) in let rr := hi (rx r) (rw r) in
  let t := lo (ry r) (rh r) in let b := hi (ry r) (rh r) in
  negb (Qeq_bool l rr) && Qle_bool l (px p) && Qle_bool (px p) rr &&
  negb (Qeq_bool t b) && Qle_bool t (py p) && Qle_bool (py p) b.

End Geometry.
Export Geometry.

(** ** Python dictionaries with integer keys

    Insertion-ordered: assigning to a key that is present keeps its place,
    a new key goes last; [values()] and [items()] follow that order. *)

Module Dict.

Definition dict (V : Type) := list (Z * V).

Fixpoint get {V} (k : Z) (d : dict V) : option V :=
  match d with
  | [] => None
  | (k', v) :: d' => if decide (k = k') then Some v else get k d'
  end.

(** [k in d] *)
Definition mem {V} (k : Z) (d : dict V) : bool :=
  match get k d with Some _ => true | None => false end.

(** [d[k] = v] *)
Fixpoint set {V} (k : Z) (v : V) (d : dict V) : dict V :=
  match d with
  | [] => [(k, v)]
  | (k', v') :: d' =>
      if decide (k = k') then (k, v) :: d' else (k', v') :: set k v d'
  end.

(** [del d[k]] (only ever reached with [k in d]). *)
Fixpoint del {V} (k : Z) (d : dict V) : dict V :=
  match d with
  | [] => []
  | (k', v') :: d' =>
      if decide (k = k') then d' else (k', v') :: del k d'
  end.

Definition keys {V} (d : dict V) : list Z := map fst d.
Definition values {V} (d : dict V) : list V := map snd d.

End Dict.

Abbreviation dict := Dict.dict.

(** ** The objects *)

Abbreviation bref := nat.   (* reference to a [GraphBlock] object *)
Abbreviation cref := nat.   (* reference to a [GraphCluster] object *)
Abbreviation nref := nat.   (* reference to a [GraphConnection] object *)

(** The keys of [GraphBlock.anchors]. *)
Inductive Orientation := OTop | OBottom | OLeft | ORight.

#[global] Instance Orientation_eq_dec : EqDecision Orientation.
Proof. solve_decision. Defined.

Definition orientation_name (o : Orientation) : string :=
  match o with
  | OTop => "top" | OBottom => "bottom" | OLeft => "left" | ORight => "right"
  end.

Definition all_orientations : list Orientation := [OTop; OBottom; OLeft; ORight].

(** [AnchorHandle.HANDLE_SIZE] *)
Definition HANDLE_SIZE : Q := 8.

(** The positions, in block coordinates, of the four [AnchorHandle] items of
    a block (each is an ellipse item with local rect
    [(0, 0, HANDLE_SIZE, HANDLE_SIZE)] and the block as parent). *)
Record Anchors := mkAnchors {
  a_top : QPointF; a_bottom : QPointF; a_left : QPointF; a_right : QPointF }.

Definition anchor_pos (a : Anchors) (o : Orientation) : QPointF :=
  match o with
  | OTop => a_top a | OBottom => a_bottom a | OLeft => a_left a | ORight => a_right a
  end.

(** An anchor handle is named by its [parent_block] and [orientation]. *)
Abbreviation AnchorHandle := (bref * Orientation)%type.

Record GraphBlock := mkBlock {
  block_id : Z;
  b_title : string;
  b_content : string;
  b_color : string;
  b_pos : QPointF;            (* pos(): in parent coordinates *)
  b_rect : QRectF;            (* rect() *)
  b_locked : bool;
  b_parent : option cref;     (* parentItem() *)
  b_anchors : Anchors }.

Record GraphCluster := mkCluster {
  c_title : string;
  c_color : string;
  c_blocks : list bref;       (* self.blocks *)
  c_pos : QPointF;
  c_rect : QRectF;
  c_locked : bool }.

(** The [ClickableLine] of a connection: the line it shows, or [Deleted]
    once [scene.clear()] has deleted the item, after which every call that
    passes through the Python wrapper to Qt raises [RuntimeError]. *)
Inductive LineItem :=
  | Line (l : QLineF)
  | Deleted.

(** [start_anchor] is [None] only in the object [openFile] builds from an
    anchor name that is not a key of [anchors]; [create_line_item] raises on
    it before it is stored anywhere, so stored connections have one. *)
Record GraphConnection := mkConn {
  start_anchor : AnchorHandle;
  end_anchor : option AnchorHandle;
  line_item : option LineItem }.

(** The connection has a line item that the scene has deleted. *)
Definition line_deleted (c : GraphConnection) : bool :=
  match line_item c with
  | Some Deleted => true
  | _ => false
  end.

(** Items the scene can report as selected. *)
Inductive Item := IBlock (b : bref) | ICluster (c : cref).

Record GraphEditor := mkEditor {
  block_objs : list GraphBlock;          (* store of block objects *)
  cluster_objs : list GraphCluster;      (* store of cluster objects *)
  conn_objs : list GraphConnection;      (* store of connection objects *)
  block_id_counter : Z;
  cluster_id_counter : Z;
  blocks : dict bref;                    (* block_id -> GraphBlock *)
  clusters : dict cref;                  (* cluster_id -> GraphCluster *)
  connections : list nref;
  currentBlock : option bref;
  currentCluster : option cref;
  editLocked : bool;
  current_connection : option nref }.

(** [GraphEditor.__init__] *)
Definition init : GraphEditor :=
  mkEditor [] [] [] 1 1 [] [] [] None None false None.

(** *** Field updates *)

Definition set_b_pos (p : QPointF) (b : GraphBlock) : GraphBlock :=
  mkBlock (block_id b) (b_title b) (b_content b) (b_color b) p (b_rect b)
          (b_locked b) (b_parent b) (b_anchors b).
Definition set_b_parent (c : option cref) (b : GraphBlock) : GraphBlock :=
  mkBlock (block_id b) (b_title b) (b_content b) (b_color b) (b_pos b) (b_rect b)
          (b_locked b) c (b_anchors b).
Definition set_b_locked (l : bool) (b : GraphBlock) : GraphBlock :=
  mkBlock (block_id b) (b_title b) (b_content b) (b_color b) (b_pos b) (b_rect b)
          l (b_parent b) (b_anchors b).
Definition set_b_color (c : string) (b : GraphBlock) : GraphBlock :=
  mkBlock (block_id b) (b_title b) (b_content b) c (b_pos b) (b_rect b)
          (b_locked b) (b_parent b) (b_anchors b).
Definition set_b_title (t : string) (b : GraphBlock) : GraphBlock :=
  mkBlock (block_id b) t (b_content b) (b_color b) (b_pos b) (b_rect b)
          (b_locked b) (b_parent b) (b_anchors b).
Definition set_b_content (t : string) (b : GraphBlock) : GraphBlock :=
  mkBlock (block_id b) (b_title b) t (b_color b) (b_pos b) (b_rect b)
          (b_locked b) (b_parent b) (b_anchors b).
Definition set_b_rect (r : QRectF) (b : GraphBlock) : GraphBlock :=
  mkBlock (block_id b) (b_title b) (b_content b) (b_color b) (b_pos b) r
          (b_locked b) (b_parent b) (b_anchors b).
Definition set_b_anchors (a : Anchors) (b : GraphBlock) : GraphBlock :=
  mkBlock (block_id b) (b_title b) (b_content b) (b_color b) (b_pos b) (b_rect b)
          (b_locked b) (b_parent b) a.

Definition set_c_title (t : string) (c : GraphCluster) : GraphCluster :=
  mkCluster t (c_color c) (c_blocks c) (c_pos c) (c_rect c) (c_locked c).
Definition set_c_color (t : string) (c : GraphCluster) : GraphCluster :=
  mkCluster (c_title c) t (c_blocks c) (c_pos c) (c_rect c) (c_locked c).
Definition set_c_blocks (l : list bref) (c : GraphCluster) : GraphCluster :=
  mkCluster (c_title c) (c_color c) l (c_pos c) (c_rect c) (c_locked c).
Definition set_c_pos (p : QPointF) (c : GraphCluster) : GraphCluster :=
  mkCluster (c_title c) (c_color c) (c_blocks c) p (c_rect c) (c_locked c).
Definition set_c_rect (r : QRectF) (c : GraphCluster) : GraphCluster :=
  mkCluster (c_title c) (c_color c) (c_blocks c) (c_pos c) r (c_locked c).
Definition set_c_locked (l : bool) (c : GraphCluster) : GraphCluster :=
  mkCluster (c_title c) (c_color c) (c_blocks c) (c_pos c) (c_rect c) l.

Definition set_block_objs (h : list GraphBlock) (s : GraphEditor) : GraphEditor :=
  mkEditor h (cluster_objs s) (conn_objs s) (block_id_counter s)
    (cluster_id_counter s) (blocks s) (clusters s) (connections s)
    (currentBlock s) (currentCluster s) (editLocked s) (current_connection s).
Definition set_cluster_objs (h : list GraphCluster) (s : GraphEditor) : GraphEditor :=
  mkEditor (block_objs s) h (conn_objs s) (block_id_counter s)
    (cluster_id_counter s) (blocks s) (clusters s) (connections s)
    (currentBlock s) (currentCluster s) (editLocked s) (current_connection s).
Definition set_conn_objs (h : list GraphConnection) (s : GraphEditor) : GraphEditor :=
  mkEditor (block_objs s) (cluster_objs s) h (block_id_counter s)
    (cluster_id_counter s) (blocks s) (clusters s) (connections s)
    (currentBlock s) (currentCluster s) (editLocked s) (current_connection s).
Definition set_block_id_counter (n : Z) (s : GraphEditor) : GraphEditor :=
  mkEditor (block_objs s) (cluster_objs s) (conn_objs s) n
    (cluster_id_counter s) (blocks s) (clusters s) (connections s)
    (currentBlock s) (currentCluster s) (editLocked s) (current_connection s).
Definition set_cluster_id_counter (n : Z) (s : GraphEditor) : GraphEditor :=
  mkEditor (block_objs s) (cluster_objs s) (conn_objs s) (block_id_counter s)
    n (blocks s) (clusters s) (connections s)
    (currentBlock s) (currentCluster s) (editLocked s) (current_connection s).
Definition set_blocks (d : dict bref) (s : GraphEditor) : GraphEditor :=
  mkEditor (block_objs s) (cluster_objs s) (conn_objs s) (block_id_counter s)
    (cluster_id_counter s) d (clusters s) (connections s)
    (currentBlock s) (currentCluster s) (editLocked s) (current_connection s).
Definition set_clusters (d : dict cref) (s : GraphEditor) : GraphEditor :=
  mkEditor (block_objs s) (cluster_objs s) (conn_objs s) (block_id_counter s)
    (cluster_id_counter s) (blocks s) d (connections s)
    (currentBlock s) (currentCluster s) (editLocked s) (current_connection s).
Definition set_connections (l : list nref) (s : GraphEditor) : GraphEditor :=
  mkEditor (block_objs s) (cluster_objs s) (conn_objs s) (block_id_counter s)
    (cluster_id_counter s) (blocks s) (clusters s) l
    (currentBlock s) (currentCluster s) (editLocked s) (current_connection s).
Definition set_current (b : option bref) (c : option cref) (s : GraphEditor)
  : GraphEditor :=
  mkEditor (block_objs s) (cluster_objs s) (conn_objs s) (block_id_counter s)
    (cluster_id_counter s) (blocks s) (clusters s) (connections s)
    b c (editLocked s) (current_connection s).
Definition set_editLocked (l : bool) (s : GraphEditor) : GraphEditor :=
  mkEditor (block_objs s) (cluster_objs s) (conn_objs s) (block_id_counter s)
    (cluster_id_counter s) (blocks s) (clusters s) (connections s)
    (currentBlock s) (currentCluster s) l (current_connection s).
Definition set_current_connection (c : option nref) (s : GraphEditor) : GraphEditor :=
  mkEditor (block_objs s) (cluster_objs s) (conn_objs s) (block_id_counter s)
    (cluster_id_counter s) (blocks s) (clusters s) (connections s)
    (currentBlock s) (currentCluster s) (editLocked s) c.

(** Mutation of the object a reference names. *)
Definition upd_block (r : bref) (f : GraphBlock -> GraphBlock) (s : GraphEditor)
  : GraphEditor := set_block_objs (alter f r (block_objs s)) s.
Definition upd_cluster (r : cref) (f : GraphCluster -> GraphCluster)
  (s : GraphEditor) : GraphEditor :=
  set_cluster_objs (alter f r (cluster_objs s)) s.
Definition upd_conn (r : nref) (f : GraphConnection -> GraphConnection)
  (s : GraphEditor) : GraphEditor :=
  set_conn_objs (alter f r (conn_objs s)) s.

(** ** Scene geometry *)

(** Qt 5's default pen is one unit wide, and [boundingRect()] of a rect item
    is [rect()] grown by half the pen width on every side. *)
Definition PEN_HALF_WIDTH : Q := 1 # 2.

Definition boundingRect (r : QRectF) : QRectF :=
  adjust (- PEN_HALF_WIDTH) (- PEN_HALF_WIDTH) PEN_HALF_WIDTH PEN_HALF_WIDTH r.

(** [scenePos()] of a block: [pos()] is in the coordinates of the parent
    item.  Clusters are never given a parent, no item is rotated or scaled. *)
Definition scenePos (s : GraphEditor) (b : GraphBlock) : QPointF :=
  match b_parent b with
  | None => b_pos b
  | Some c =>
      match cluster_objs s !! c with
      | Some cl => padd (c_pos cl) (b_pos b)
      | None => b_pos b
      end
  end.

Definition block_sceneBoundingRect (s : GraphEditor) (b : GraphBlock) : QRectF :=
  translated (scenePos s b) (boundingRect (b_rect b)).

Definition cluster_sceneBoundingRect (c : GraphCluster) : QRectF :=
  translated (c_pos c) (boundingRect (c_rect c)).

(** Centre of an anchor handle in the coordinates of its block: the handle's
    position plus the centre of its own rect (its bounding rect is that rect
    grown symmetrically, so the two centres coincide). *)
Definition anchor_center (b : GraphBlock) (o : Orientation) : QPointF :=
  padd (anchor_pos (b_anchors b) o) (center (mkRect 0 0 HANDLE_SIZE HANDLE_SIZE)).

(** [anchor.sceneBoundingRect().center()] *)
Definition anchor_scene_center (s : GraphEditor) (a : AnchorHandle) : QPointF :=
  match block_objs s !! a.1 with
  | Some b => padd (scenePos s b) (anchor_center b a.2)
  | None => origin
  end.

(** ** [GraphBlock] *)

(** [GraphBlock.updateAnchors] *)
Definition updateAnchors (b : GraphBlock) : GraphBlock :=
  let r := b_rect b in
  let size := HANDLE_SIZE in
  set_b_anchors
    (mkAnchors
       (mkPoint (rw r / 2 - size / 2) (- size / 2))
       (mkPoint (rw r / 2 - size / 2) (rh r - size / 2))
       (mkPoint (- size / 2) (rh r / 2 - size / 2))
       (mkPoint (rw r - size / 2) (rh r / 2 - size / 2)))
    b.

(** [GraphBlock.__init__], with the [block_id] that both creation sites
    assign on the next line.  The handles are created at the origin and then
    placed by [updateAnchors]. *)
Definition new_GraphBlock (rect : QRectF) (title : string) (id : Z) : GraphBlock :=
  updateAnchors
    (mkBlock id title "" "#ffffff" origin rect false None
       (mkAnchors origin origin origin origin)).

(** [GraphBlock.setTitle] *)
Definition setTitle (title : string) (b : GraphBlock) : GraphBlock :=
  set_b_title title b.

(** [GraphBlock.setBlockRect] *)
Definition setBlockRect (newRect : QRectF) (b : GraphBlock) : GraphBlock :=
  updateAnchors (set_b_rect newRect b).

(** ** [GraphCluster] *)

(** [GraphCluster.computeBoundingRect] *)
Definition computeBoundingRect (s : GraphEditor) (bs : list GraphBlock) : QRectF :=
  match bs with
  | [] => null_rect
  | b0 :: rest =>
      adjust (-10) (-10) 10 10
        (fold_left (fun rect blk => united rect (block_sceneBoundingRect s blk))
                   rest (block_sceneBoundingRect s b0))
  end.

(** The objects a list of references names. *)
Definition deref_blocks (s : GraphEditor) (rs : list bref) : list GraphBlock :=
  omap (fun r => block_objs s !! r) rs.

(** [GraphCluster.__init__] *)
Definition new_GraphCluster (s : GraphEditor) (bs : list bref) (title : string)
  : GraphCluster :=
  mkCluster title "#ffeeaa" bs origin
            (computeBoundingRect s (deref_blocks s bs)) false.

(** [GraphCluster.setClusterRect] *)
Definition setClusterRect (newRect : QRectF) (c : GraphCluster) : GraphCluster :=
  set_c_rect newRect c.

(** ** [GraphConnection] *)

Definition point_line (p q : QPointF) : QLineF := mkLine (px p) (py p) (px q) (py q).

(** [GraphConnection.update_line_item].  On a deleted line item the call
    raises [RuntimeError] (at [sceneBoundingRect] of the deleted anchor, or
    at [setLine]) and the connection stays as it is. *)
Definition update_line_item (s : GraphEditor) (current_pos : option QPointF)
  (c : GraphConnection) : GraphConnection :=
  match line_item c with
  | None => c
  | Some Deleted => c
  | Some (Line _) =>
      let start_point := anchor_scene_center s (start_anchor c) in
      let end_point :=
        match end_anchor c with
        | Some e => anchor_scene_center s e
        | None =>
            match current_pos with
            | Some p => p
            | None => start_point
            end
        end in
      mkConn (start_anchor c) (end_anchor c)
             (Some (Line (point_line start_point end_point)))
  end.

(** ** Exceptions *)

Inductive exn :=
  | KeyError (key : string)
  | AttributeError
  | TypeError
  | OSError
  | JSONDecodeError.

Inductive result (A : Type) :=
  | Ok (a : A)
  | Raise (e : exn).
Arguments Ok {A} a.
Arguments Raise {A} e.

#[global] Instance result_ret : MRet result := fun A a => Ok a.
#[global] Instance result_bind : MBind result :=
  fun A B f m => match m with Ok a => f a | Raise e => Raise e end.

(** [d[key]] on a dictionary of the parsed document: [o] is the value under
    [key], if the key is present. *)
Definition getitem {A} (key : string) (o : option A) : result A :=
  match o with
  | Some a => Ok a
  | None => Raise (KeyError key)
  end.

(** A [for] loop whose body may raise: the state reached when the exception
    leaves the loop is kept. *)
Fixpoint for_each {A} (body : A -> GraphEditor -> result GraphEditor)
  (l : list A) (s : GraphEditor) : GraphEditor * option exn :=
  match l with
  | [] => (s, None)
  | a :: l' =>
      match body a s with
      | Ok s' => for_each body l' s'
      | Raise e => (s, Some e)
      end
  end.

(** Sequencing of statements that may raise. *)
Definition and_then (r : GraphEditor * option exn)
  (k : GraphEditor -> GraphEditor * option exn) : GraphEditor * option exn :=
  match r.2 with
  | None => k r.1
  | Some _ => r
  end.

(** [GraphConnection.create_line_item], on a connection just built with
    [start] as [start_anchor] and [end_] as [end_anchor]: the line starts as
    a point at the centre of the start anchor.  [self.start_anchor] is
    dereferenced, which raises on [None]. *)
Definition create_line_item (s : GraphEditor) (start end_ : option AnchorHandle)
  : result GraphConnection :=
  match start with
  | None => Raise AttributeError
  | Some a =>
      let start_point := anchor_scene_center s a in
      Ok (mkConn a end_ (Some (Line (point_line start_point start_point))))
  end.

(** ** [GraphEditor]: selection, blocks, clusters *)

Definition touches (blk : bref) (c : GraphConnection) : bool :=
  bool_decide ((start_anchor c).1 = blk) ||
  match end_anchor c with
  | Some e => bool_decide (e.1 = blk)
  | None => false
  end.

(** [GraphEditor.updateConnectionsForBlock] *)
Definition updateConnectionsForBlock (blk : bref) (s : GraphEditor) : GraphEditor :=
  let s1 :=
    fold_left
      (fun acc n =>
         match conn_objs acc !! n with
         | Some c =>
             if touches blk c then upd_conn n (update_line_item acc None) acc
             else acc
         | None => acc
         end)
      (connections s) s in
  match current_connection s1 with
  | Some n =>
      match conn_objs s1 !! n with
      | Some c =>
          if bool_decide ((start_anchor c).1 = blk)
          then upd_conn n (update_line_item s1 None) s1
          else s1
      | None => s1
      end
  | None => s1
  end.

(** [GraphEditor.updateConnectionsForCluster] *)
Definition updateConnectionsForCluster (c : cref) (s : GraphEditor) : GraphEditor :=
  match cluster_objs s !! c with
  | Some cl => fold_left (fun acc blk => updateConnectionsForBlock blk acc) (c_blocks cl) s
  | None => s
  end.

(** [setPos] on a block, through [GraphBlock.itemChange]: refused while the
    block is locked, followed by the update of its connections. *)
Definition block_setPos (r : bref) (p : QPointF) (s : GraphEditor) : GraphEditor :=
  match block_objs s !! r with
  | Some b =>
      if b_locked b then s
      else updateConnectionsForBlock r (upd_block r (set_b_pos p) s)
  | None => s
  end.

(** [setPos] on a cluster, through [GraphCluster.itemChange]. *)
Definition cluster_setPos (c : cref) (p : QPointF) (s : GraphEditor) : GraphEditor :=
  match cluster_objs s !! c with
  | Some cl =>
      if c_locked cl then s
      else updateConnectionsForCluster c (upd_cluster c (set_c_pos p) s)
  | None => s
  end.

(** [blk.setParentItem(parent)]: the parent changes, [pos()] does not. *)
Definition setParentItem (parent : option cref) (blk : bref) (s : GraphEditor)
  : GraphEditor := upd_block blk (set_b_parent parent) s.

(** [GraphEditor.setCurrentBlock] *)
Definition setCurrentBlock (b : bref) (s : GraphEditor) : GraphEditor :=
  if editLocked s then s else set_current (Some b) None s.

(** [GraphEditor.setCurrentCluster] *)
Definition setCurrentCluster (c : cref) (s : GraphEditor) : GraphEditor :=
  if editLocked s then s else set_current None (Some c) s.

(** [GraphEditor.onEditDockVisibilityChanged] *)
Definition onEditDockVisibilityChanged (visible : bool) (s : GraphEditor)
  : GraphEditor :=
  if visible then s else set_current None None (set_editLocked false s).

(** [GraphEditor.onLockToggled] *)
Definition onLockToggled (locked : bool) (s : GraphEditor) : GraphEditor :=
  set_editLocked locked s.

(** [GraphEditor.addBlock]; [x] and [y] are the two values drawn by
    [random.randint]. *)
Definition addBlock (x y : Z) (s : GraphEditor) : GraphEditor :=
  let rect := mkRect 0 0 150 80 in
  let block := new_GraphBlock rect "Новий блок" (block_id_counter s) in
  let r := length (block_objs s) in
  let s := set_block_objs (block_objs s ++ [block]) s in
  let s := set_blocks (Dict.set (block_id_counter s) r (blocks s)) s in
  let s := set_block_id_counter (block_id_counter s + 1) s in
  let s := block_setPos r (mkPoint (inject_Z x) (inject_Z y)) s in
  setCurrentBlock r s.

(** [list.remove]: the first occurrence. *)
Fixpoint list_remove (n : nat) (l : list nat) : list nat :=
  match l with
  | [] => []
  | m :: l' => if decide (n = m) then l' else m :: list_remove n l'
  end.

Definition conn_touches (s : GraphEditor) (blk : bref) (n : nref) : bool :=
  match conn_objs s !! n with
  | Some c => touches blk c
  | None => false
  end.

(** [scene.removeItem(item)] on a block of the scene.  Qt takes the item out
    of the scene and, when the item has a parent that is in the scene,
    resets the parent ([QGraphicsScene::removeItem] ends in
    [item->setParentItem(nullptr)]); [pos()] is kept.  A selected block is in
    the scene, and so is the cluster it is a child of, if any. *)
Definition scene_removeItem (blk : bref) (s : GraphEditor) : GraphEditor :=
  setParentItem None blk s.

(** One turn of the loop of [GraphEditor.deleteSelected]. *)
Definition delete_item (item : Item) (s : GraphEditor) : GraphEditor :=
  match item with
  | IBlock r =>
      match block_objs s !! r with
      | Some b =>
          if Dict.mem (block_id b) (blocks s) then
            let conns_to_remove := List.filter (conn_touches s r) (connections s) in
            let s :=
              fold_left
                (fun acc conn =>
                   if bool_decide (conn ∈ connections acc)
                   then set_connections (list_remove conn (connections acc)) acc
                   else acc)
                conns_to_remove s in
            let s := scene_removeItem r s in
            set_blocks (Dict.del (block_id b) (blocks s)) s
          else s
      | None => s
      end
  | ICluster c =>
      match cluster_objs s !! c with
      | Some cl =>
          let s := fold_left (fun acc blk => setParentItem None blk acc) (c_blocks cl) s in
          match List.find (fun kv => bool_decide (kv.2 = c)) (clusters s) with
          | Some kv => set_clusters (Dict.del kv.1 (clusters s)) s
          | None => s
          end
      | None => s
      end
  end.

(** [GraphEditor.deleteSelected]; [sel] is [scene.selectedItems()]. *)
Definition deleteSelected (sel : list Item) (s : GraphEditor) : GraphEditor :=
  fold_left (fun acc item => delete_item item acc) sel s.

Definition selected_blocks (sel : list Item) : list bref :=
  omap (fun item => match item with IBlock b => Some b | ICluster _ => None end) sel.

(** [GraphEditor.groupSelectedBlocks] *)
Definition groupSelectedBlocks (sel : list Item) (s : GraphEditor) : GraphEditor :=
  let selected := selected_blocks sel in
  if (length selected <? 2)%nat then s
  else
    let cluster :=
      new_GraphCluster s selected ("Кластер " +:+ pretty (cluster_id_counter s)) in
    let c := length (cluster_objs s) in
    let s := set_cluster_objs (cluster_objs s ++ [cluster]) s in
    let s := set_clusters (Dict.set (cluster_id_counter s) c (clusters s)) s in
    let s := set_cluster_id_counter (cluster_id_counter s + 1) s in
    fold_left (fun acc blk => setParentItem (Some c) blk acc) selected s.

(** [GraphEditor.detachClusterBlocks] *)
Definition detachClusterBlocks (s : GraphEditor) : GraphEditor :=
  match currentCluster s with
  | Some c =>
      match cluster_objs s !! c with
      | Some cl =>
          let s := fold_left (fun acc blk => setParentItem None blk acc) (c_blocks cl) s in
          let s := upd_cluster c (set_c_blocks []) s in
          upd_cluster c (set_c_rect null_rect) s
      | None => s
      end
  | None => s
  end.

(** One turn of the loop of [GraphEditor.attachClusterBlocks]. *)
Definition attach_block (c : cref) (cluster_rect : QRectF) (r : bref)
  (s : GraphEditor) : GraphEditor :=
  match block_objs s !! r with
  | Some b =>
      match b_parent b with
      | None =>
          if contains cluster_rect (scenePos s b) then
            let s := setParentItem (Some c) r s in
            upd_cluster c
              (fun cl => if bool_decide (r ∈ c_blocks cl) then cl
                         else set_c_blocks (c_blocks cl ++ [r]) cl) s
          else s
      | Some _ => s
      end
  | None => s
  end.

(** [GraphEditor.attachClusterBlocks] *)
Definition attachClusterBlocks (s : GraphEditor) : GraphEditor :=
  match currentCluster s with
  | Some c =>
      match cluster_objs s !! c with
      | Some cl =>
          let cluster_rect := cluster_sceneBoundingRect cl in
          fold_left (fun acc r => attach_block c cluster_rect r acc)
                    (Dict.values (blocks s)) s
      | None => s
      end
  | None => s
  end.

(** [GraphEditor.fixCurrent] and [GraphEditor.unfixCurrent] *)
Definition set_locked_current (l : bool) (s : GraphEditor) : GraphEditor :=
  match currentBlock s with
  | Some b => upd_block b (set_b_locked l) s
  | None =>
      match currentCluster s with
      | Some c => upd_cluster c (set_c_locked l) s
      | None => s
      end
  end.

Definition fixCurrent : GraphEditor -> GraphEditor := set_locked_current true.
Definition unfixCurrent : GraphEditor -> GraphEditor := set_locked_current false.

(** [GraphEditor.changeColor]; [color] is the name of the colour picked in
    the dialog, [None] when the dialog returns an invalid colour. *)
Definition changeColor (color : option string) (s : GraphEditor) : GraphEditor :=
  match color with
  | Some name =>
      let s := match currentBlock s with
               | Some b => upd_block b (set_b_color name) s
               | None => s
               end in
      match currentCluster s with
      | Some c => upd_cluster c (set_c_color name) s
      | None => s
      end
  | None => s
  end.

(** ** [GraphEditor]: drawing a connection *)

(** [GraphEditor.startConnection] *)
Definition startConnection (anchor : AnchorHandle) (s : GraphEditor) : GraphEditor :=
  match current_connection s with
  | Some _ => s
  | None =>
      match create_line_item s (Some anchor) None with
      | Ok conn =>
          let n := length (conn_objs s) in
          set_current_connection (Some n) (set_conn_objs (conn_objs s ++ [conn]) s)
      | Raise _ => s
      end
  end.

(** The pending connection, if any, has a line item that the scene has
    deleted. *)
Definition pending_deleted (s : GraphEditor) : bool :=
  match current_connection s with
  | Some n =>
      match conn_objs s !! n with
      | Some c => line_deleted c
      | None => false
      end
  | None => false
  end.

(** [GraphEditor.cancelConnection].  [scene.removeItem] raises
    [RuntimeError] on a deleted line item, before [current_connection] is
    reset: the editor is left as it was. *)
Definition cancelConnection (s : GraphEditor) : GraphEditor :=
  if pending_deleted s then s else set_current_connection None s.

(** [GraphEditor.endConnection].  When the line item of the pending
    connection is deleted, [update_line_item], after the end anchor is
    assigned, or [cancelConnection] raises [RuntimeError]: nothing is added
    to the list and [current_connection] is not reset. *)
Definition endConnection (anchor : AnchorHandle) (s : GraphEditor) : GraphEditor :=
  match current_connection s with
  | None => s
  | Some n =>
      match conn_objs s !! n with
      | Some c =>
          if bool_decide (anchor.1 ≠ (start_anchor c).1) then
            let s := upd_conn n (fun c => mkConn (start_anchor c) (Some anchor)
                                                 (line_item c)) s in
            if line_deleted c then s
            else
              let s := upd_conn n (update_line_item s None) s in
              let s := set_connections (connections s ++ [n]) s in
              set_current_connection None s
          else
            if line_deleted c then s
            else set_current_connection None (cancelConnection s)
      | None => s
      end
  end.

(** [CustomScene.mouseMoveEvent]; on a deleted line item
    [update_line_item] raises and nothing has changed. *)
Definition mouseMoveEvent (scene_pos : QPointF) (s : GraphEditor) : GraphEditor :=
  match current_connection s with
  | Some n => upd_conn n (update_line_item s (Some scene_pos)) s
  | None => s
  end.

(** [ClickableLine.mousePressEvent] on the line of connection [conn]. *)
Definition line_mousePressEvent (conn : nref) (s : GraphEditor) : GraphEditor :=
  if bool_decide (conn ∈ connections s)
  then set_connections (list_remove conn (connections s)) s
  else s.

(** ** [GraphEditor]: the edit panel *)

(** [GraphEditor.saveEdit].  [title] and [content] are the texts of the
    title and LaTeX fields; [width] and [height] are what [float()] makes of
    the two size fields, [None] when it raises [ValueError]. *)
Definition saveEdit (title content : string) (width height : option Q)
  (s : GraphEditor) : GraphEditor :=
  match currentBlock s with
  | Some r =>
      match block_objs s !! r with
      | Some b =>
          let size :=
            match width, height with
            | Some w, Some h => (w, h)
            | _, _ => (rw (b_rect b), rh (b_rect b))
            end in
          let s := upd_block r (setTitle title) s in
          let s := upd_block r (set_b_content content) s in
          let newRect := mkRect 0 0 size.1 size.2 in
          upd_block r (setBlockRect newRect) s
      | None => s
      end
  | None =>
      match currentCluster s with
      | Some c =>
          match cluster_objs s !! c with
          | Some cl =>
              let size :=
                match width, height with
                | Some w, Some h => (w, h)
                | _, _ => (rw (c_rect cl), rh (c_rect cl))
                end in
              let s := upd_cluster c (set_c_title title) s in
              (* the method ends on the assignment of [newRect] *)
              let newRect := mkRect (rx (c_rect cl)) (ry (c_rect cl)) size.1 size.2 in
              s
          | None => s
          end
      | None => s
      end
  end.

(** ** [GraphEditor]: files *)

(** [scene.clear()] deletes every item of the scene.  The blocks, the
    clusters and the listed connections go out of reach with the registries
    and the list that [newFile] clears next; the pending connection, whose
    line is in the scene from [create_line_item] on, is the one object with
    deleted items that the editor still refers to. *)
Definition scene_clear (s : GraphEditor) : GraphEditor :=
  match current_connection s with
  | Some n =>
      upd_conn n (fun c => mkConn (start_anchor c) (end_anchor c)
                                  (match line_item c with
                                   | Some _ => Some Deleted
                                   | None => None
                                   end)) s
  | None => s
  end.

(** [GraphEditor.newFile]; [current_connection] is not reset. *)
Definition newFile (s : GraphEditor) : GraphEditor :=
  let s := scene_clear s in
  mkEditor (block_objs s) (cluster_objs s) (conn_objs s) 1 1 [] [] []
           None None (editLocked s) (current_connection s).

(** The document [saveFile] writes. *)
Record BlockData := mkBlockData {
  bd_id : Z; bd_title : string; bd_content : string;
  bd_x : Q; bd_y : Q; bd_width : Q; bd_height : Q;
  bd_color : string; bd_locked : bool }.

Record ClusterData := mkClusterData {
  cd_id : Z; cd_title : string; cd_color : string;
  cd_block_ids : list Z; cd_locked : bool }.

Record ConnData := mkConnData {
  nd_start_block_id : Z; nd_start_anchor : string;
  nd_end_block_id : Z; nd_end_anchor : string }.

Record Document := mkDocument {
  doc_blocks : list BlockData;
  doc_clusters : list ClusterData;
  doc_connections : list ConnData }.

(** A number as [json.load] returns it: a Python [int], of any size, or a
    Python [float], which is a double and is given here by its value. *)
Inductive JNumber :=
  | JInt (n : Z)
  | JFloat (q : Q).

(** The double that Python makes of the [int] [n] ([PyLong_AsDouble]): [n]
    itself while it has at most 53 bits, else [n] rounded to 53 bits, a tie
    going to the even mantissa; none ([OverflowError]) when the result
    is beyond the largest double. *)
Definition double_of_int (n : Z) : option Z :=
  let a := Z.abs n in
  let k := Z.log2 a - 52 in
  if k <=? 0 then Some n
  else
    let m := Z.shiftr a k in
    let rest := Z.land a (Z.ones k) in
    let half := Z.shiftl 1 (k - 1) in
    let m := if (half <? rest) || ((rest =? half) && Z.odd m) then m + 1 else m in
    let r := Z.shiftl m k in
    if 2 ^ 1024 <=? r then None else Some (Z.sgn n * r).


(** A Python number passed where Qt takes a [qreal]: a [float] goes as it
    is, an [int] is converted to a double, and PyQt raises [TypeError] when
    the conversion fails. *)
Definition qreal (v : JNumber) : result Q :=
  match v with
  | JFloat q => Ok q
  | JInt n =>
      match double_of_int n with
      | Some m => Ok (inject_Z m)
      | None => Raise TypeError
      end
  end.

(** What [json.load] hands to [openFile] for a file in the document format:
    the same dictionaries, with values of the types of the format, any key
    of which may be absent. *)
Record JBlock := mkJBlock {
  jb_id : option Z; jb_title : option string; jb_content : option string;
  jb_x : option JNumber; jb_y : option JNumber;
  jb_width : option JNumber; jb_height : option JNumber;
  jb_color : option string; jb_locked : option bool }.

Record JCluster := mkJCluster {
  jc_id : option Z; jc_title : option string; jc_color : option string;
  jc_block_ids : option (list Z); jc_locked : option bool }.

Record JConn := mkJConn {
  jn_start_block_id : option Z; jn_start_anchor : option string;
  jn_end_block_id : option Z; jn_end_anchor : option string }.

Record JData := mkJData {
  j_blocks : option (list JBlock);
  j_clusters : option (list JCluster);
  j_connections : option (list JConn) }.

(** A written document, read back by [json.load]: [saveFile] writes the
    coordinates and sizes as floats. *)
Definition block_json (b : BlockData) : JBlock :=
  mkJBlock (Some (bd_id b)) (Some (bd_title b)) (Some (bd_content b))
           (Some (JFloat (bd_x b))) (Some (JFloat (bd_y b)))
           (Some (JFloat (bd_width b))) (Some (JFloat (bd_height b)))
           (Some (bd_color b)) (Some (bd_locked b)).

Definition cluster_json (c : ClusterData) : JCluster :=
  mkJCluster (Some (cd_id c)) (Some (cd_title c)) (Some (cd_color c))
             (Some (cd_block_ids c)) (Some (cd_locked c)).

Definition conn_json (c : ConnData) : JConn :=
  mkJConn (Some (nd_start_block_id c)) (Some (nd_start_anchor c))
          (Some (nd_end_block_id c)) (Some (nd_end_anchor c)).

Definition to_json (d : Document) : JData :=
  mkJData (Some (map block_json (doc_blocks d)))
          (Some (map cluster_json (doc_clusters d)))
          (Some (map conn_json (doc_connections d))).

(** What the file dialog and [json.load] produce for [openFile]. *)
Inductive FileInput :=
  | Cancelled                   (* no file name chosen *)
  | Unreadable                  (* [open] raises *)
  | Unparsable                  (* [json.load] raises *)
  | Parsed (data : JData).

(** [block.anchors.get(name)] *)
Definition anchors_get (blk : bref) (name : string) : option AnchorHandle :=
  (fun o => (blk, o)) <$>
    List.find (fun o => bool_decide (orientation_name o = name)) all_orientations.

(** Body of the first loop of [openFile].  The two arguments of
    [QRectF(0, 0, width, height)] are looked up and then converted, before
    ["title"] is looked up; likewise for [setPos(x, y)].  The block is
    registered last, so that a turn that raises leaves nothing behind. *)
Definition load_block (block_data : JBlock) (s : GraphEditor) : result GraphEditor :=
  width ← getitem "width" (jb_width block_data);
  height ← getitem "height" (jb_height block_data);
  width ← qreal width;
  height ← qreal height;
  let rect := mkRect 0 0 width height in
  title ← getitem "title" (jb_title block_data);
  id ← getitem "id" (jb_id block_data);
  let block := new_GraphBlock rect title id in
  let block := set_b_content (default "" (jb_content block_data)) block in
  let block := set_b_color (default "#ffffff" (jb_color block_data)) block in
  x ← getitem "x" (jb_x block_data);
  y ← getitem "y" (jb_y block_data);
  x ← qreal x;
  y ← qreal y;
  let block := set_b_pos (mkPoint x y) block in
  let block := set_b_locked (default false (jb_locked block_data)) block in
  let r := length (block_objs s) in
  let s := set_block_objs (block_objs s ++ [block]) s in
  let s := set_blocks (Dict.set id r (blocks s)) s in
  Ok (if (block_id_counter s <=? id)%Z then set_block_id_counter (id + 1) s else s).

(** Body of the second loop of [openFile]. *)
Definition load_cluster (cluster_data : JCluster) (s : GraphEditor)
  : result GraphEditor :=
  let cluster_blocks :=
    omap (fun bid => Dict.get bid (blocks s))
         (default [] (jc_block_ids cluster_data)) in
  match cluster_blocks with
  | [] => Ok s
  | _ :: _ =>
      title ← getitem "title" (jc_title cluster_data);
      let cluster := new_GraphCluster s cluster_blocks title in
      let cluster := set_c_color (default "#ffeeaa" (jc_color cluster_data)) cluster in
      let cluster := set_c_locked (default false (jc_locked cluster_data)) cluster in
      id ← getitem "id" (jc_id cluster_data);
      let c := length (cluster_objs s) in
      let s := set_cluster_objs (cluster_objs s ++ [cluster]) s in
      Ok (set_clusters (Dict.set id c (clusters s)) s)
  end.

(** Body of the third loop of [openFile]. *)
Definition load_connection (conn_data : JConn) (s : GraphEditor)
  : result GraphEditor :=
  start_id ← getitem "start_block_id" (jn_start_block_id conn_data);
  end_id ← getitem "end_block_id" (jn_end_block_id conn_data);
  start_orientation ← getitem "start_anchor" (jn_start_anchor conn_data);
  end_orientation ← getitem "end_anchor" (jn_end_anchor conn_data);
  match Dict.get start_id (blocks s), Dict.get end_id (blocks s) with
  | Some start_block, Some end_block =>
      let start_anchor := anchors_get start_block start_orientation in
      let end_anchor := anchors_get end_block end_orientation in
      conn ← create_line_item s start_anchor end_anchor;
      let conn := update_line_item s None conn in
      let n := length (conn_objs s) in
      let s := set_conn_objs (conn_objs s ++ [conn]) s in
      Ok (set_connections (connections s ++ [n]) s)
  | _, _ => Ok s
  end.

(** [GraphEditor.openFile]: the state it leaves and the exception it raises,
    if any. *)
Definition openFile (input : FileInput) (s : GraphEditor)
  : GraphEditor * option exn :=
  match input with
  | Cancelled => (s, None)
  | Unreadable => (s, Some OSError)
  | Unparsable => (s, Some JSONDecodeError)
  | Parsed data =>
      let s := newFile s in
      and_then (for_each load_block (default [] (j_blocks data)) s) (fun s =>
      and_then (for_each load_cluster (default [] (j_clusters data)) s) (fun s =>
      for_each load_connection (default [] (j_connections data)) s))
  end.

Definition save_block (s : GraphEditor) (r : bref) : option BlockData :=
  block ← block_objs s !! r;
  let pos := scenePos s block in
  let rect := b_rect block in
  Some (mkBlockData (block_id block) (b_title block) (b_content block)
          (px pos) (py pos) (rw rect) (rh rect) (b_color block) (b_locked block)).

Definition save_cluster (s : GraphEditor) (item : Z * cref) : option ClusterData :=
  cluster ← cluster_objs s !! item.2;
  Some (mkClusterData item.1 (c_title cluster) (c_color cluster)
          (map block_id (deref_blocks s (c_blocks cluster))) (c_locked cluster)).

Definition save_connection (s : GraphEditor) (n : nref) : option ConnData :=
  conn ← conn_objs s !! n;
  e ← end_anchor conn;
  start_block ← block_objs s !! (start_anchor conn).1;
  end_block ← block_objs s !! e.1;
  Some (mkConnData (block_id start_block) (orientation_name (start_anchor conn).2)
          (block_id end_block) (orientation_name e.2)).

(** The dictionary [data] that [GraphEditor.saveFile] builds and dumps. *)
Definition save_data (s : GraphEditor) : Document :=
  mkDocument (omap (save_block s) (Dict.values (blocks s)))
             (omap (save_cluster s) (clusters s))
             (omap (save_connection s) (connections s)).


(** ** User actions *)

Inductive Action :=
  | ANewFile
  | AOpenFile (input : FileInput)
  | AAddBlock (x y : Z)
  | ADeleteSelected (sel : list Item)
  | AGroupSelectedBlocks (sel : list Item)
  | ADetachClusterBlocks
  | AAttachClusterBlocks
  | AFixCurrent
  | AUnfixCurrent
  | AChangeColor (color : option string)
  | ASaveEdit (title content : string) (width height : option Q)
  | APressBlock (b : bref)
  | APressCluster (c : cref)
  | ADragBlock (b : bref) (p : QPointF)
  | ADragCluster (c : cref) (p : QPointF)
  | AStartConnection (a : AnchorHandle)
  | AEndConnection (a : AnchorHandle)
  | ACancelConnection
  | AMouseMove (p : QPointF)
  | APressLine (n : nref)
  | ALockToggled (locked : bool)
  | ADockVisibility (visible : bool).

Definition step (a : Action) (s : GraphEditor) : GraphEditor :=
  match a with
  | ANewFile => newFile s
  | AOpenFile input => (openFile input s).1
  | AAddBlock x y => addBlock x y s
  | ADeleteSelected sel => deleteSelected sel s
  | AGroupSelectedBlocks sel => groupSelectedBlocks sel s
  | ADetachClusterBlocks => detachClusterBlocks s
  | AAttachClusterBlocks => attachClusterBlocks s
  | AFixCurrent => fixCurrent s
  | AUnfixCurrent => unfixCurrent s
  | AChangeColor color => changeColor color s
  | ASaveEdit title content width height => saveEdit title content width height s
  | APressBlock b => setCurrentBlock b s
  | APressCluster c => setCurrentCluster c s
  | ADragBlock b p => block_setPos b p s
  | ADragCluster c p => cluster_setPos c p s
  | AStartConnection a => startConnection a s
  | AEndConnection a => endConnection a s
  | ACancelConnection => cancelConnection s
  | AMouseMove p => mouseMoveEvent p s
  | APressLine n => line_mousePressEvent n s
  | ALockToggled locked => onLockToggled locked s
  | ADockVisibility visible => onEditDockVisibilityChanged visible s
  end.

(** The editor after a session of actions, from [GraphEditor.__init__]. *)
Definition run (actions : list Action) : GraphEditor :=
  fold_left (fun s a => step a s) actions init.

(** * Specification vocabulary *)

(** ** Anchors *)




(** *** The offsets in double arithmetic

    The lines of [updateAnchors] for a rect of width [w] and height [h], and
    the centre of a handle at position [p] (its rect is
    [(0, 0, HANDLE_SIZE, HANDLE_SIZE)], of which [QRectF.center] is
    [(x + w/2, y + h/2)]), with the operations of IEEE doubles that Python
    and Qt compute with. *)
Module Doubles.

Local Open Scope float_scope.

Definition size : float := 8.

Definition bottom_pos (w h : float) : float * float := (w / 2 - size / 2, h - size / 2).
Definition left_pos (w h : float) : float * float := (- size / 2, h / 2 - size / 2).


End Doubles.

(** The rect of a block starts at the item's origin and the handles are
    where [updateAnchors] puts them for the current rect. *)
Definition block_ok (b : GraphBlock) : Prop :=
  rx (b_rect b) = 0%Q /\ ry (b_rect b) = 0%Q /\
  b_anchors (updateAnchors b) = b_anchors b.



(** ** Sessions and documents used as concrete inputs *)

(** Two blocks are added and grouped, and the cluster is clicked. *)
Definition session_cluster_selected : list Action :=
  [AAddBlock 100 100; AAddBlock 400 100;
   AGroupSelectedBlocks [IBlock 0%nat; IBlock 1%nat]; APressCluster 0%nat].

(** A document with two blocks and a cluster with id 1 over them. *)
Definition doc_two_blocks : list BlockData :=
  [mkBlockData 1 "A" "" 100 100 150 80 "#ffffff" false;
   mkBlockData 2 "B" "" 400 100 150 80 "#ffffff" false].

Definition doc_with_cluster : Document :=
  mkDocument doc_two_blocks [mkClusterData 1 "Loaded" "#ffeeaa" [1; 2] false] [].

(** The same two blocks and one connection whose start anchor name is not
    an orientation. *)
Definition doc_bad_start_anchor : Document :=
  mkDocument doc_two_blocks [] [mkConnData 1 "middle" 2 "left"].

(** The same with the unknown name at the end anchor, and with an end block
    id that no block has. *)
Definition doc_bad_end_anchor : Document :=
  mkDocument doc_two_blocks [] [mkConnData 1 "right" 2 "middle"].

Definition doc_bad_block_id : Document :=
  mkDocument doc_two_blocks [] [mkConnData 1 "right" 7 "left"].


(** ** Loading *)







(** ** Clusters as coordinate parents *)

(** Two blocks are added and grouped, the cluster is dragged by (50, 0) and
    clicked. *)
Definition session_cluster_moved : list Action :=
  [AAddBlock 100 100; AAddBlock 400 100;
   AGroupSelectedBlocks [IBlock 0%nat; IBlock 1%nat];
   ADragCluster 0%nat (mkPoint 50 0); APressCluster 0%nat].

(** The same, with a third block added at (200, 120), inside the moved
    cluster's rect, before the cluster is clicked. *)
Definition session_block_over_moved_cluster : list Action :=
  [AAddBlock 100 100; AAddBlock 400 100;
   AGroupSelectedBlocks [IBlock 0%nat; IBlock 1%nat];
   ADragCluster 0%nat (mkPoint 50 0); AAddBlock 200 120; APressCluster 0%nat].

(** Scene position of the block a reference names. *)
Definition scenePos_of (s : GraphEditor) (r : bref) : option QPointF :=
  scenePos s <$> block_objs s !! r.

(** What [detachClusterBlocks] does to a member [r] (the object [b] in [s])
    of the current cluster [c] (the object [cl] in [s]). *)
Definition detached_member (s : GraphEditor) (c : cref) (cl : GraphCluster)
  (r : bref) (b : GraphBlock) : Prop :=
  let s' := detachClusterBlocks s in
  exists b',
    block_objs s' !! r = Some b' /\
    b_parent b' = None /\ b_pos b' = b_pos b /\
    scenePos s' b' = b_pos b /\
    (b_parent b = Some c -> scenePos s b = padd (c_pos cl) (scenePos s' b')) /\
    (b_parent b = Some c -> pt_eq (c_pos cl) origin ->
     pt_eq (scenePos s' b') (scenePos s b)).

(** What [detachClusterBlocks] does to the current cluster itself. *)
Definition detached_cluster (s : GraphEditor) (c : cref) (cl : GraphCluster) : Prop :=
  exists cl',
    cluster_objs (detachClusterBlocks s) !! c = Some cl' /\
    c_blocks cl' = [] /\ c_rect cl' = null_rect /\ c_pos cl' = c_pos cl.

(** What [groupSelectedBlocks] does to a selected block [r]. *)
Definition grouped_block (s : GraphEditor) (sel : list Item) (r : bref)
  (b : GraphBlock) : Prop :=
  let s' := groupSelectedBlocks sel s in
  let c := length (cluster_objs s) in
  exists b' cl,
    block_objs s' !! r = Some b' /\ cluster_objs s' !! c = Some cl /\
    c_pos cl = origin /\ c_blocks cl = selected_blocks sel /\
    b_parent b' = Some c /\ b_pos b' = b_pos b /\
    pt_eq (scenePos s' b') (b_pos b) /\
    (b_parent b = None -> pt_eq (scenePos s' b') (scenePos s b)).

(** What [attachClusterBlocks] does to a block [r] that it attaches to the
    current cluster [c]. *)
Definition attached_block (s : GraphEditor) (c : cref) (cl : GraphCluster)
  (r : bref) (b : GraphBlock) : Prop :=
  let s' := attachClusterBlocks s in
  exists b',
    block_objs s' !! r = Some b' /\
    b_parent b' = Some c /\ b_pos b' = b_pos b /\
    scenePos s' b' = padd (c_pos cl) (scenePos s b).

(** ** Deleting *)

(** A block is registered: [self.blocks] maps its id to the object itself. *)
Definition registered (s : GraphEditor) (r : bref) : Prop :=
  exists b, block_objs s !! r = Some b /\ Dict.get (block_id b) (blocks s) = Some r.

(** Does connection [n] start or end at an anchor of one of [sel]? *)
Definition touches_any (s : GraphEditor) (sel : list bref) (n : nref) : bool :=
  existsb (fun r => conn_touches s r n) sel.

(** Three blocks A, B, C and the connections A.right to B.left,
    C.top to A.bottom and B.bottom to C.top. *)
Definition session_three_connected : list Action :=
  [AAddBlock 100 100; AAddBlock 400 100; AAddBlock 250 300;
   AStartConnection (0%nat, ORight); AEndConnection (1%nat, OLeft);
   AStartConnection (2%nat, OTop); AEndConnection (0%nat, OBottom);
   AStartConnection (1%nat, OBottom); AEndConnection (2%nat, OTop)].

(** ** Documents *)

Definition block_ids (d : Document) : list Z := map bd_id (doc_blocks d).

(** One of the four valid orientations. *)
Definition valid_anchor_name (name : string) : Prop :=
  name ∈ map orientation_name all_orientations.





(** ** Numbers of a document *)





(** What [saveFile] writes for an unparented block. *)
Definition block_data (b : GraphBlock) : BlockData :=
  mkBlockData (block_id b) (b_title b) (b_content b) (px (b_pos b)) (py (b_pos b))
              (rw (b_rect b)) (rh (b_rect b)) (b_color b) (b_locked b).








(** ** Registries *)

(** Every entry of [self.blocks] maps an id to a block object with that
    id. *)
Definition registry_sound (s : GraphEditor) : Prop :=
  forall k r, (k, r) ∈ blocks s ->
              exists b, block_objs s !! r = Some b /\ block_id b = k.

(** Every registered block comes from the document: its id is one of [ids]. *)
Definition blocks_from (ids : list Z) (s : GraphEditor) : Prop :=
  Forall (fun r => exists b, block_objs s !! r = Some b /\ block_id b ∈ ids)
         (Dict.values (blocks s)).

(** Every member of every registered cluster is a registered block. *)
Definition members_registered (s : GraphEditor) : Prop :=
  Forall (fun c => exists cl, cluster_objs s !! c = Some cl /\
                              forall m, m ∈ c_blocks cl -> m ∈ Dict.values (blocks s))
         (Dict.values (clusters s)).

(** Two blocks are added and grouped. *)
Definition session_grouped : list Action :=
  [AAddBlock 100 100; AAddBlock 400 100;
   AGroupSelectedBlocks [IBlock 0%nat; IBlock 1%nat]].

(** What follows the deletion of block [r] (the object [b]), a member of
    the cluster registered as [cid] (the object [cl]). *)
Definition dangling_member (s : GraphEditor) (r : bref) (b : GraphBlock)
  (cid : Z) (c : cref) (cl : GraphCluster) : Prop :=
  let s' := deleteSelected [IBlock r] s in
  let d := save_data s' in
  cluster_objs s' !! c = Some cl /\
  Dict.get (block_id b) (blocks s') = None /\
  (exists cd, cd ∈ doc_clusters d /\ cd_id cd = cid /\ block_id b ∈ cd_block_ids cd) /\
  (block_id b ∉ block_ids d) /\
  (forall s0,
     let loaded := openFile (Parsed (to_json d)) s0 in
     loaded.2 = None /\
     forall cd, cd ∈ doc_clusters (save_data loaded.1) ->
                block_id b ∉ cd_block_ids cd).

(** The block registry is a dictionary (no key twice), is sound, and every
    id in it is below the block counter, so that the id [addBlock] assigns
    next is new. *)
Definition registry_ok (s : GraphEditor) : Prop :=
  NoDup (Dict.keys (blocks s)) /\ registry_sound s /\
  Forall (fun k => k < block_id_counter s) (Dict.keys (blocks s)).

(** [s'] has the block registry and block counter of [s] and block objects
    with the same ids. *)
Definition same_registry (s s' : GraphEditor) : Prop :=
  blocks s' = blocks s /\
  map block_id (block_objs s') = map block_id (block_objs s) /\
  block_id_counter s' = block_id_counter s.

(** * Mouse gestures on anchors *)

(** Items the scene reports under the pointer, topmost first. *)
Inductive SceneItem :=
  | SAnchor (a : AnchorHandle)
  | SBlock (b : bref)
  | SCluster (c : cref)
  | SLine (n : nref)
  | SText.

Definition is_anchor (item : SceneItem) : bool :=
  match item with SAnchor _ => true | _ => false end.

(** [CustomScene.mouseReleaseEvent], before the event goes on to the item
    that was pressed; [items_at_pos] is [self.items(event.scenePos())]. *)
Definition scene_mouseReleaseEvent (items_at_pos : list SceneItem)
  (s : GraphEditor) : GraphEditor :=
  match current_connection s with
  | Some _ =>
      match List.find is_anchor items_at_pos with
      | Some _ => s                         (* handled by AnchorHandle *)
      | None => cancelConnection s
      end
  | None => s
  end.

(** [AnchorHandle.mouseReleaseEvent] (left button) of the anchor [self]. *)
Definition anchor_mouseReleaseEvent (self : AnchorHandle)
  (items_at_pos : list SceneItem) (s : GraphEditor) : GraphEditor :=
  match List.find (fun item =>
                     match item with
                     | SAnchor a => bool_decide (a <> self)
                     | _ => false
                     end) items_at_pos with
  | Some (SAnchor target_anchor) => endConnection target_anchor s
  | _ => cancelConnection s
  end.

(** [AnchorHandle.mousePressEvent] (left button). *)
Definition anchor_mousePressEvent (self : AnchorHandle) (s : GraphEditor)
  : GraphEditor := startConnection self s.

(** A release of the left button after a press on the anchor [self], which
    has accepted the press and so receives the release: the scene's handler
    runs, then the handler of the anchor.  (When [cancelConnection] raises
    in the scene's handler the anchor's handler is not reached; no anchor
    is under the pointer then, so that it would call [cancelConnection]
    too, and that leaves the editor as it is.) *)
Definition release_after_press (self : AnchorHandle)
  (items_at_pos : list SceneItem) (s : GraphEditor) : GraphEditor :=
  anchor_mouseReleaseEvent self items_at_pos
    (scene_mouseReleaseEvent items_at_pos s).

(** Drawing a connection with the mouse: press on the anchor [self], pointer
    moves through [moves], release over [items_at_pos]. *)
Definition drag_connection (self : AnchorHandle) (moves : list QPointF)
  (items_at_pos : list SceneItem) (s : GraphEditor) : GraphEditor :=
  release_after_press self items_at_pos
    (fold_left (fun acc p => mouseMoveEvent p acc) moves
               (anchor_mousePressEvent self s)).

(** * Vocabulary of the further properties *)

(** ** Sessions *)

(** Actions other than a load that gets as far as clearing the model. *)
Definition interactive (a : Action) : bool :=
  match a with
  | AOpenFile (Parsed _) => false
  | _ => true
  end.

(** ** Connections *)

(** The first anchor under the pointer other than [self]. *)
Definition target_under (self : AnchorHandle) (items : list SceneItem)
  : option AnchorHandle :=
  match List.find (fun item =>
                     match item with
                     | SAnchor a => bool_decide (a <> self)
                     | _ => false
                     end) items with
  | Some (SAnchor a) => Some a
  | _ => None
  end.

(** The two anchors of every connection object. *)
Definition conn_anchors (s : GraphEditor)
  : list (AnchorHandle * option AnchorHandle) :=
  map (fun c => (start_anchor c, end_anchor c)) (conn_objs s).

(** The references of the connection list are distinct and name stored
    connections; the pending connection, if any, is stored and not in the
    list. *)
Definition conns_ok (s : GraphEditor) : Prop :=
  Forall (fun n => (n < length (conn_objs s))%nat) (connections s) /\
  NoDup (connections s) /\
  (forall n, current_connection s = Some n ->
             (n < length (conn_objs s))%nat /\ n ∉ connections s).

(** Connection [n] is committed between two different blocks. *)
Definition joins_two_blocks (s : GraphEditor) (n : nref) : Prop :=
  exists c e, conn_objs s !! n = Some c /\ end_anchor c = Some e /\
              e.1 <> (start_anchor c).1.

(** Every listed connection joins two different blocks. *)
Definition loops_free (s : GraphEditor) : Prop :=
  forall n, n ∈ connections s ->
            exists a e, conn_anchors s !! n = Some (a, Some e) /\ e.1 <> a.1.

(** Which connection objects have a deleted line item. *)
Definition line_flags (s : GraphEditor) : list bool :=
  map line_deleted (conn_objs s).

(** No listed connection has a deleted line item. *)
Definition listed_live (s : GraphEditor) : Prop :=
  forall n, n ∈ connections s -> line_flags s !! n = Some false.

(** What [saveFile] writes for a connection with the anchors [p]. *)
Definition save_anchor_pair (s : GraphEditor)
  (p : AnchorHandle * option AnchorHandle) : option ConnData :=
  e ← p.2;
  start_block ← block_objs s !! p.1.1;
  end_block ← block_objs s !! e.1;
  Some (mkConnData (block_id start_block) (orientation_name p.1.2)
          (block_id end_block) (orientation_name e.2)).

(** The document [d] with the connection [c] added last. *)
Definition with_connection (d : Document) (c : ConnData) : Document :=
  mkDocument (doc_blocks d) (doc_clusters d) (doc_connections d ++ [c]).

(** What drawing from the anchor [a] (of the block object [ba]) to a release
    over the anchor [t] (of [bt]) does to the editor [s]: no connection is
    left pending, and the connection is in the document exactly if the two
    anchors are on different blocks. *)
Definition drag_outcome (s : GraphEditor) (a t : AnchorHandle)
  (ba bt : GraphBlock) (moves : list QPointF) (items : list SceneItem) : Prop :=
  let s' := drag_connection a moves items s in
  current_connection s' = None /\
  save_data s' =
    (if bool_decide (t.1 <> a.1)
     then with_connection (save_data s)
            (mkConnData (block_id ba) (orientation_name a.2)
                        (block_id bt) (orientation_name t.2))
     else save_data s).

(** Three blocks; a connection is drawn from the first to the second, one
    is started at the third and left pending. *)
Definition session_pending : list Action :=
  [AAddBlock 100 100; AAddBlock 400 100; AAddBlock 250 300;
   AStartConnection (0%nat, ORight); AMouseMove (mkPoint 300 120);
   AEndConnection (1%nat, OLeft);
   AStartConnection (2%nat, OTop); AMouseMove (mkPoint 260 200)].

(** ** Fixed blocks *)

(** Every locked block of the store [h] is in [h'], locked and at the same
    position. *)
Definition keeps_pinned (h h' : list GraphBlock) : Prop :=
  forall r b, h !! r = Some b -> b_locked b = true ->
              exists b', h' !! r = Some b' /\ b_locked b' = true /\
                         b_pos b' = b_pos b.

(** Actions other than "unfix". *)
Definition keeps_locks (a : Action) : bool :=
  match a with
  | AUnfixCurrent => false
  | _ => true
  end.

(** The block [r], the object [b] when it is fixed, is still where it was
    after the actions [after]. *)
Definition stays_fixed (before after : list Action) (r : bref) (b : GraphBlock)
  : Prop :=
  exists b', block_objs (run (before ++ AFixCurrent :: after)) !! r = Some b' /\
             b_locked b' = true /\ b_pos b' = b_pos b.

(** ** After a load *)

(** Every registered block is stored and has no parent item. *)
Definition registered_unparented (s : GraphEditor) : Prop :=
  Forall (fun r => exists b, block_objs s !! r = Some b /\ b_parent b = None)
         (Dict.values (blocks s)).

(** The registered block [r] of [s] is a top-level item, and no drag of a
    cluster changes what is written for it. *)
Definition free_of_clusters (s : GraphEditor) (r : bref) : Prop :=
  exists b, block_objs s !! r = Some b /\ b_parent b = None /\
            save_block s r = Some (block_data b) /\
            forall c p, save_block (cluster_setPos c p s) r = Some (block_data b).

(** ** Deleting clusters *)

(** The block objects without their parent links. *)
Definition bare_blocks (s : GraphEditor) : list GraphBlock :=
  map (set_b_parent None) (block_objs s).

(** ** Cluster rects *)

(** A rect of positive width and height. *)
Definition positive (r : QRectF) : Prop := (0 < rw r)%Q /\ (0 < rh r)%Q.

(** [inner] lies within [outer], at least [m] away from each of its
    edges. *)
Definition encloses (m : Q) (outer inner : QRectF) : Prop :=
  (rx outer + m <= rx inner)%Q /\ (ry outer + m <= ry inner)%Q /\
  (rx inner + rw inner + m <= rx outer + rw outer)%Q /\
  (ry inner + rh inner + m <= ry outer + rh outer)%Q.

(** The block's rect has no negative extent. *)
Definition sized (b : GraphBlock) : Prop :=
  (0 <= rw (b_rect b))%Q /\ (0 <= rh (b_rect b))%Q.

(** A whole number of magnitude at most 2^40. *)
Definition whole (q : Q) : Prop :=
  exists n : Z, Z.abs n <= 2 ^ 40 /\ (q == inject_Z n)%Q.

(** The block is a top-level item with whole-number coordinates and a
    whole-number size that is not negative.  What Qt computes from such
    values with the half unit of the pen and the margin of 10 (sums,
    differences, minima and maxima) are multiples of 1/2 far below 2^52,
    which doubles hold exactly. *)
Definition on_grid (b : GraphBlock) : Prop :=
  b_parent b = None /\ sized b /\
  whole (px (b_pos b)) /\ whole (py (b_pos b)) /\
  whole (rw (b_rect b)) /\ whole (rh (b_rect b)).

(** After [groupSelectedBlocks] on the selection [sel], the new cluster is
    at the origin, the block [r] is its child, and the rect of the cluster
    is around the scene bounding rect the block then has, with a margin of
    10. *)
Definition grouped_within (s : GraphEditor) (sel : list Item) (r : bref) : Prop :=
  let c := length (cluster_objs s) in
  let s' := groupSelectedBlocks sel s in
  exists cl b',
    cluster_objs s' !! c = Some cl /\ c_pos cl = origin /\
    block_objs s' !! r = Some b' /\ b_parent b' = Some c /\
    encloses 10 (c_rect cl) (block_sceneBoundingRect s' b').

(** ** Loading a malformed document *)





(** The parsed document with the block entries [bs] and nothing else. *)
Definition blocks_only (bs : list JBlock) : JData := mkJData (Some bs) None None.

(** A block entry whose ["x"] is the integer [n]. *)
Definition block_at_int (n : Z) : JBlock :=
  mkJBlock (Some 1) (Some "A") (Some "") (Some (JInt n)) (Some (JInt 0))
           (Some (JInt 150)) (Some (JInt 80)) (Some "#ffffff") (Some false).

(** ** Attaching *)

(** Position and rect of every cluster object. *)
Definition cluster_frames (s : GraphEditor) : list (QPointF * QRectF) :=
  map (fun cl => (c_pos cl, c_rect cl)) (cluster_objs s).

(** ** The edit panel *)

(** Actions that neither release the edit lock nor clear the selection:
    all but unticking the lock, hiding the dock, "new file" and a load that
    gets as far as clearing the model. *)
Definition keeps_edit_lock (a : Action) : bool :=
  match a with
  | ALockToggled false | ADockVisibility false | ANewFile
  | AOpenFile (Parsed _) => false
  | _ => true
  end.

(** The panel of [s'] shows what the panel of [s] shows, and is locked. *)
Definition panel_pinned (s s' : GraphEditor) : Prop :=
  editLocked s' = true /\ currentBlock s' = currentBlock s /\
  currentCluster s' = currentCluster s.

(** Actions of the edit panel on the current object. *)
Definition edits_current (a : Action) : bool :=
  match a with
  | AFixCurrent | AUnfixCurrent | AChangeColor _ | ASaveEdit _ _ _ _ => true
  | _ => false
  end.

(** [s'] differs from [s] at most in the current block and the current
    cluster of [s]; no block has moved or changed its parent, no cluster has
    moved or changed its members. *)
Definition only_current_changed (s s' : GraphEditor) : Prop :=
  blocks s' = blocks s /\ clusters s' = clusters s /\
  connections s' = connections s /\ conn_objs s' = conn_objs s /\
  map b_pos (block_objs s') = map b_pos (block_objs s) /\
  map b_parent (block_objs s') = map b_parent (block_objs s) /\
  map c_pos (cluster_objs s') = map c_pos (cluster_objs s) /\
  map c_blocks (cluster_objs s') = map c_blocks (cluster_objs s) /\
  (forall r, currentBlock s <> Some r -> block_objs s' !! r = block_objs s !! r) /\
  (forall c, currentCluster s <> Some c ->
             cluster_objs s' !! c = cluster_objs s !! c).

(** ** What a load leaves, whatever was open *)

(** [r] in [t] and [r0] in [t0] name equal block objects, without parent. *)
Definition same_block (t t0 : GraphEditor) (r r0 : bref) : Prop :=
  exists b, block_objs t !! r = Some b /\ block_objs t0 !! r0 = Some b /\
            b_parent b = None.

Definition same_anchor (t t0 : GraphEditor) (a a0 : AnchorHandle) : Prop :=
  same_block t t0 a.1 a0.1 /\ a.2 = a0.2.

(** [c] in [t] and [c0] in [t0] name clusters with equal attributes and
    equal member blocks. *)
Definition same_cluster (t t0 : GraphEditor) (c c0 : cref) : Prop :=
  exists cl cl0,
    cluster_objs t !! c = Some cl /\ cluster_objs t0 !! c0 = Some cl0 /\
    c_title cl = c_title cl0 /\ c_color cl = c_color cl0 /\
    c_pos cl = c_pos cl0 /\ c_rect cl = c_rect cl0 /\
    c_locked cl = c_locked cl0 /\
    Forall2 (same_block t t0) (c_blocks cl) (c_blocks cl0).

(** [n] in [t] and [n0] in [t0] name connections between equal anchors,
    drawn as the same line. *)
Definition same_conn (t t0 : GraphEditor) (n n0 : nref) : Prop :=
  exists cn cn0,
    conn_objs t !! n = Some cn /\ conn_objs t0 !! n0 = Some cn0 /\
    same_anchor t t0 (start_anchor cn) (start_anchor cn0) /\
    option_Forall2 (same_anchor t t0) (end_anchor cn) (end_anchor cn0) /\
    line_item cn = line_item cn0.

(** Two entries of two registries: the same key for equal objects. *)
Definition same_entry {V} (P : V -> V -> Prop) (kv kv0 : Z * V) : Prop :=
  kv.1 = kv0.1 /\ P kv.2 kv0.2.

(** The two editors hold the same model, up to the names of the objects:
    registries, connection list and counters agree. *)
Definition same_content (t t0 : GraphEditor) : Prop :=
  Forall2 (same_entry (same_block t t0)) (blocks t) (blocks t0) /\
  Forall2 (same_entry (same_cluster t t0)) (clusters t) (clusters t0) /\
  Forall2 (same_conn t t0) (connections t) (connections t0) /\
  block_id_counter t = block_id_counter t0 /\
  cluster_id_counter t = cluster_id_counter t0.

(** The stores of [t'] are those of [t] with objects added. *)
Definition extends (t t' : GraphEditor) : Prop :=
  (exists x, block_objs t' = block_objs t ++ x) /\
  (exists y, cluster_objs t' = cluster_objs t ++ y) /\
  (exists z, conn_objs t' = conn_objs t ++ z).

(** Two runs of a statement that may raise end alike: both return, in
    editors with the same content, or both raise the same exception. *)
Definition same_outcome (r r0 : result GraphEditor) : Prop :=
  match r, r0 with
  | Ok t', Ok t0' => same_content t' t0'
  | Raise e, Raise e0 => e = e0
  | _, _ => False
  end.

(** ** The cluster registry *)

(** Every id in the cluster registry is below the cluster counter. *)
Definition clusters_below_counter (s : GraphEditor) : Prop :=
  Forall (fun k => k < cluster_id_counter s) (Dict.keys (clusters s)).

Definition cluster_count (s : GraphEditor) : nat := length (cluster_objs s).

(** Every registered cluster is a stored object. *)
Definition clusters_stored (s : GraphEditor) : Prop :=
  Forall (fun c => (c < cluster_count s)%nat) (Dict.values (clusters s)).

(** The entry [saveFile] writes for the cluster that [groupSelectedBlocks]
    makes of the selection [sel] in [s]. *)
Definition grouped_entry (s : GraphEditor) (sel : list Item) : ClusterData :=
  mkClusterData (cluster_id_counter s)
    ("Кластер " +:+ pretty (cluster_id_counter s)) "#ffeeaa"
    (map block_id (deref_blocks s (selected_blocks sel))) false.

(** Grouping [sel] in [s] adds a cluster: under a new id, last in the
    registry and last in the written document, whose other clusters stay
    as they are. *)
Definition cluster_added (s : GraphEditor) (sel : list Item) : Prop :=
  let s' := groupSelectedBlocks sel s in
  Dict.get (cluster_id_counter s) (clusters s) = None /\
  clusters s' = clusters s ++ [(cluster_id_counter s, length (cluster_objs s))] /\
  doc_clusters (save_data s') = doc_clusters (save_data s) ++ [grouped_entry s sel].

(** ** What a file round trip keeps *)








(** * Properties *)

Arguments anchors_get : simpl never.
Arguments create_line_item : simpl never.
Arguments update_line_item : simpl never.
Arguments new_GraphBlock : simpl never.
Arguments new_GraphCluster : simpl never.
Arguments scenePos : simpl never.

(** ** Arithmetic of points *)

Lemma pt_eq_refl p : pt_eq p p.
Proof. split; reflexivity. Qed.

Lemma pt_eq_sym p q : pt_eq p q -> pt_eq q p.
Proof. intros [H1 H2]; split; symmetry; assumption. Qed.


Lemma padd_origin_l p : pt_eq (padd origin p) p.
Proof. split; simpl; ring. Qed.

(** ** Loops and sequencing preserve what every turn preserves *)

Lemma fold_left_inv {A S} (Q : S -> Prop) (f : S -> A -> S) (l : list A) (s : S) :
  (forall s a, Q s -> Q (f s a)) -> Q s -> Q (fold_left f l s).
Proof.
  intros Hf. revert s. induction l as [|a l IH]; intros s Hs; simpl; auto.
Qed.

Lemma for_each_inv {A} (Q : GraphEditor -> Prop)
  (body : A -> GraphEditor -> result GraphEditor) (l : list A) (s : GraphEditor) :
  (forall a s s', Q s -> body a s = Ok s' -> Q s') ->
  Q s -> Q (for_each body l s).1.
Proof.
  intros Hb. revert s. induction l as [|a l IH]; intros s Hs; simpl; auto.
  destruct (body a s) as [s'|e] eqn:E; simpl; eauto.
Qed.

Lemma and_then_inv (Q : GraphEditor -> Prop) r k :
  Q r.1 -> (forall s, Q s -> Q (k s).1) -> Q (and_then r k).1.
Proof.
  intros Hr Hk. unfold and_then. destruct r as [s [e|]]; simpl in *; auto.
Qed.

Lemma updConn_blocks n f s : block_objs (upd_conn n f s) = block_objs s.
Proof. reflexivity. Qed.

(** [newFile] keeps the stores: the objects stay, but for the line item of
    the pending connection. *)
Lemma newFile_block_objs s : block_objs (newFile s) = block_objs s.
Proof. unfold newFile, scene_clear. destruct (current_connection s); reflexivity. Qed.


Lemma newFile_conn_length s : length (conn_objs (newFile s)) = length (conn_objs s).
Proof.
  unfold newFile, scene_clear. destruct (current_connection s); [|reflexivity].
  cbn. apply length_alter.
Qed.

Lemma updateConnectionsForBlock_block_objs r s :
  block_objs (updateConnectionsForBlock r s) = block_objs s.
Proof.
  unfold updateConnectionsForBlock.
  set (s1 := fold_left _ _ _).
  assert (H1 : block_objs s1 = block_objs s).
  { subst s1. apply (fold_left_inv (fun s' => block_objs s' = block_objs s)); auto.
    intros s' n Hs'. destruct (conn_objs s' !! n) as [c|]; auto.
    destruct (touches r c); auto. }
  destruct (current_connection s1) as [n|]; auto.
  destruct (conn_objs s1 !! n) as [c|]; auto.
  destruct (bool_decide _); auto.
Qed.


Lemma updateAnchors_ok b :
  rx (b_rect b) = 0%Q -> ry (b_rect b) = 0%Q -> block_ok (updateAnchors b).
Proof. intros Hx Hy. repeat split; assumption. Qed.









(** Case analysis along [load_block]: the six keys in the order they are
    read, and the two conversions after each pair of numbers; [tac] closes
    the cases that raise. *)
Ltac load_block_cases bd tac :=
  unfold load_block;
  destruct (jb_width bd) as [?w|]; [|tac];
  destruct (jb_height bd) as [?h|]; [|tac];
  cbn [getitem mbind result_bind];
  match goal with
  | |- context [qreal ?v] => destruct (qreal v) as [?w|]; [|tac]
  end;
  cbn [mbind result_bind];
  match goal with
  | |- context [qreal ?v] => destruct (qreal v) as [?h|]; [|tac]
  end;
  cbn [mbind result_bind];
  destruct (jb_title bd) as [?t|]; [|tac];
  destruct (jb_id bd) as [?i|]; [|tac];
  destruct (jb_x bd) as [?x|]; [|tac];
  destruct (jb_y bd) as [?y|]; [|tac];
  cbn [getitem mbind result_bind];
  match goal with
  | |- context [qreal ?v] => destruct (qreal v) as [?x|]; [|tac]
  end;
  cbn [mbind result_bind];
  match goal with
  | |- context [qreal ?v] => destruct (qreal v) as [?y|]; [|tac]
  end;
  cbn [mbind result_bind].






Lemma run_snoc actions a : run (actions ++ [a]) = step a (run actions).
Proof. unfold run. rewrite fold_left_app. reflexivity. Qed.






(** ** The edit panel and clusters *)

Lemma saveEdit_cluster_objs_rect title content width height s :
  currentBlock s = None ->
  map c_rect (cluster_objs (saveEdit title content width height s))
  = map c_rect (cluster_objs s).
Proof.
  intros Hb. unfold saveEdit. rewrite Hb.
  destruct (currentCluster s) as [c|]; [|reflexivity].
  destruct (cluster_objs s !! c) as [cl|] eqn:E; [|reflexivity].
  cbn. apply list_eq. intros i. rewrite !list_lookup_fmap.
  destruct (decide (i = c)) as [->|Hne].
  - rewrite list_lookup_alter_eq, E. reflexivity.
  - rewrite list_lookup_alter_ne by congruence. reflexivity.
Qed.

(** C9 (the code departs from the specification). Two blocks are grouped,
    the cluster is selected and 300 by 200 is entered in the edit panel:
    [saveEdit] leaves the cluster's rect as it was, 471 wide and 101 high,
    where the specification has it become 300 by 200.  The member blocks
    keep their local coordinates. *)
Theorem saveEdit_cluster_rect_not_applied :
  let s := run session_cluster_selected in
  let s' := saveEdit "Big" "" (Some 300%Q) (Some 200%Q) s in
  currentBlock s = None /\ currentCluster s = Some 0%nat /\
  (c_title <$> cluster_objs s' !! 0%nat) = Some "Big" /\
  (c_rect <$> cluster_objs s' !! 0%nat) = (c_rect <$> cluster_objs s !! 0%nat) /\
  (exists cl, cluster_objs s' !! 0%nat = Some cl /\
              (rw (c_rect cl) == 471)%Q /\ (rh (c_rect cl) == 101)%Q /\
              ~ (rw (c_rect cl) == 300)%Q /\ ~ (rh (c_rect cl) == 200)%Q) /\
  map b_pos (block_objs s') = map b_pos (block_objs s).
Proof.
  cbv zeta. do 4 (split; [vm_compute; reflexivity|]).
  split; [|vm_compute; reflexivity].
  eexists. split; [vm_compute; reflexivity|].
  repeat split; try (vm_compute; reflexivity); vm_compute; discriminate.
Qed.

(** ** Identities *)

(** C6 (the code departs from the specification). A document whose cluster
    has id 1 is loaded into a fresh editor: the block counter is moved past
    the loaded block ids, the cluster counter stays at 1.  Grouping the two
    loaded blocks then creates a cluster under id 1 again, which replaces
    the loaded cluster in the registry; the saved document holds the new
    cluster only.  The specification has the cluster counter move past
    every loaded id, as the block counter does. *)
Theorem loaded_cluster_id_collides :
  let loaded := openFile (Parsed (to_json doc_with_cluster)) init in
  let s := loaded.1 in
  let s' := groupSelectedBlocks [IBlock 0%nat; IBlock 1%nat] s in
  loaded.2 = None /\
  blocks s = [(1, 0%nat); (2, 1%nat)] /\ block_id_counter s = 3 /\
  clusters s = [(1, 0%nat)] /\ cluster_id_counter s = 1 /\
  (c_title <$> cluster_objs s !! 0%nat) = Some "Loaded" /\
  clusters s' = [(1, 1%nat)] /\
  (c_title <$> cluster_objs s' !! 1%nat) = Some "Кластер 1" /\
  map cd_title (doc_clusters (save_data s')) = ["Кластер 1"].
Proof. cbv zeta. repeat split; vm_compute; reflexivity. Qed.

(** ** Loading connections *)

Lemma load_connection_unknown_start_anchor s start_id end_id name end_name sb eb :
  Dict.get start_id (blocks s) = Some sb ->
  Dict.get end_id (blocks s) = Some eb ->
  anchors_get sb name = None ->
  load_connection (conn_json (mkConnData start_id name end_id end_name)) s
  = Raise AttributeError.
Proof.
  intros Hs He Ha. unfold load_connection. cbn. rewrite Hs, He, Ha. reflexivity.
Qed.


(** C2 (the code departs from the specification). A document with blocks 1
    and 2 and one connection from anchor "middle" of block 1 to anchor
    "left" of block 2: both block ids resolve, [anchors.get] gives [None]
    for the start anchor and [create_line_item] raises [AttributeError] on
    it, after the blocks have been loaded.  The specification has the
    connection dropped without an error.  (With the unknown name at the end
    anchor nothing is raised and the connection is kept without an end, so
    it is not saved; with an unknown block id the entry is skipped.) *)
Theorem openFile_unknown_start_anchor_raises :
  let loaded := openFile (Parsed (to_json doc_bad_start_anchor)) init in
  loaded.2 = Some AttributeError /\
  blocks loaded.1 = [(1, 0%nat); (2, 1%nat)] /\
  connections loaded.1 = [] /\
  (let loaded' := openFile (Parsed (to_json doc_bad_end_anchor)) init in
   loaded'.2 = None /\ connections loaded'.1 = [0%nat] /\
   (end_anchor <$> conn_objs loaded'.1 !! 0%nat) = Some None /\
   doc_connections (save_data loaded'.1) = []) /\
  (let loaded' := openFile (Parsed (to_json doc_bad_block_id)) init in
   loaded'.2 = None /\ connections loaded'.1 = []).
Proof. cbv zeta. repeat split; vm_compute; reflexivity. Qed.

(** ** Dictionaries *)

Lemma dict_values_set {V} (P : V -> Prop) k v (d : dict V) :
  Forall P (Dict.values d) -> P v -> Forall P (Dict.values (Dict.set k v d)).
Proof.
  intros Hd Hv. induction d as [|[k' v'] d IH]; simpl.
  - repeat constructor. exact Hv.
  - inversion Hd; subst. destruct (decide (k = k')); constructor; auto.
Qed.

(** ** What a load leaves behind *)





(** *** The model after a load is what was built before the load ended *)









(** ** Reparenting *)

Lemma fold_setParentItem p l s :
  let s' := fold_left (fun acc blk => setParentItem p blk acc) l s in
  block_objs s' = fold_left (fun h blk => alter (set_b_parent p) blk h) l (block_objs s) /\
  cluster_objs s' = cluster_objs s /\ conn_objs s' = conn_objs s /\
  blocks s' = blocks s /\ clusters s' = clusters s /\
  connections s' = connections s /\ currentCluster s' = currentCluster s /\
  currentBlock s' = currentBlock s /\
  block_id_counter s' = block_id_counter s /\
  cluster_id_counter s' = cluster_id_counter s.
Proof.
  revert s. induction l as [|a l IH]; intros s; simpl.
  - repeat split.
  - specialize (IH (setParentItem p a s)). simpl in IH. exact IH.
Qed.

Lemma lookup_fold_alter {A} (f : A -> A) (l : list nat) (h : list A) (r : nat) :
  (forall a, f (f a) = f a) ->
  fold_left (fun h blk => alter f blk h) l h !! r
  = if bool_decide (r ∈ l) then f <$> h !! r else h !! r.
Proof.
  intros Hf. revert h. induction l as [|a l IH]; intros h; simpl.
  - reflexivity.
  - rewrite IH. destruct (decide (a = r)) as [->|Hne].
    + rewrite list_lookup_alter_eq.
      rewrite (bool_decide_eq_true_2 (r ∈ r :: l)) by left.
      destruct (bool_decide (r ∈ l)); [|reflexivity].
      destruct (h !! r); simpl; congruence.
    + rewrite list_lookup_alter_ne by exact Hne.
      destruct (decide (r ∈ l)) as [Hin|Hnin].
      * rewrite !bool_decide_eq_true_2; [reflexivity|right; exact Hin|exact Hin].
      * rewrite !bool_decide_eq_false_2; [reflexivity| |exact Hnin].
        intros Hc. apply elem_of_cons in Hc as [->|Hc]; congruence.
Qed.

Lemma scenePos_unparented s b : b_parent b = None -> scenePos s b = b_pos b.
Proof. unfold scenePos. intros ->. reflexivity. Qed.

Lemma scenePos_parented s b c cl :
  b_parent b = Some c -> cluster_objs s !! c = Some cl ->
  scenePos s b = padd (c_pos cl) (b_pos b).
Proof. unfold scenePos. intros -> ->. reflexivity. Qed.

(** C5, as amended. Detaching the blocks of the current cluster gives every
    member the scene as parent and keeps the member's position value, so the
    member's scene position after the detach is its former position in the
    cluster: for a member parented to the cluster, the scene position before
    the detach is the cluster's position plus the scene position after it
    (the two agree when the cluster is at the scene origin).  The membership
    list is emptied and the cluster's rect becomes the null rect. *)
Theorem detachClusterBlocks_members (s : GraphEditor) (c : cref) (cl : GraphCluster) :
  currentCluster s = Some c ->
  cluster_objs s !! c = Some cl ->
  (forall r b, r ∈ c_blocks cl -> block_objs s !! r = Some b ->
               detached_member s c cl r b) /\
  detached_cluster s c cl.
Proof.
  intros Hc Hcl. unfold detached_member, detached_cluster, detachClusterBlocks.
  rewrite Hc, Hcl.
  destruct (fold_setParentItem None (c_blocks cl) s) as (Hb & Hcs & _).
  set (s1 := fold_left _ _ s) in *.
  split.
  - intros r b Hr Hlk. exists (set_b_parent None b).
    split.
    { cbn. rewrite Hb, lookup_fold_alter by reflexivity.
      rewrite bool_decide_eq_true_2 by exact Hr. rewrite Hlk. reflexivity. }
    split; [reflexivity|]. split; [reflexivity|].
    split; [rewrite scenePos_unparented by reflexivity; reflexivity|].
    split.
    + intros Hp. rewrite (scenePos_parented s b c cl Hp Hcl).
      rewrite scenePos_unparented by reflexivity. reflexivity.
    + intros Hp [Hx Hy]. rewrite (scenePos_parented s b c cl Hp Hcl).
      rewrite scenePos_unparented by reflexivity.
      split; simpl; [rewrite Hx|rewrite Hy]; simpl; ring.
  - exists (set_c_rect null_rect (set_c_blocks [] cl)).
    split; [|repeat split].
    cbn. rewrite Hcs, !list_lookup_alter_eq, Hcl. reflexivity.
Qed.

Lemma detachClusterBlocks_members_witness :
  exists cl b,
    currentCluster (run session_cluster_moved) = Some 0%nat /\
    cluster_objs (run session_cluster_moved) !! 0%nat = Some cl /\
    c_blocks cl = [0%nat; 1%nat] /\
    block_objs (run session_cluster_moved) !! 0%nat = Some b /\
    detached_member (run session_cluster_moved) 0%nat cl 0%nat b /\
    detached_cluster (run session_cluster_moved) 0%nat cl.
Proof.
  eexists _, _.
  split; [vm_compute; reflexivity|]. split; [vm_compute; reflexivity|].
  split; [reflexivity|]. split; [vm_compute; reflexivity|].
  split.
  - refine (proj1 (detachClusterBlocks_members _ 0%nat _ _ _) 0%nat _ _ _).
    + vm_compute; reflexivity.
    + vm_compute; reflexivity.
    + left.
    + vm_compute; reflexivity.
  - refine (proj2 (detachClusterBlocks_members _ 0%nat _ _ _)).
    + vm_compute; reflexivity.
    + vm_compute; reflexivity.
Defined.

(** C5, counterexample. Blocks at (100, 100) and (400, 100) are grouped and
    the cluster is dragged by (50, 0): the first block is at (150, 100) in
    the scene.  After [detachClusterBlocks] it is at (100, 100). *)
Lemma detach_moves_members_back :
  let s := run session_cluster_moved in
  let s' := detachClusterBlocks s in
  (c_blocks <$> cluster_objs s !! 0%nat) = Some [0%nat; 1%nat] /\
  scenePos_of s 0%nat = Some (mkPoint 150 100) /\
  scenePos_of s' 0%nat = Some (mkPoint 100 100) /\
  ~ pt_eq (mkPoint 100 100) (mkPoint 150 100).
Proof.
  cbv zeta. do 3 (split; [vm_compute; reflexivity|]).
  intros [H _]. vm_compute in H. discriminate.
Qed.

Lemma attach_block_frame c rect r s :
  let s' := attach_block c rect r s in
  map c_pos (cluster_objs s') = map c_pos (cluster_objs s) /\
  (forall r', r' <> r -> block_objs s' !! r' = block_objs s !! r') /\
  block_objs s' !! r =
    (fun b => if bool_decide (b_parent b = None) && contains rect (b_pos b)
              then set_b_parent (Some c) b else b) <$> block_objs s !! r.
Proof.
  unfold attach_block. destruct (block_objs s !! r) as [b|] eqn:E.
  2:{ rewrite E. repeat split. }
  destruct (b_parent b) as [p|] eqn:Ep.
  { rewrite E. cbn. rewrite bool_decide_eq_false_2 by congruence.
    repeat split. }
  rewrite (scenePos_unparented s b Ep).
  destruct (contains rect (b_pos b)) eqn:Ec.
  - cbn. split; [|split].
    + apply list_eq. intros i. rewrite !list_lookup_fmap.
      destruct (decide (i = c)) as [->|Hne].
      * rewrite list_lookup_alter_eq. destruct (cluster_objs s !! c) as [cl|]; [|reflexivity].
        cbn. destruct (bool_decide _); reflexivity.
      * rewrite list_lookup_alter_ne by congruence. reflexivity.
    + intros r' Hne. rewrite list_lookup_alter_ne by congruence. reflexivity.
    + rewrite list_lookup_alter_eq, E. cbn.
      rewrite bool_decide_eq_true_2 by exact Ep. rewrite Ec. reflexivity.
  - rewrite E. cbn. rewrite Ec, andb_false_r. repeat split.
Qed.

Lemma attach_fold_frame c rect l s r b :
  block_objs s !! r = Some b ->
  let s' := fold_left (fun acc r' => attach_block c rect r' acc) l s in
  map c_pos (cluster_objs s') = map c_pos (cluster_objs s) /\
  block_objs s' !! r =
    Some (if bool_decide (r ∈ l) && bool_decide (b_parent b = None)
             && contains rect (b_pos b)
          then set_b_parent (Some c) b else b).
Proof.
  revert s b. induction l as [|a l IH]; intros s b Hb; simpl.
  - split; [reflexivity|exact Hb].
  - destruct (attach_block_frame c rect a s) as (Hc & Hne & Heq).
    destruct (decide (a = r)) as [->|Hn].
    + rewrite Hb in Heq. cbn in Heq.
      destruct (IH _ _ Heq) as [IHc IHb]. split; [congruence|].
      rewrite IHb. rewrite (bool_decide_eq_true_2 (r ∈ r :: l)) by left.
      cbn [andb].
      destruct (bool_decide (b_parent b = None) && contains rect (b_pos b)) eqn:Ea.
      * cbn. rewrite andb_false_r. reflexivity.
      * rewrite <- andb_assoc, Ea, andb_false_r. reflexivity.
    + rewrite <- (Hne r) in Hb by congruence.
      destruct (IH _ _ Hb) as [IHc IHb]. split; [congruence|].
      rewrite IHb. f_equal.
      destruct (decide (r ∈ l)) as [Hin|Hnin].
      * rewrite (bool_decide_eq_true_2 (r ∈ l)) by exact Hin.
        rewrite (bool_decide_eq_true_2 (r ∈ a :: l)) by (right; exact Hin).
        reflexivity.
      * rewrite (bool_decide_eq_false_2 (r ∈ l)) by exact Hnin.
        rewrite (bool_decide_eq_false_2 (r ∈ a :: l)); [reflexivity|].
        intros Hc'. apply elem_of_cons in Hc' as [->|Hc']; congruence.
Qed.

(** C4, as amended. Reparenting a block into a cluster keeps the block's
    position value and reads it in the cluster's coordinates from then on.
    Grouping creates the cluster at the scene origin, so the scene position
    of a selected block becomes its previous position value, which is its
    previous scene position when the block had no parent.  Attaching takes
    an unparented block inside the cluster's scene bounding rect to its
    previous scene position plus the cluster's position. *)
Theorem reparenting_scene_position :
  (forall (s : GraphEditor) (sel : list Item) (r : bref) (b : GraphBlock),
     (2 <= length (selected_blocks sel))%nat ->
     r ∈ selected_blocks sel ->
     block_objs s !! r = Some b ->
     grouped_block s sel r b) /\
  (forall (s : GraphEditor) (c : cref) (cl : GraphCluster) (r : bref)
          (b : GraphBlock),
     currentCluster s = Some c ->
     cluster_objs s !! c = Some cl ->
     r ∈ Dict.values (blocks s) ->
     block_objs s !! r = Some b ->
     b_parent b = None ->
     contains (cluster_sceneBoundingRect cl) (scenePos s b) = true ->
     attached_block s c cl r b).
Proof.
  unfold grouped_block, attached_block.
  split.
  - intros s sel r b Hlen Hr Hb. cbv zeta.
    unfold groupSelectedBlocks.
    destruct (length (selected_blocks sel) <? 2)%nat eqn:E.
    { apply Nat.ltb_lt in E. lia. }
    cbv zeta. set (c := length (cluster_objs s)).
    match goal with |- context [fold_left ?f ?l ?s0] =>
      set (s1 := s0); set (s2 := fold_left f l s1);
      destruct (fold_setParentItem (Some c) l s1) as (Hbo & Hco & _) end.
    fold s2 in Hbo, Hco.
    change (block_objs s1) with (block_objs s) in Hbo.
    change (cluster_objs s1) with
      (cluster_objs s ++ [new_GraphCluster s (selected_blocks sel)
                            ("Кластер " +:+ pretty (cluster_id_counter s))]) in Hco.
    assert (Hcl : cluster_objs s2 !! c
                  = Some (new_GraphCluster s (selected_blocks sel)
                            ("Кластер " +:+ pretty (cluster_id_counter s)))).
    { rewrite Hco. apply list_lookup_middle. reflexivity. }
    eexists (set_b_parent (Some c) b), _.
    split.
    { rewrite Hbo, lookup_fold_alter by reflexivity.
      rewrite bool_decide_eq_true_2 by exact Hr. rewrite Hb. reflexivity. }
    split; [exact Hcl|].
    split; [reflexivity|]. split; [reflexivity|].
    split; [reflexivity|]. split; [reflexivity|].
    assert (Hsp : pt_eq (scenePos s2 (set_b_parent (Some c) b)) (b_pos b)).
    { rewrite (scenePos_parented s2 (set_b_parent (Some c) b) c _ eq_refl Hcl).
      apply padd_origin_l. }
    split; [exact Hsp|].
    intros Hp. rewrite (scenePos_unparented s b Hp). exact Hsp.
  - intros s c cl r b Hc Hcl Hr Hb Hp Hin. cbv zeta.
    unfold attachClusterBlocks. rewrite Hc, Hcl.
    destruct (attach_fold_frame c (cluster_sceneBoundingRect cl)
                (Dict.values (blocks s)) s r b Hb) as [Hcp Hlk].
    rewrite (scenePos_unparented s b Hp) in Hin.
    rewrite bool_decide_eq_true_2 in Hlk by exact Hr.
    rewrite bool_decide_eq_true_2 in Hlk by exact Hp.
    rewrite Hin in Hlk. cbn in Hlk.
    exists (set_b_parent (Some c) b).
    split; [exact Hlk|]. split; [reflexivity|]. split; [reflexivity|].
    set (s2 := fold_left _ _ s) in *.
    assert (Hcl' : exists cl', cluster_objs s2 !! c = Some cl' /\ c_pos cl' = c_pos cl).
    { assert (H := f_equal (fun l => l !! c) Hcp). cbn in H.
      rewrite !list_lookup_fmap, Hcl in H. cbn in H.
      destruct (cluster_objs s2 !! c) as [cl'|] eqn:E2; [|discriminate].
      exists cl'. split; [reflexivity|]. cbn in H. congruence. }
    destruct Hcl' as (cl' & Hcl' & Hpos).
    rewrite (scenePos_parented _ (set_b_parent (Some c) b) c cl' eq_refl Hcl').
    rewrite (scenePos_unparented s b Hp), Hpos. reflexivity.
Qed.

Lemma reparenting_scene_position_witness :
  (exists b,
     block_objs (run [AAddBlock 100 100; AAddBlock 400 100]) !! 0%nat = Some b /\
     b_parent b = None /\
     grouped_block (run [AAddBlock 100 100; AAddBlock 400 100])
                   [IBlock 0%nat; IBlock 1%nat] 0%nat b) /\
  (exists cl b,
     cluster_objs (run session_block_over_moved_cluster) !! 0%nat = Some cl /\
     c_pos cl = mkPoint 50 0 /\
     block_objs (run session_block_over_moved_cluster) !! 2%nat = Some b /\
     attached_block (run session_block_over_moved_cluster) 0%nat cl 2%nat b).
Proof.
  split.
  - eexists. split; [vm_compute; reflexivity|]. split; [reflexivity|].
    refine (proj1 reparenting_scene_position _ _ _ _ _ _ _).
    + vm_compute. lia.
    + vm_compute. left.
    + vm_compute; reflexivity.
  - eexists _, _. split; [vm_compute; reflexivity|]. split; [reflexivity|].
    split; [vm_compute; reflexivity|].
    refine (proj2 reparenting_scene_position _ _ _ _ _ _ _ _ _ _ _).
    + vm_compute; reflexivity.
    + vm_compute; reflexivity.
    + vm_compute. right. right. left.
    + vm_compute; reflexivity.
    + reflexivity.
    + vm_compute; reflexivity.
Defined.

(** C4, counterexample. Two blocks are grouped and the cluster is dragged
    by (50, 0); a third block is added at (200, 120), inside the cluster's
    rect, with no parent.  [attachClusterBlocks] makes the cluster its
    parent, and its scene position goes from (200, 120) to (250, 120). *)
Lemma attach_shifts_block :
  let s := run session_block_over_moved_cluster in
  let s' := attachClusterBlocks s in
  currentCluster s = Some 0%nat /\
  (b_parent <$> block_objs s !! 2%nat) = Some None /\
  (b_parent <$> block_objs s' !! 2%nat) = Some (Some 0%nat) /\
  scenePos_of s 2%nat = Some (mkPoint 200 120) /\
  scenePos_of s' 2%nat = Some (mkPoint 250 120) /\
  ~ pt_eq (mkPoint 250 120) (mkPoint 200 120).
Proof.
  cbv zeta. do 5 (split; [vm_compute; reflexivity|]).
  intros [H _]. vm_compute in H. discriminate.
Qed.

(** ** Lists and dictionaries under deletion *)

Lemma list_remove_app_fresh x pre l :
  x ∉ pre -> list_remove x (pre ++ x :: l) = pre ++ l.
Proof.
  induction pre as [|y pre IH]; intros Hx; simpl.
  - destruct (decide (x = x)); congruence.
  - apply not_elem_of_cons in Hx as [Hxy Hx].
    destruct (decide (x = y)); [congruence|]. rewrite IH by exact Hx. reflexivity.
Qed.

Lemma remove_filtered (P : nat -> bool) (l pre : list nat) :
  (forall x, x ∈ pre -> P x = false) ->
  fold_left (fun l conn => if bool_decide (conn ∈ l) then list_remove conn l else l)
            (List.filter P l) (pre ++ l)
  = pre ++ List.filter (fun x => negb (P x)) l.
Proof.
  revert pre. induction l as [|x l IH]; intros pre Hpre; simpl.
  - reflexivity.
  - destruct (P x) eqn:Px; simpl.
    + rewrite bool_decide_eq_true_2 by (apply elem_of_app; right; left).
      rewrite list_remove_app_fresh.
      * apply IH, Hpre.
      * intros Hin. apply Hpre in Hin. congruence.
    + replace (pre ++ x :: l) with ((pre ++ [x]) ++ l) by (rewrite <- app_assoc; reflexivity).
      rewrite IH.
      * rewrite <- app_assoc. reflexivity.
      * intros y Hy. apply elem_of_app in Hy as [Hy|Hy]; [apply Hpre, Hy|].
        apply list_elem_of_singleton in Hy as ->. exact Px.
Qed.

Lemma filter_filter {A} (P Q : A -> bool) (l : list A) :
  List.filter P (List.filter Q l) = List.filter (fun x => Q x && P x) l.
Proof.
  induction l as [|x l IH]; simpl; [reflexivity|].
  destruct (Q x); simpl; [destruct (P x)|]; rewrite IH; reflexivity.
Qed.

Lemma filter_all {A} (P : A -> bool) (l : list A) :
  (forall x, x ∈ l -> P x = true) -> List.filter P l = l.
Proof.
  induction l as [|x l IH]; intros H; simpl; [reflexivity|].
  rewrite (H x) by left. rewrite IH; [reflexivity|].
  intros y Hy. apply H. right. exact Hy.
Qed.

Lemma dict_get_keys {V} k (d : dict V) :
  Dict.get k d = None <-> k ∉ Dict.keys d.
Proof.
  induction d as [|[k' v] d IH]; simpl.
  - split; [intros _; apply not_elem_of_nil|reflexivity].
  - destruct (decide (k = k')) as [->|Hne].
    + split; [discriminate|]. intros H. exfalso. apply H. left.
    + rewrite IH. rewrite not_elem_of_cons. tauto.
Qed.

Lemma dict_get_in {V} k (v : V) (d : dict V) : Dict.get k d = Some v -> (k, v) ∈ d.
Proof.
  induction d as [|[k' v'] d IH]; simpl; [discriminate|].
  destruct (decide (k = k')) as [->|Hne].
  - intros [= ->]. left.
  - intros H. right. apply IH, H.
Qed.

Lemma dict_del_filter {V} k (d : dict V) :
  NoDup (Dict.keys d) ->
  Dict.del k d = List.filter (fun kv => negb (bool_decide (kv.1 = k))) d.
Proof.
  induction d as [|[k' v] d IH]; intros Hnd; simpl; [reflexivity|].
  inversion Hnd as [|? ? Hk' Hnd']; subst.
  destruct (decide (k = k')) as [->|Hne].
  - rewrite bool_decide_eq_true_2 by reflexivity. simpl.
    symmetry. apply filter_all. intros [k2 v2] Hin. simpl.
    rewrite bool_decide_eq_false_2; [reflexivity|].
    intros ->. apply Hk'. apply list_elem_of_fmap. exists (k', v2). split; [reflexivity|exact Hin].
  - rewrite bool_decide_eq_false_2 by congruence. simpl. rewrite IH by exact Hnd'.
    reflexivity.
Qed.

Lemma dict_filter_keys_NoDup {V} (P : Z * V -> bool) (d : dict V) :
  NoDup (Dict.keys d) -> NoDup (Dict.keys (List.filter P d)).
Proof.
  induction d as [|[k v] d IH]; intros Hnd; simpl; [constructor|].
  inversion Hnd as [|? ? Hk Hnd']; subst.
  destruct (P (k, v)); simpl; [|apply IH, Hnd'].
  constructor; [|apply IH, Hnd'].
  intros Hin. apply Hk. apply list_elem_of_fmap in Hin as ([k2 v2] & -> & Hin).
  apply list_elem_of_In, filter_In in Hin as [Hin _].
  apply list_elem_of_fmap. exists (k2, v2). split; [reflexivity|].
  apply list_elem_of_In, Hin.
Qed.

Lemma dict_get_filter_ne {V} k k' (d : dict V) :
  k' <> k ->
  Dict.get k' (List.filter (fun kv => negb (bool_decide (kv.1 = k))) d) = Dict.get k' d.
Proof.
  intros Hne. induction d as [|[k2 v] d IH]; simpl; [reflexivity|].
  destruct (decide (k2 = k)) as [->|Hne2].
  - rewrite bool_decide_eq_true_2 by reflexivity. simpl.
    destruct (decide (k' = k)); [congruence|]. exact IH.
  - rewrite bool_decide_eq_false_2 by exact Hne2. simpl.
    destruct (decide (k' = k2)); [reflexivity|exact IH].
Qed.

Lemma dict_get_filter_eq {V} k (d : dict V) :
  Dict.get k (List.filter (fun kv => negb (bool_decide (kv.1 = k))) d) = None.
Proof.
  induction d as [|[k2 v] d IH]; simpl; [reflexivity|].
  destruct (decide (k2 = k)) as [->|Hne2].
  - rewrite bool_decide_eq_true_2 by reflexivity. simpl. exact IH.
  - rewrite bool_decide_eq_false_2 by exact Hne2. simpl.
    destruct (decide (k = k2)); [congruence|exact IH].
Qed.

(** ** Deleting blocks *)

Lemma conn_touches_ext s s' r n :
  conn_objs s' = conn_objs s -> conn_touches s' r n = conn_touches s r n.
Proof. unfold conn_touches. intros ->. reflexivity. Qed.

Lemma touches_any_ext s s' sel n :
  conn_objs s' = conn_objs s -> touches_any s' sel n = touches_any s sel n.
Proof.
  intros H. unfold touches_any. induction sel as [|r sel IH]; simpl; [reflexivity|].
  rewrite IH, (conn_touches_ext s s' r n H). reflexivity.
Qed.

Lemma remove_loop_connections rem s :
  let s' := fold_left
      (fun acc conn =>
         if bool_decide (conn ∈ connections acc)
         then set_connections (list_remove conn (connections acc)) acc
         else acc) rem s in
  connections s' =
    fold_left (fun l conn => if bool_decide (conn ∈ l) then list_remove conn l else l)
              rem (connections s) /\
  block_objs s' = block_objs s /\ cluster_objs s' = cluster_objs s /\
  conn_objs s' = conn_objs s /\ blocks s' = blocks s /\ clusters s' = clusters s.
Proof.
  revert s. induction rem as [|n rem IH]; intros s; simpl.
  - repeat split.
  - destruct (bool_decide (n ∈ connections s)) eqn:E.
    + specialize (IH (set_connections (list_remove n (connections s)) s)).
      simpl in IH. exact IH.
    + exact (IH s).
Qed.

Lemma set_b_parent_idem p b : set_b_parent p (set_b_parent p b) = set_b_parent p b.
Proof. reflexivity. Qed.

Lemma ids_alter_parent p r (h : list GraphBlock) :
  map block_id (alter (set_b_parent p) r h) = map block_id h.
Proof.
  rewrite (list_fmap_alter _ _ id); [apply list_alter_id; reflexivity|].
  apply Forall_forall. intros; reflexivity.
Qed.

Lemma deref_ids_same s s' (rs : list bref) :
  map block_id (block_objs s') = map block_id (block_objs s) ->
  map block_id (deref_blocks s' rs) = map block_id (deref_blocks s rs).
Proof.
  intros Hids.
  assert (Hl : forall t, map block_id (deref_blocks t rs)
                         = omap (fun r => map block_id (block_objs t) !! r) rs).
  { intros t. unfold deref_blocks. induction rs as [|r rs IH]; [reflexivity|].
    cbn [omap list_omap]. rewrite list_lookup_fmap.
    destruct (block_objs t !! r); cbn; [f_equal|]; exact IH. }
  rewrite !Hl, Hids. reflexivity.
Qed.

Lemma delete_block_registered s r b :
  NoDup (Dict.keys (blocks s)) ->
  block_objs s !! r = Some b ->
  Dict.get (block_id b) (blocks s) = Some r ->
  let s' := delete_item (IBlock r) s in
  connections s' = List.filter (fun n => negb (conn_touches s r n)) (connections s) /\
  blocks s' = List.filter (fun kv => negb (bool_decide (kv.1 = block_id b))) (blocks s) /\
  block_objs s' = alter (set_b_parent None) r (block_objs s) /\
  cluster_objs s' = cluster_objs s /\
  conn_objs s' = conn_objs s /\ clusters s' = clusters s.
Proof.
  intros Hnd Hb Hg. unfold delete_item. rewrite Hb. unfold Dict.mem. rewrite Hg.
  destruct (remove_loop_connections
              (List.filter (conn_touches s r) (connections s)) s)
    as (Hc & Hbo & Hco & Hno & Hbl & Hcl).
  set (s1 := fold_left _ _ s) in *. cbn.
  rewrite Hbl, Hc, Hbo, Hco, Hno, Hcl.
  split; [apply (remove_filtered (conn_touches s r) (connections s) []);
          intros x Hx; apply elem_of_nil in Hx; contradiction|].
  split; [apply dict_del_filter, Hnd|]. repeat split.
Qed.

Lemma delete_block_unregistered s r b :
  block_objs s !! r = Some b ->
  Dict.get (block_id b) (blocks s) = None ->
  delete_item (IBlock r) s = s.
Proof.
  intros Hb Hg. unfold delete_item. rewrite Hb. unfold Dict.mem. rewrite Hg.
  reflexivity.
Qed.

(** What a deletion of the blocks [sel] does to the block objects: a block
    that is not selected is untouched, and a block changes in nothing but
    its parent, which a selected block that is registered loses. *)
Lemma deleteSelected_blocks_gen (sel : list bref) : forall s,
  NoDup (Dict.keys (blocks s)) ->
  (forall r, r ∈ sel ->
     exists b, block_objs s !! r = Some b /\
       (Dict.get (block_id b) (blocks s) = Some r \/
        (Dict.get (block_id b) (blocks s) = None /\
         forall n, n ∈ connections s -> conn_touches s r n = false))) ->
  let s' := deleteSelected (IBlock <$> sel) s in
  connections s' = List.filter (fun n => negb (touches_any s sel n)) (connections s) /\
  blocks s' = List.filter
                (fun kv => negb (bool_decide (kv.1 ∈ map block_id (deref_blocks s sel))))
                (blocks s) /\
  ((forall r, r ∉ sel -> block_objs s' !! r = block_objs s !! r) /\
   (forall r, block_objs s' !! r = block_objs s !! r \/
              block_objs s' !! r = set_b_parent None <$> block_objs s !! r) /\
   (forall r, r ∈ sel -> registered s r ->
              block_objs s' !! r = set_b_parent None <$> block_objs s !! r)) /\
  cluster_objs s' = cluster_objs s /\
  conn_objs s' = conn_objs s /\ clusters s' = clusters s.
Proof.
  induction sel as [|r sel IH]; intros s Hnd Hsel.
  - simpl. split; [symmetry; apply filter_all; reflexivity|].
    split; [symmetry; apply filter_all; intros kv _; reflexivity|].
    split; [|repeat split].
    split; [reflexivity|]. split; [left; reflexivity|].
    intros r Hr. apply elem_of_nil in Hr. contradiction.
  - destruct (Hsel r ltac:(left)) as (b & Hb & Hreg).
    assert (Hd : deref_blocks s (r :: sel) = b :: deref_blocks s sel).
    { unfold deref_blocks. simpl. rewrite Hb. reflexivity. }
    assert (Hf : deleteSelected (IBlock <$> r :: sel) s
                 = deleteSelected (IBlock <$> sel) (delete_item (IBlock r) s))
      by reflexivity.
    cbv zeta. rewrite Hd, Hf. clear Hd Hf.
    assert (Hstep : exists s1, delete_item (IBlock r) s = s1 /\
      connections s1 = List.filter (fun n => negb (conn_touches s r n)) (connections s) /\
      blocks s1 = List.filter (fun kv => negb (bool_decide (kv.1 = block_id b))) (blocks s) /\
      (block_objs s1 = block_objs s \/
       (Dict.get (block_id b) (blocks s) = Some r /\
        block_objs s1 = alter (set_b_parent None) r (block_objs s))) /\
      cluster_objs s1 = cluster_objs s /\
      conn_objs s1 = conn_objs s /\ clusters s1 = clusters s).
    { eexists. split; [reflexivity|]. destruct Hreg as [Hg|[Hg Hnone]].
      - destruct (delete_block_registered s r b Hnd Hb Hg)
          as (H1 & H2 & H3 & H4 & H5 & H6).
        repeat split; try assumption. right. split; assumption.
      - rewrite (delete_block_unregistered s r b Hb Hg).
        split; [symmetry; apply filter_all; intros n Hn; rewrite (Hnone n Hn); reflexivity|].
        split; [|split; [left; reflexivity|repeat split]].
        symmetry. apply filter_all. intros [k v] Hin. simpl.
        rewrite bool_decide_eq_false_2; [reflexivity|]. intros ->.
        apply dict_get_keys in Hg. apply Hg. apply list_elem_of_fmap.
        exists (block_id b, v). split; [reflexivity|exact Hin]. }
    destruct Hstep as (s1 & Es1 & Hc1 & Hb1 & Hbo1 & Hco1 & Hno1 & Hcl1).
    rewrite Es1.
    assert (F1 : forall r', block_objs s1 !! r' = block_objs s !! r' \/
                            block_objs s1 !! r' = set_b_parent None <$> block_objs s !! r').
    { intros r'. destruct Hbo1 as [->|[_ ->]]; [left; reflexivity|].
      destruct (decide (r' = r)) as [->|Hne].
      - right. rewrite list_lookup_alter_eq. reflexivity.
      - left. apply list_lookup_alter_ne. congruence. }
    assert (F2 : forall r', r' <> r -> block_objs s1 !! r' = block_objs s !! r').
    { intros r' Hne. destruct Hbo1 as [->|[_ ->]]; [reflexivity|].
      apply list_lookup_alter_ne. congruence. }
    assert (Hids1 : map block_id (block_objs s1) = map block_id (block_objs s)).
    { destruct Hbo1 as [->|[_ ->]]; [reflexivity|apply ids_alter_parent]. }
    specialize (IH s1). cbv zeta in IH.
    destruct IH as (Hc & Hbl & (P1 & P2 & P3) & Hco & Hno & Hcl).
    { rewrite Hb1. apply dict_filter_keys_NoDup, Hnd. }
    { intros r' Hr'. destruct (Hsel r' ltac:(right; exact Hr')) as (b' & Hb' & Hreg').
      assert (exists b'', block_objs s1 !! r' = Some b'' /\ block_id b'' = block_id b')
        as (b'' & Hb'' & Eid'').
      { destruct (F1 r') as [E|E]; rewrite E, Hb'; eexists; split; reflexivity. }
      exists b''. split; [exact Hb''|]. rewrite Eid''.
      assert (Hnone1 : forall n, conn_touches s r' n = false \/ r' = r ->
                 n ∈ connections s1 -> conn_touches s1 r' n = false).
      { intros n Hor Hn. rewrite (conn_touches_ext s s1 r' n Hno1).
        destruct Hor as [Hor| ->]; [exact Hor|].
        rewrite Hc1 in Hn. apply list_elem_of_In, filter_In in Hn as [_ Hn].
        destruct (conn_touches s r n); [discriminate|reflexivity]. }
      rewrite Hb1.
      destruct (decide (block_id b' = block_id b)) as [Eid|Nid].
      - right. rewrite Eid. split; [apply dict_get_filter_eq|].
        intros n Hn. apply Hnone1; [|exact Hn].
        destruct Hreg' as [Hg'|[Hg' Hnone']].
        + right. destruct Hreg as [Hg|[Hg _]]; rewrite Eid in Hg'; congruence.
        + left. apply Hnone'. rewrite Hc1 in Hn.
          apply list_elem_of_In, filter_In in Hn as [Hn _]. apply list_elem_of_In, Hn.
      - rewrite dict_get_filter_ne by exact Nid.
        destruct Hreg' as [Hg'|[Hg' Hnone']]; [left; exact Hg'|right].
        split; [exact Hg'|]. intros n Hn. apply Hnone1; [|exact Hn].
        left. apply Hnone'. rewrite Hc1 in Hn.
        apply list_elem_of_In, filter_In in Hn as [Hn _]. apply list_elem_of_In, Hn. }
    rewrite Hc, Hbl, Hco, Hno, Hcl, Hc1, Hb1, Hco1, Hno1, Hcl1.
    split; [|split; [|split; [|repeat split]]].
    + rewrite filter_filter. apply filter_ext. intros n.
      rewrite (touches_any_ext s s1 sel n Hno1). unfold touches_any. simpl.
      rewrite negb_orb. reflexivity.
    + rewrite filter_filter. apply filter_ext. intros [k v]. simpl.
      rewrite (deref_ids_same s s1 sel Hids1).
      destruct (decide (k = block_id b)) as [->|Hne].
      * rewrite bool_decide_eq_true_2 by reflexivity.
        rewrite (bool_decide_eq_true_2 (_ ∈ _ :: _)) by left. reflexivity.
      * rewrite (bool_decide_eq_false_2 (k = block_id b)) by exact Hne. simpl.
        f_equal. apply bool_decide_ext. rewrite elem_of_cons. tauto.
    + split; [|split].
      * intros r' Hr'. apply not_elem_of_cons in Hr' as [Hne Hr'].
        rewrite (P1 r' Hr'). apply F2, Hne.
      * intros r'. destruct (P2 r') as [E|E], (F1 r') as [E1|E1];
          rewrite E, E1; auto.
        right. destruct (block_objs s !! r'); reflexivity.
      * intros r' Hr' (b' & Hb' & Hg').
        destruct (decide (r' = r)) as [->|Hne].
        -- assert (Hg : Dict.get (block_id b) (blocks s) = Some r).
           { rewrite Hb in Hb'. injection Hb' as <-. exact Hg'. }
           assert (E1 : block_objs s1 !! r = set_b_parent None <$> block_objs s !! r).
           { destruct (delete_block_registered s r b Hnd Hb Hg) as (_ & _ & H3 & _).
             cbv zeta in H3. rewrite Es1 in H3. rewrite H3.
             apply list_lookup_alter_eq. }
           destruct (P2 r) as [E|E]; rewrite E, E1; [reflexivity|].
           destruct (block_objs s !! r); reflexivity.
        -- apply elem_of_cons in Hr' as [->|Hr']; [congruence|].
           rewrite <- (F2 r' Hne). apply (P3 r' Hr').
           exists b'. rewrite (F2 r' Hne). split; [exact Hb'|].
           rewrite Hb1. rewrite dict_get_filter_ne; [exact Hg'|].
           intros Eid. destruct Hreg as [Hg|[Hg _]]; rewrite <- Eid in Hg; congruence.
Qed.

(** C8. Deleting a selection of blocks, each registered under its id,
    removes from the connection list exactly the connections that start or
    end at an anchor of a selected block and keeps the others in their
    order.  Every block that is not selected is unchanged; a selected block
    is taken out of the scene, which leaves it without parent item and
    changes nothing else of it.  The connection objects, every cluster and
    the cluster registry are unchanged, and the block registry loses the
    ids of the selected blocks only. *)
Theorem deleteSelected_removes_touching_connections (s : GraphEditor)
  (sel : list bref) :
  NoDup (Dict.keys (blocks s)) ->
  (forall r, r ∈ sel -> registered s r) ->
  let s' := deleteSelected (IBlock <$> sel) s in
  connections s' = List.filter (fun n => negb (touches_any s sel n)) (connections s) /\
  blocks s' = List.filter
                (fun kv => negb (bool_decide (kv.1 ∈ map block_id (deref_blocks s sel))))
                (blocks s) /\
  (forall r, r ∉ sel -> block_objs s' !! r = block_objs s !! r) /\
  (forall r, r ∈ sel ->
             block_objs s' !! r = set_b_parent None <$> block_objs s !! r) /\
  cluster_objs s' = cluster_objs s /\
  conn_objs s' = conn_objs s /\ clusters s' = clusters s.
Proof.
  intros Hnd Hsel.
  destruct (deleteSelected_blocks_gen sel s Hnd)
    as (Hc & Hb & (P1 & _ & P3) & Hco & Hno & Hcl).
  { intros r Hr. destruct (Hsel r Hr) as (b & Hb & Hg). exists b. auto. }
  cbv zeta. repeat split; try assumption.
  intros r Hr. apply P3; auto.
Qed.

Lemma deleteSelected_removes_touching_connections_witness :
  let s := run session_three_connected in
  let s' := deleteSelected [IBlock 0%nat] s in
  connections s = [0%nat; 1%nat; 2%nat] /\
  List.filter (fun n => touches_any s [0%nat] n) (connections s) = [0%nat; 1%nat] /\
  connections s' = [2%nat] /\
  blocks s' = [(2, 1%nat); (3, 2%nat)] /\
  block_objs s' !! 1%nat = block_objs s !! 1%nat /\ clusters s' = clusters s.
Proof.
  cbv zeta.
  destruct (deleteSelected_removes_touching_connections
              (run session_three_connected) [0%nat]) as (Hc & Hb & Hbo & _ & _ & _ & Hcl).
  { apply (bool_decide_unpack _). vm_compute. exact I. }
  { intros r Hr. apply list_elem_of_singleton in Hr as ->.
    eexists. split; vm_compute; reflexivity. }
  cbn [fmap list_fmap] in Hc, Hb, Hbo, Hcl.
  split; [vm_compute; reflexivity|]. split; [vm_compute; reflexivity|].
  split; [rewrite Hc; vm_compute; reflexivity|].
  split; [rewrite Hb; vm_compute; reflexivity|].
  split; [|assumption].
  apply Hbo. intros Hin. apply list_elem_of_singleton in Hin. discriminate.
Defined.

(** ** Loading a written document *)


Lemma dict_set_fresh {V} k (v : V) (d : dict V) :
  k ∉ Dict.keys d -> Dict.set k v d = d ++ [(k, v)].
Proof.
  induction d as [|[k' v'] d IH]; intros Hk; simpl; [reflexivity|].
  simpl in Hk. apply not_elem_of_cons in Hk as [Hne Hk].
  destruct (decide (k = k')); [congruence|]. rewrite IH by exact Hk. reflexivity.
Qed.


Lemma save_block_unparented s r b :
  block_objs s !! r = Some b -> b_parent b = None ->
  save_block s r = Some (block_data b).
Proof.
  intros Hb Hp. unfold save_block. rewrite Hb. cbn.
  rewrite (scenePos_unparented s b Hp). reflexivity.
Qed.









Section Frozen_blocks.

(** The block store and the block registry once the first loop is over. *)
Variable H : list GraphBlock.
Variable B : dict bref.
Hypothesis sound :
  forall k r, Dict.get k B = Some r -> exists b, H !! r = Some b /\ block_id b = k.



Section Frozen_clusters.

Variable C : list GraphCluster.
Variable K : dict cref.

Lemma anchors_get_valid r name :
  valid_anchor_name name ->
  exists o, anchors_get r name = Some (r, o) /\ orientation_name o = name.
Proof.
  unfold valid_anchor_name. simpl. intros Hin.
  repeat (apply elem_of_cons in Hin as [->|Hin]);
    [exists OTop|exists OBottom|exists OLeft|exists ORight|]; try (split; reflexivity).
  apply elem_of_nil in Hin. contradiction.
Qed.

Lemma update_line_item_anchors s p c :
  start_anchor (update_line_item s p c) = start_anchor c /\
  end_anchor (update_line_item s p c) = end_anchor c.
Proof. unfold update_line_item. destruct (line_item c) as [[]|]; split; reflexivity. Qed.


End Frozen_clusters.
End Frozen_blocks.








(** *** Numbers that go through the conversion unchanged *)









(** ** Reloading what was saved *)

Lemma for_each_total {A} (Q : GraphEditor -> Prop)
  (body : A -> GraphEditor -> result GraphEditor) (l : list A) : forall s,
  (forall a s, a ∈ l -> Q s -> exists s', body a s = Ok s' /\ Q s') ->
  Q s -> exists s', for_each body l s = (s', None) /\ Q s'.
Proof.
  induction l as [|a l IH]; intros s Hb Hs; simpl.
  - exists s. auto.
  - destruct (Hb a s ltac:(left) Hs) as (s1 & E & H1). rewrite E.
    apply IH; [|exact H1]. intros a' s' Ha'. apply Hb. right. exact Ha'.
Qed.

Lemma orientation_name_valid o : valid_anchor_name (orientation_name o).
Proof.
  unfold valid_anchor_name. destruct o; simpl.
  - left.
  - right; left.
  - do 2 right; left.
  - do 3 right; left.
Qed.

Lemma save_data_anchor_names s :
  Forall (fun nd => valid_anchor_name (nd_start_anchor nd))
         (doc_connections (save_data s)).
Proof.
  apply Forall_forall. intros nd Hin. cbn in Hin.
  apply list_elem_of_omap in Hin as (n & _ & Hn). unfold save_connection in Hn.
  destruct (conn_objs s !! n) as [c|]; [|discriminate]. cbn in Hn.
  destruct (end_anchor c) as [e|]; [|discriminate]. cbn in Hn.
  destruct (block_objs s !! (start_anchor c).1); [|discriminate]. cbn in Hn.
  destruct (block_objs s !! e.1); [|discriminate]. cbn in Hn.
  injection Hn as <-. apply orientation_name_valid.
Qed.

Lemma blocks_from_extend ids s s' x :
  block_objs s' = block_objs s ++ x -> blocks s' = blocks s ->
  blocks_from ids s -> blocks_from ids s'.
Proof.
  unfold blocks_from. intros -> -> Hf. eapply Forall_impl; [exact Hf|].
  intros r (b & Hb & Hid). exists b. split; [|exact Hid].
  apply lookup_app_l_Some, Hb.
Qed.

Lemma load_block_from ids bd s :
  bd_id bd ∈ ids -> blocks_from ids s /\ clusters s = [] ->
  exists s', load_block (block_json bd) s = Ok s' /\
             (blocks_from ids s' /\ clusters s' = []).
Proof.
  intros Hid [Hf Hc]. unfold load_block, block_json.
  cbn [jb_id jb_title jb_content jb_x jb_y jb_width jb_height jb_color jb_locked
       getitem mbind result_bind default].
  eexists. split; [reflexivity|].
  assert (Hgoal : forall t : GraphEditor,
     (exists blk, block_objs t = block_objs s ++ [blk] /\ block_id blk = bd_id bd) ->
     blocks t = Dict.set (bd_id bd) (length (block_objs s)) (blocks s) ->
     clusters t = clusters s ->
     blocks_from ids t /\ clusters t = []).
  { intros t (blk & Ho & Hb) Hd Hc'. split; [|congruence].
    unfold blocks_from. rewrite Hd. apply dict_values_set.
    - unfold blocks_from in Hf. eapply Forall_impl; [exact Hf|].
      intros r (b & Hb' & Hid'). exists b. split; [|exact Hid'].
      rewrite Ho. apply lookup_app_l_Some, Hb'.
    - exists blk. split; [rewrite Ho; apply list_lookup_middle; reflexivity|].
      rewrite Hb. exact Hid. }
  destruct (_ <=? _)%Z; apply Hgoal; try reflexivity; eexists; split; reflexivity.
Qed.

Lemma omap_get_values {V} (d : dict V) (ids : list Z) (m : V) :
  m ∈ omap (fun bid => Dict.get bid d) ids -> m ∈ Dict.values d.
Proof.
  intros Hin. apply list_elem_of_omap in Hin as (i & _ & Hg).
  apply dict_get_in in Hg. apply list_elem_of_fmap. exists (i, m). auto.
Qed.

Lemma load_cluster_members ids cd s :
  blocks_from ids s /\ members_registered s ->
  exists s', load_cluster (cluster_json cd) s = Ok s' /\
             (blocks_from ids s' /\ members_registered s').
Proof.
  intros [Hf Hm]. unfold load_cluster, cluster_json.
  cbn [jc_id jc_title jc_color jc_block_ids jc_locked getitem mbind result_bind default].
  unfold id.
  destruct (omap (fun bid => Dict.get bid (blocks s)) (cd_block_ids cd))
    as [|x refs] eqn:E.
  { exists s. auto. }
  eexists. split; [reflexivity|]. split; [exact Hf|].
  unfold members_registered. cbn [clusters blocks cluster_objs set_clusters set_cluster_objs].
  apply dict_values_set.
  - unfold members_registered in Hm. eapply Forall_impl; [exact Hm|].
    intros c (cl & Hcl & Hmem). exists cl. split; [|exact Hmem].
    apply lookup_app_l_Some, Hcl.
  - eexists. split; [apply list_lookup_middle; reflexivity|].
    intros m Hin. cbn in Hin. rewrite <- E in Hin. eapply omap_get_values, Hin.
Qed.

Lemma load_connection_members ids nd s :
  valid_anchor_name (nd_start_anchor nd) ->
  blocks_from ids s /\ members_registered s ->
  exists s', load_connection (conn_json nd) s = Ok s' /\
             (blocks_from ids s' /\ members_registered s').
Proof.
  intros Hv [Hf Hm]. unfold load_connection, conn_json.
  cbn [jn_start_block_id jn_start_anchor jn_end_block_id jn_end_anchor
       getitem mbind result_bind].
  destruct (Dict.get (nd_start_block_id nd) (blocks s)) as [sb|]; [|exists s; auto].
  destruct (Dict.get (nd_end_block_id nd) (blocks s)) as [eb|]; [|exists s; auto].
  destruct (anchors_get_valid sb _ Hv) as (o & -> & _).
  unfold create_line_item. cbn [mbind result_bind].
  eexists. split; [reflexivity|]. split; [exact Hf|exact Hm].
Qed.

Lemma openFile_members_resolve (d : Document) (s0 : GraphEditor) :
  Forall (fun nd => valid_anchor_name (nd_start_anchor nd)) (doc_connections d) ->
  exists s3, openFile (Parsed (to_json d)) s0 = (s3, None) /\
             forall cd, cd ∈ doc_clusters (save_data s3) ->
                        forall i, i ∈ cd_block_ids cd -> i ∈ block_ids d.
Proof.
  intros Hv. unfold openFile, to_json.
  cbn [j_blocks j_clusters j_connections default]. unfold id.
  destruct (for_each_total (fun s => blocks_from (block_ids d) s /\ clusters s = [])
              load_block (map block_json (doc_blocks d)) (newFile s0))
    as (s1 & E1 & Hf1 & Hc1).
  { intros a s Ha. apply list_elem_of_fmap in Ha as (bd & -> & Hbd).
    apply load_block_from. apply list_elem_of_fmap. exists bd. auto. }
  { split; [constructor|reflexivity]. }
  rewrite E1. unfold and_then at 1. cbn [fst snd].
  destruct (for_each_total (fun s => blocks_from (block_ids d) s /\ members_registered s)
              load_cluster (map cluster_json (doc_clusters d)) s1)
    as (s2 & E2 & Hf2 & Hm2).
  { intros a s Ha. apply list_elem_of_fmap in Ha as (cd & -> & _).
    apply load_cluster_members. }
  { split; [exact Hf1|]. unfold members_registered. rewrite Hc1. constructor. }
  rewrite E2. unfold and_then. cbn [fst snd].
  destruct (for_each_total (fun s => blocks_from (block_ids d) s /\ members_registered s)
              load_connection (map conn_json (doc_connections d)) s2)
    as (s3 & E3 & Hf3 & Hm3).
  { intros a s Ha. apply list_elem_of_fmap in Ha as (nd & -> & Hnd).
    apply load_connection_members.
    rewrite Forall_forall in Hv. apply Hv, Hnd. }
  { split; assumption. }
  exists s3. split; [exact E3|].
  intros cd Hcd i Hi. cbn in Hcd.
  apply list_elem_of_omap in Hcd as ([k c] & Hkc & Hs).
  unfold members_registered in Hm3. rewrite Forall_forall in Hm3.
  destruct (Hm3 c) as (cl & Hcl & Hmem).
  { apply list_elem_of_fmap. exists (k, c). auto. }
  unfold save_cluster in Hs. cbn [fst snd] in Hs. rewrite Hcl in Hs. cbn in Hs.
  injection Hs as <-. cbn in Hi.
  apply list_elem_of_fmap in Hi as (bm & -> & Hbm).
  apply list_elem_of_omap in Hbm as (m & Hm & Hlk).
  unfold blocks_from in Hf3. rewrite Forall_forall in Hf3.
  destruct (Hf3 m (Hmem m Hm)) as (b' & Hb' & Hid). congruence.
Qed.

(** C10. A registered block that is a member of a registered cluster is
    deleted: the cluster object is unchanged, so its member list still
    holds the deleted block; the document saved afterwards has no block
    with the deleted id and lists that id in the cluster's [block_ids];
    loading that document raises nothing and leaves no cluster with the
    deleted id among its members. *)
Theorem deleted_block_stays_in_cluster (s : GraphEditor) (r : bref)
  (b : GraphBlock) (cid : Z) (c : cref) (cl : GraphCluster) :
  NoDup (Dict.keys (blocks s)) ->
  registry_sound s ->
  block_objs s !! r = Some b ->
  Dict.get (block_id b) (blocks s) = Some r ->
  (cid, c) ∈ clusters s ->
  cluster_objs s !! c = Some cl ->
  r ∈ c_blocks cl ->
  dangling_member s r b cid c cl.
Proof.
  intros Hnd Hsound Hb Hg Hc Hcl Hr. unfold dangling_member.
  destruct (deleteSelected_blocks_gen [r] s Hnd)
    as (_ & Hbl & (_ & P2 & _) & Hco & _ & Hcs).
  { intros r' Hr'. apply list_elem_of_singleton in Hr' as ->. exists b. auto. }
  change (IBlock <$> [r]) with [IBlock r] in *.
  cbv zeta. set (s' := deleteSelected [IBlock r] s) in *. clearbody s'.
  assert (Hids : map block_id (deref_blocks s [r]) = [block_id b]).
  { unfold deref_blocks. simpl. rewrite Hb. reflexivity. }
  rewrite Hids in Hbl.
  assert (Hnot : block_id b ∉ block_ids (save_data s')).
  { unfold block_ids. cbn. intros Hin.
    apply list_elem_of_fmap in Hin as (bd & Hbd & Hin).
    apply list_elem_of_omap in Hin as (r' & Hr' & Hs).
    apply list_elem_of_fmap in Hr' as ([k r2] & -> & Hkr). cbn in Hs.
    rewrite Hbl in Hkr. apply list_elem_of_In, filter_In in Hkr as [Hkr Hk].
    cbn in Hk. apply list_elem_of_In in Hkr.
    destruct (Hsound k r2 Hkr) as (b2 & Hb2 & Hid2).
    unfold save_block in Hs.
    destruct (P2 r2) as [E|E]; rewrite E, Hb2 in Hs; cbn in Hs;
      injection Hs as <-; cbn in Hbd;
      (rewrite bool_decide_eq_true_2 in Hk; [discriminate|]);
      apply list_elem_of_singleton; congruence. }
  split; [rewrite Hco; exact Hcl|].
  split.
  { rewrite Hbl. apply dict_get_keys. intros Hin.
    apply list_elem_of_fmap in Hin as ([k r2] & Hk & Hin).
    apply list_elem_of_In, filter_In in Hin as [_ Hf]. cbn in Hk, Hf. subst k.
    rewrite bool_decide_eq_true_2 in Hf; [discriminate|left]. }
  split.
  { exists (mkClusterData cid (c_title cl) (c_color cl)
              (map block_id (deref_blocks s' (c_blocks cl))) (c_locked cl)).
    split; [|split; [reflexivity|]].
    - cbn. apply list_elem_of_omap. exists (cid, c). split; [rewrite Hcs; exact Hc|].
      unfold save_cluster. cbn [fst snd]. rewrite Hco, Hcl. reflexivity.
    - cbn. unfold deref_blocks.
      destruct (P2 r) as [E|E]; rewrite Hb in E; cbn in E;
        (apply list_elem_of_fmap; eexists; split;
         [|apply list_elem_of_omap; exists r; split; [exact Hr|exact E]]);
        reflexivity. }
  split; [exact Hnot|].
  intros s0.
  destruct (openFile_members_resolve (save_data s') s0 (save_data_anchor_names s'))
    as (s3 & E & Hres).
  cbv zeta. rewrite E. split; [reflexivity|].
  intros cd Hcd Hin. apply Hnot. exact (Hres cd Hcd _ Hin).
Qed.

Lemma deleted_block_stays_in_cluster_witness :
  exists b cl,
    block_objs (run session_grouped) !! 0%nat = Some b /\
    cluster_objs (run session_grouped) !! 0%nat = Some cl /\
    c_blocks cl = [0%nat; 1%nat] /\
    dangling_member (run session_grouped) 0%nat b 1 0%nat cl /\
    block_ids (save_data (deleteSelected [IBlock 0%nat] (run session_grouped))) = [2] /\
    map cd_block_ids
        (doc_clusters (save_data (deleteSelected [IBlock 0%nat] (run session_grouped))))
    = [[1; 2]].
Proof.
  eexists _, _.
  split; [vm_compute; reflexivity|]. split; [vm_compute; reflexivity|].
  split; [reflexivity|].
  split; [|split; vm_compute; reflexivity].
  apply deleted_block_stays_in_cluster.
  - apply (bool_decide_unpack _). vm_compute. exact I.
  - intros k r Hin.
    assert (E : blocks (run session_grouped) = [(1, 0%nat); (2, 1%nat)])
      by (vm_compute; reflexivity).
    rewrite E in Hin.
    apply elem_of_cons in Hin as [[= -> ->]|Hin];
      [eexists; split; vm_compute; reflexivity|].
    apply list_elem_of_singleton in Hin as [= -> ->].
    eexists; split; vm_compute; reflexivity.
  - vm_compute; reflexivity.
  - vm_compute; reflexivity.
  - vm_compute. left.
  - vm_compute; reflexivity.
  - left.
Defined.

(** ** The block registry in every session *)

Lemma same_registry_refl s : same_registry s s.
Proof. repeat split. Qed.

Lemma same_registry_trans s1 s2 s3 :
  same_registry s1 s2 -> same_registry s2 s3 -> same_registry s1 s3.
Proof. intros (H1 & H2 & H3) (H4 & H5 & H6). repeat split; congruence. Qed.

Lemma same_registry_upd_block r f s :
  (forall b, block_id (f b) = block_id b) -> same_registry s (upd_block r f s).
Proof.
  intros Hf. split; [reflexivity|]. split; [|reflexivity]. cbn.
  apply list_eq. intros i. rewrite !list_lookup_fmap.
  destruct (decide (i = r)) as [->|Hne].
  - rewrite list_lookup_alter_eq. destruct (block_objs s !! r); cbn; [|reflexivity].
    rewrite Hf. reflexivity.
  - rewrite list_lookup_alter_ne by congruence. reflexivity.
Qed.

Lemma same_registry_fold {A} (f : GraphEditor -> A -> GraphEditor) l s :
  (forall t a, same_registry t (f t a)) -> same_registry s (fold_left f l s).
Proof.
  intros Hf. apply (fold_left_inv (same_registry s)); [|apply same_registry_refl].
  intros t a Ht. eapply same_registry_trans; [exact Ht|apply Hf].
Qed.

Lemma registry_sound_lookup s :
  registry_sound s <->
  forall k r, (k, r) ∈ blocks s -> map block_id (block_objs s) !! r = Some k.
Proof.
  unfold registry_sound. split; intros H k r Hin.
  - destruct (H k r Hin) as (b & Hb & Hid). rewrite list_lookup_fmap, Hb. cbn.
    congruence.
  - specialize (H k r Hin). rewrite list_lookup_fmap in H.
    destruct (block_objs s !! r) as [b|]; [|discriminate]. exists b.
    split; [reflexivity|]. cbn in H. congruence.
Qed.

Lemma registry_ok_same s s' : same_registry s s' -> registry_ok s -> registry_ok s'.
Proof.
  intros (Hb & Hi & Hc) (Hnd & Hs & Hk).
  split; [rewrite Hb; exact Hnd|]. split; [|rewrite Hb, Hc; exact Hk].
  apply registry_sound_lookup. rewrite Hb, Hi. apply registry_sound_lookup, Hs.
Qed.

Lemma dict_set_in {V} k (v : V) (d : dict V) k' v' :
  (k', v') ∈ Dict.set k v d -> (k', v') = (k, v) \/ (k', v') ∈ d.
Proof.
  induction d as [|[k2 v2] d IH]; simpl.
  - intros Hin. apply list_elem_of_singleton in Hin. auto.
  - destruct (decide (k = k2)) as [->|Hne]; intros Hin.
    + apply elem_of_cons in Hin as [Hin|Hin]; [auto|]. right. right. exact Hin.
    + apply elem_of_cons in Hin as [Hin|Hin]; [right; rewrite Hin; left|].
      destruct (IH Hin); [auto|]. right. right. assumption.
Qed.

Lemma dict_set_keys {V} k (v : V) (d : dict V) :
  Dict.keys (Dict.set k v d) = Dict.keys d \/
  ((k ∉ Dict.keys d) /\ Dict.keys (Dict.set k v d) = Dict.keys d ++ [k]).
Proof.
  unfold Dict.keys. induction d as [|[k2 v2] d IH]; simpl.
  - right. split; [apply not_elem_of_nil|reflexivity].
  - destruct (decide (k = k2)) as [->|Hne]; [left; reflexivity|]. simpl.
    destruct IH as [E|[Hk E]].
    + left. f_equal. exact E.
    + right. split; [apply not_elem_of_cons; auto|]. f_equal. exact E.
Qed.

Lemma dict_set_NoDup {V} k (v : V) (d : dict V) :
  NoDup (Dict.keys d) -> NoDup (Dict.keys (Dict.set k v d)).
Proof.
  intros Hnd. destruct (dict_set_keys k v d) as [-> |[Hk ->]]; [exact Hnd|].
  apply NoDup_app. split; [exact Hnd|]. split; [|apply NoDup_singleton].
  intros x Hx Hx'. apply list_elem_of_singleton in Hx'. congruence.
Qed.

Lemma dict_set_keys_Forall {V} (P : Z -> Prop) k (v : V) (d : dict V) :
  Forall P (Dict.keys d) -> P k -> Forall P (Dict.keys (Dict.set k v d)).
Proof.
  intros Hd Hk. destruct (dict_set_keys k v d) as [-> |[_ ->]]; [exact Hd|].
  apply Forall_app. split; [exact Hd|]. constructor; [exact Hk|constructor].
Qed.

Lemma registry_ok_push s s' blk :
  block_objs s' = block_objs s ++ [blk] ->
  blocks s' = Dict.set (block_id blk) (length (block_objs s)) (blocks s) ->
  block_id_counter s <= block_id_counter s' ->
  block_id blk < block_id_counter s' ->
  registry_ok s -> registry_ok s'.
Proof.
  intros Ho Hb Hle Hlt (Hnd & Hs & Hk).
  split; [rewrite Hb; apply dict_set_NoDup, Hnd|]. split.
  - intros k r Hin. rewrite Hb in Hin. rewrite Ho.
    apply dict_set_in in Hin as [[= -> ->]|Hin].
    + exists blk. split; [apply list_lookup_middle; reflexivity|reflexivity].
    + destruct (Hs k r Hin) as (b & Hb' & Hid). exists b.
      split; [apply lookup_app_l_Some, Hb'|exact Hid].
  - rewrite Hb. apply dict_set_keys_Forall; [|exact Hlt].
    eapply Forall_impl; [exact Hk|]. intros k Hk'. simpl in Hk'. lia.
Qed.

Lemma registry_ok_del s s' k :
  map block_id (block_objs s') = map block_id (block_objs s) ->
  blocks s' = Dict.del k (blocks s) ->
  block_id_counter s' = block_id_counter s ->
  registry_ok s -> registry_ok s'.
Proof.
  intros Hi Hb Hc (Hnd & Hs & Hk). rewrite (dict_del_filter k _ Hnd) in Hb.
  split; [rewrite Hb; apply dict_filter_keys_NoDup, Hnd|]. split.
  - apply registry_sound_lookup. rewrite Hb, Hi. intros k' r Hin.
    apply list_elem_of_In, filter_In in Hin as [Hin _].
    apply registry_sound_lookup; [exact Hs|]. apply list_elem_of_In, Hin.
  - rewrite Hb, Hc. apply Forall_forall. intros k' Hin.
    apply list_elem_of_fmap in Hin as ([k2 v2] & -> & Hin).
    apply list_elem_of_In, filter_In in Hin as [Hin _].
    rewrite Forall_forall in Hk. apply Hk. apply list_elem_of_fmap.
    exists (k2, v2). split; [reflexivity|apply list_elem_of_In, Hin].
Qed.

Lemma same_registry_updateConnectionsForBlock r s :
  same_registry s (updateConnectionsForBlock r s).
Proof.
  unfold updateConnectionsForBlock.
  set (s1 := fold_left _ _ _).
  assert (H1 : same_registry s s1).
  { subst s1. apply same_registry_fold. intros t n.
    destruct (conn_objs t !! n) as [c|]; [|apply same_registry_refl].
    destruct (touches r c); repeat split. }
  destruct (current_connection s1) as [n|]; [|exact H1].
  destruct (conn_objs s1 !! n) as [c|]; [|exact H1].
  destruct (bool_decide _); [|exact H1].
  eapply same_registry_trans; [exact H1|]. repeat split.
Qed.

Lemma same_registry_block_setPos r p s : same_registry s (block_setPos r p s).
Proof.
  unfold block_setPos. destruct (block_objs s !! r) as [b|]; [|apply same_registry_refl].
  destruct (b_locked b); [apply same_registry_refl|].
  eapply same_registry_trans; [|apply same_registry_updateConnectionsForBlock].
  apply same_registry_upd_block. reflexivity.
Qed.

Lemma same_registry_setParentItem p blk s : same_registry s (setParentItem p blk s).
Proof. apply same_registry_upd_block. reflexivity. Qed.

Lemma registry_ok_load_block bd s s' :
  registry_ok s -> load_block bd s = Ok s' -> registry_ok s'.
Proof.
  intros Hs. load_block_cases bd ltac:(discriminate).
  cbn [getitem mbind result_bind]. intros [= <-].
  destruct (block_id_counter _ <=? i)%Z eqn:E;
    [apply Z.leb_le in E|apply Z.leb_gt in E];
    (eapply registry_ok_push; [reflexivity|reflexivity| | |exact Hs]);
    unfold new_GraphBlock; cbn in *; lia.
Qed.

Lemma same_registry_load_cluster cd s s' :
  load_cluster cd s = Ok s' -> same_registry s s'.
Proof.
  unfold load_cluster. destruct (omap _ _) as [|x l];
    [intros [= <-]; apply same_registry_refl|].
  destruct (jc_title cd) as [t|]; [|discriminate].
  destruct (jc_id cd) as [i|]; [|discriminate].
  cbn [getitem mbind result_bind]. intros [= <-]. repeat split.
Qed.

Lemma same_registry_load_connection cd s s' :
  load_connection cd s = Ok s' -> same_registry s s'.
Proof.
  unfold load_connection.
  destruct (jn_start_block_id cd) as [a|]; [|discriminate].
  destruct (jn_end_block_id cd) as [b|]; [|discriminate].
  destruct (jn_start_anchor cd) as [c|]; [|discriminate].
  destruct (jn_end_anchor cd) as [d|]; [|discriminate].
  cbn [getitem mbind result_bind].
  destruct (Dict.get a (blocks s)) as [sb|]; [|intros [= <-]; apply same_registry_refl].
  destruct (Dict.get b (blocks s)) as [eb|]; [|intros [= <-]; apply same_registry_refl].
  destruct (create_line_item _ _ _) as [conn|e]; [|discriminate].
  cbn [mbind result_bind]. intros [= <-]. repeat split.
Qed.

Lemma registry_ok_newFile s : registry_ok (newFile s).
Proof.
  split; [constructor|]. split; [|constructor]. intros k r Hin. cbn in Hin.
  apply elem_of_nil in Hin. contradiction.
Qed.

Lemma registry_ok_openFile input s : registry_ok s -> registry_ok (openFile input s).1.
Proof.
  intros Hs. destruct input as [| | |data]; simpl; auto.
  apply and_then_inv.
  { apply for_each_inv; [|apply registry_ok_newFile].
    intros a s1 s2 H1 H2. eapply registry_ok_load_block; eauto. }
  intros s1 H1. apply and_then_inv.
  { apply for_each_inv; [|exact H1]. intros a s2 s3 H2 H3.
    eapply registry_ok_same; [eapply same_registry_load_cluster; eauto|auto]. }
  intros s2 H2. apply for_each_inv; [|exact H2]. intros a s3 s4 H3 H4.
  eapply registry_ok_same; [eapply same_registry_load_connection; eauto|auto].
Qed.

Lemma registry_ok_delete_item item s : registry_ok s -> registry_ok (delete_item item s).
Proof.
  intros Hs. destruct item as [r|c]; simpl.
  - destruct (block_objs s !! r) as [b|]; [|exact Hs].
    destruct (Dict.mem _ _); [|exact Hs].
    match goal with |- context [fold_left ?f ?l s] =>
      destruct (remove_loop_connections l s) as (_ & Hbo & _ & _ & Hbl & _) end.
    eapply (registry_ok_del s _ (block_id b)); [| | |exact Hs].
    + cbn. rewrite Hbo. apply ids_alter_parent.
    + cbn. rewrite Hbl. reflexivity.
    + cbn. apply (fold_left_inv (fun t => block_id_counter t = block_id_counter s));
        [|reflexivity].
      intros t n Ht. destruct (bool_decide _); exact Ht.
  - destruct (cluster_objs s !! c) as [cl|]; [|exact Hs].
    match goal with |- context [fold_left ?f ?l s] =>
      assert (H : same_registry s (fold_left f l s)) end.
    { apply same_registry_fold. intros. apply same_registry_setParentItem. }
    eapply registry_ok_same; [|exact Hs].
    destruct (List.find _ _); [|exact H].
    eapply same_registry_trans; [exact H|]. repeat split.
Qed.

Lemma registry_ok_step a s : registry_ok s -> registry_ok (step a s).
Proof.
  intros Hs. destruct a; simpl.
  1: apply registry_ok_newFile.
  1: apply registry_ok_openFile; exact Hs.
  1: { unfold addBlock, setCurrentBlock.
       match goal with |- registry_ok (if editLocked ?t then _ else _) =>
         assert (H : registry_ok t); [|destruct (editLocked t); exact H] end.
       eapply registry_ok_same; [apply same_registry_block_setPos|].
       eapply registry_ok_push; [reflexivity|reflexivity| | |exact Hs];
         unfold new_GraphBlock; cbn; lia. }
  1: { unfold deleteSelected. apply fold_left_inv; [|exact Hs].
       intros t item. apply registry_ok_delete_item. }
  all: (eapply registry_ok_same; [|exact Hs]).
  - unfold groupSelectedBlocks. destruct (_ <? _)%nat; [apply same_registry_refl|].
    match goal with |- same_registry s (fold_left ?f ?l ?s0) =>
      apply (same_registry_trans s s0); [repeat split|] end.
    apply same_registry_fold. intros. apply same_registry_setParentItem.
  - unfold detachClusterBlocks. destruct (currentCluster s) as [c|]; [|apply same_registry_refl].
    destruct (cluster_objs s !! c) as [cl|]; [|apply same_registry_refl].
    match goal with |- same_registry s (upd_cluster _ _ (upd_cluster _ _ ?t)) =>
      apply (same_registry_trans s t); [|repeat split] end.
    apply same_registry_fold. intros. apply same_registry_setParentItem.
  - unfold attachClusterBlocks. destruct (currentCluster s) as [c|]; [|apply same_registry_refl].
    destruct (cluster_objs s !! c) as [cl|]; [|apply same_registry_refl].
    apply same_registry_fold. intros t r. unfold attach_block.
    destruct (block_objs t !! r) as [b|]; [|apply same_registry_refl].
    destruct (b_parent b); [apply same_registry_refl|].
    destruct (contains _ _); [|apply same_registry_refl].
    eapply same_registry_trans; [apply (same_registry_setParentItem (Some c) r)|].
    repeat split.
  - unfold fixCurrent, set_locked_current. destruct (currentBlock s).
    + apply same_registry_upd_block. reflexivity.
    + destruct (currentCluster s); repeat split.
  - unfold unfixCurrent, set_locked_current. destruct (currentBlock s).
    + apply same_registry_upd_block. reflexivity.
    + destruct (currentCluster s); repeat split.
  - unfold changeColor. destruct color as [name|]; [|apply same_registry_refl].
    match goal with |- context [match currentCluster ?t with _ => _ end] =>
      assert (H : same_registry s t);
      [|destruct (currentCluster t);
        [eapply same_registry_trans; [exact H|repeat split]|exact H]] end.
    destruct (currentBlock s); [|apply same_registry_refl].
    apply same_registry_upd_block. reflexivity.
  - unfold saveEdit. destruct (currentBlock s) as [r|].
    + destruct (block_objs s !! r) as [b|]; [|apply same_registry_refl].
      eapply same_registry_trans; [|apply same_registry_upd_block; reflexivity].
      eapply same_registry_trans; [|apply same_registry_upd_block; reflexivity].
      apply same_registry_upd_block. reflexivity.
    + destruct (currentCluster s) as [c|]; [|apply same_registry_refl].
      destruct (cluster_objs s !! c); repeat split.
  - unfold setCurrentBlock. destruct (editLocked s); repeat split.
  - unfold setCurrentCluster. destruct (editLocked s); repeat split.
  - apply same_registry_block_setPos.
  - unfold cluster_setPos. destruct (cluster_objs s !! c) as [cl|]; [|apply same_registry_refl].
    destruct (c_locked cl); [apply same_registry_refl|].
    unfold updateConnectionsForCluster.
    match goal with |- context [cluster_objs ?t !! c] =>
      destruct (cluster_objs t !! c) as [cl'|]; [|repeat split] end.
    match goal with |- same_registry s (fold_left ?f ?l ?s0) =>
      apply (same_registry_trans s s0); [repeat split|] end.
    apply same_registry_fold. intros. apply same_registry_updateConnectionsForBlock.
  - unfold startConnection. destruct (current_connection s); repeat split.
  - unfold endConnection. destruct (current_connection s) as [n|]; [|apply same_registry_refl].
    destruct (conn_objs s !! n) as [cn|]; [|apply same_registry_refl].
    destruct (bool_decide _), (line_deleted cn); try (repeat split; fail).
    unfold cancelConnection. destruct (pending_deleted s); repeat split.
  - unfold cancelConnection. destruct (pending_deleted s); repeat split.
  - unfold mouseMoveEvent. destruct (current_connection s); repeat split.
  - unfold line_mousePressEvent. destruct (bool_decide _); repeat split.
  - repeat split.
  - unfold onEditDockVisibilityChanged. destruct visible; repeat split.
Qed.

(** In every session the block registry has no key twice, maps every id to
    a block with that id, and holds only ids below the block counter. *)
Lemma run_registry_ok actions : registry_ok (run actions).
Proof.
  induction actions as [|a actions IH] using rev_ind.
  - split; [constructor|]. split; [|constructor].
    intros k r Hin. apply elem_of_nil in Hin. contradiction.
  - rewrite run_snoc. apply registry_ok_step, IH.
Qed.

(** The id [addBlock] assigns is not the id of any registered block. *)
Lemma addBlock_id_new actions x y :
  Dict.get (block_id_counter (run actions)) (blocks (run actions)) = None /\
  Dict.get (block_id_counter (run actions))
           (blocks (addBlock x y (run actions)))
  = Some (length (block_objs (run actions))).
Proof.
  destruct (run_registry_ok actions) as (_ & _ & Hk).
  assert (Hn : block_id_counter (run actions) ∉ Dict.keys (blocks (run actions))).
  { intros Hin. rewrite Forall_forall in Hk. specialize (Hk _ Hin). simpl in Hk. lia. }
  split; [apply dict_get_keys, Hn|].
  assert (Hb : blocks (addBlock x y (run actions))
               = blocks (run actions)
                 ++ [(block_id_counter (run actions), length (block_objs (run actions)))]).
  { rewrite <- (dict_set_fresh _ _ _ Hn). unfold addBlock, setCurrentBlock.
    match goal with |- blocks (if editLocked ?t then _ else _) = _ =>
      transitivity (blocks t); [destruct (editLocked t); reflexivity|] end.
    match goal with |- blocks (block_setPos ?r ?p ?t) = _ =>
      destruct (same_registry_block_setPos r p t) as (-> & _) end.
    reflexivity. }
  rewrite Hb. clear Hb. revert Hn.
  generalize (blocks (run actions)) as d. induction d as [|[k v] d IH]; intros Hn; simpl.
  - destruct (decide _); congruence.
  - simpl in Hn. apply not_elem_of_cons in Hn as [Hne Hn].
    destruct (decide _); [congruence|]. apply IH, Hn.
Qed.

(** ** Counters after a load *)

(** Whatever the document, a load leaves the cluster counter at the value
    [newFile] gives it. *)
Lemma openFile_cluster_id_counter data s :
  cluster_id_counter (openFile (Parsed data) s).1 = 1.
Proof.
  cbn [openFile].
  apply (and_then_inv (fun t => cluster_id_counter t = 1)).
  { apply (for_each_inv (fun t => cluster_id_counter t = 1)); [|reflexivity].
    intros bd s1 s2 H1. load_block_cases bd ltac:(discriminate).
    cbn [getitem mbind result_bind]. intros [= <-].
    destruct (_ <=? _)%Z; exact H1. }
  intros s1 H1. apply (and_then_inv (fun t => cluster_id_counter t = 1)).
  { apply (for_each_inv (fun t => cluster_id_counter t = 1)); [|exact H1].
    intros cd s2 s3 H2. unfold load_cluster.
    destruct (omap _ _) as [|x l]; [intros [= <-]; exact H2|].
    destruct (jc_title cd) as [t|]; [|discriminate].
    destruct (jc_id cd) as [i|]; [|discriminate].
    cbn [getitem mbind result_bind]. intros [= <-]. exact H2. }
  intros s2 H2.
  apply (for_each_inv (fun t => cluster_id_counter t = 1)); [|exact H2].
  intros cd s3 s4 H3. unfold load_connection.
  destruct (jn_start_block_id cd) as [a|]; [|discriminate].
  destruct (jn_end_block_id cd) as [b|]; [|discriminate].
  destruct (jn_start_anchor cd) as [c|]; [|discriminate].
  destruct (jn_end_anchor cd) as [d|]; [|discriminate].
  cbn [getitem mbind result_bind].
  destruct (Dict.get a (blocks s3)) as [sb|]; [|intros [= <-]; exact H3].
  destruct (Dict.get b (blocks s3)) as [eb|]; [|intros [= <-]; exact H3].
  destruct (create_line_item _ _ _) as [conn|e]; [|discriminate].
  cbn [mbind result_bind]. intros [= <-]. exact H3.
Qed.

(** * Further properties of the editor core *)

(** ** What an operation leaves alone *)

Lemma fold_frame {A T} (proj : GraphEditor -> T) (f : GraphEditor -> A -> GraphEditor)
  (l : list A) (s : GraphEditor) :
  (forall t a, proj (f t a) = proj t) -> proj (fold_left f l s) = proj s.
Proof.
  intros Hf. revert s. induction l as [|a l IH]; intros s; simpl; [reflexivity|].
  rewrite IH. apply Hf.
Qed.

Create Rewrite HintDb frame.

Ltac head_of t := lazymatch t with ?f _ => head_of f | _ => t end.

(** [frame proj] proves [proj (op s) = proj s] for an operation [op] that
    does not write what [proj] reads. *)
Ltac frame_steps proj :=
  repeat first
    [ reflexivity
    | assumption
    | progress autorewrite with frame
    | progress cbv zeta
    | match goal with
      | |- proj (fold_left ?f ?l ?s0) = _ =>
          rewrite (fold_frame proj f l s0);
          [|let t := fresh "t" in let a := fresh "a" in intros t a; cbv beta]
      | |- proj (match ?x with _ => _ end) = _ => destruct x eqn:?
      | |- proj (?g ?X) = ?rhs => change (proj X = rhs)
      | |- proj (?g _ ?X) = ?rhs => change (proj X = rhs)
      | |- proj (?g _ _ ?X) = ?rhs => change (proj X = rhs)
      | |- proj (?g _ _ _ ?X) = ?rhs => change (proj X = rhs)
      | |- proj (?g _ _ _ _ ?X) = ?rhs => change (proj X = rhs)
      | |- proj ?t = _ => let h := head_of t in progress unfold h
      end ].

Ltac frame proj := solve [frame_steps proj].

(** ** The selection *)

Lemma load_block_inv (Q : GraphEditor -> Prop) bd s s' :
  (forall h d n, Q s -> Q (set_block_id_counter n (set_blocks d (set_block_objs h s)))) ->
  (forall h d, Q s -> Q (set_blocks d (set_block_objs h s))) ->
  Q s -> load_block bd s = Ok s' -> Q s'.
Proof.
  intros H1 H2 HQ. load_block_cases bd ltac:(discriminate).
  cbn [getitem mbind result_bind]. cbv zeta.
  intros [= <-]. destruct (_ <=? _)%Z; [apply H1|apply H2]; exact HQ.
Qed.

Lemma load_cluster_inv (Q : GraphEditor -> Prop) cd s s' :
  (forall h d, Q s -> Q (set_clusters d (set_cluster_objs h s))) ->
  Q s -> load_cluster cd s = Ok s' -> Q s'.
Proof.
  intros H1 HQ. unfold load_cluster.
  destruct (omap _ _); [intros [= <-]; exact HQ|].
  destruct (jc_title cd); [|discriminate]. destruct (jc_id cd); [|discriminate].
  cbn [getitem mbind result_bind]. cbv zeta.
  intros [= <-]. apply H1, HQ.
Qed.

Lemma load_connection_inv (Q : GraphEditor -> Prop) nd s s' :
  (forall h l, Q s -> Q (set_connections l (set_conn_objs h s))) ->
  Q s -> load_connection nd s = Ok s' -> Q s'.
Proof.
  intros H1 HQ. unfold load_connection.
  destruct (jn_start_block_id nd); [|discriminate].
  destruct (jn_end_block_id nd); [|discriminate].
  destruct (jn_start_anchor nd); [|discriminate].
  destruct (jn_end_anchor nd); [|discriminate].
  cbn [getitem mbind result_bind].
  destruct (Dict.get _ _); [|intros [= <-]; exact HQ].
  destruct (Dict.get _ _); [|intros [= <-]; exact HQ].
  destruct (create_line_item _ _ _); [|discriminate].
  cbn [mbind result_bind]. cbv zeta. intros [= <-]. apply H1, HQ.
Qed.

(** What a load keeps of the state [newFile] leaves: any property that the
    bodies of the three loops preserve. *)
Lemma openFile_loops_inv (Q : GraphEditor -> Prop) data s :
  (forall a t t', Q t -> load_block a t = Ok t' -> Q t') ->
  (forall a t t', Q t -> load_cluster a t = Ok t' -> Q t') ->
  (forall a t t', Q t -> load_connection a t = Ok t' -> Q t') ->
  Q (newFile s) -> Q (openFile (Parsed data) s).1.
Proof.
  intros H1 H2 H3 HQ. unfold openFile.
  apply and_then_inv.
  - apply for_each_inv; [exact H1|exact HQ].
  - intros t Ht. apply and_then_inv.
    + apply for_each_inv; [exact H2|exact Ht].
    + intros u Hu. apply for_each_inv; [exact H3|exact Hu].
Qed.

Lemma openFile_parsed_inv (Q : GraphEditor -> Prop) data s :
  (forall s h d n, Q s -> Q (set_block_id_counter n (set_blocks d (set_block_objs h s)))) ->
  (forall s h d, Q s -> Q (set_blocks d (set_block_objs h s))) ->
  (forall s h d, Q s -> Q (set_clusters d (set_cluster_objs h s))) ->
  (forall s h l, Q s -> Q (set_connections l (set_conn_objs h s))) ->
  Q (newFile s) -> Q (openFile (Parsed data) s).1.
Proof.
  intros H1 H2 H3 H4 HQ. apply openFile_loops_inv; [| | |exact HQ].
  - intros a t t' Ht. apply load_block_inv; auto.
  - intros a t t' Ht. apply load_cluster_inv; auto.
  - intros a t t' Ht. apply load_connection_inv; auto.
Qed.

Lemma step_selection a s :
  (currentBlock (step a s) = currentBlock s /\
   currentCluster (step a s) = currentCluster s) \/
  currentBlock (step a s) = None \/ currentCluster (step a s) = None.
Proof.
  destruct a; cbn [step];
    try (left; split; [frame currentBlock|frame currentCluster]).
  - right; left; reflexivity.
  - destruct input; [left; split; reflexivity..|].
    right; left.
    apply (openFile_parsed_inv (fun t => currentBlock t = None)); auto.
  - unfold addBlock. cbv zeta. unfold setCurrentBlock.
    destruct (editLocked _).
    + left; split; [frame currentBlock|frame currentCluster].
    + right; right; reflexivity.
  - unfold setCurrentBlock. destruct (editLocked s); [left|right; right]; auto.
  - unfold setCurrentCluster. destruct (editLocked s); [left|right; left]; auto.
  - destruct visible; [left|right; left]; auto.
Qed.

(** X1.  In every session the edit panel holds at most one object: the
    current block and the current cluster are never both set. *)
Theorem selection_is_exclusive (actions : list Action) :
  currentBlock (run actions) = None \/ currentCluster (run actions) = None.
Proof.
  induction actions as [|a actions IH] using rev_ind; [left; reflexivity|].
  rewrite run_snoc.
  destruct (step_selection a (run actions)) as [[-> ->]|H]; assumption.
Qed.

(** ** Connections *)

Lemma conn_anchors_upd_conn n t p s :
  conn_anchors (upd_conn n (update_line_item t p) s) = conn_anchors s.
Proof.
  unfold conn_anchors, upd_conn. cbn [conn_objs set_conn_objs].
  rewrite (list_fmap_alter _ _ id); [apply list_alter_id; reflexivity|].
  apply Forall_forall. intros c _.
  destruct (update_line_item_anchors t p c) as [-> ->]. reflexivity.
Qed.

#[local] Hint Rewrite conn_anchors_upd_conn : frame.

Lemma conn_anchors_length s : length (conn_anchors s) = length (conn_objs s).
Proof. apply length_map. Qed.

Lemma conn_anchors_lookup s n :
  conn_anchors s !! n = (fun c => (start_anchor c, end_anchor c)) <$> conn_objs s !! n.
Proof. apply list_lookup_fmap. Qed.

Lemma conns_ok_same s s' :
  connections s' = connections s ->
  current_connection s' = current_connection s ->
  conn_anchors s' = conn_anchors s ->
  conns_ok s -> conns_ok s'.
Proof.
  intros Hc Hp Ha. unfold conns_ok.
  rewrite <- (conn_anchors_length s'), Ha, conn_anchors_length, Hc, Hp. auto.
Qed.

Lemma list_remove_sublist x l : list_remove x l `sublist_of` l.
Proof.
  induction l as [|m l IH]; simpl; [constructor|].
  destruct (decide (x = m)); [apply sublist_cons; reflexivity|apply sublist_skip, IH].
Qed.

Lemma conns_ok_sub s s' :
  connections s' `sublist_of` connections s ->
  current_connection s' = current_connection s ->
  conn_anchors s' = conn_anchors s ->
  conns_ok s -> conns_ok s'.
Proof.
  intros Hc Hp Ha (HF & HN & Hcur). unfold conns_ok.
  rewrite <- (conn_anchors_length s'), Ha, conn_anchors_length, Hp.
  split; [|split].
  - apply Forall_forall. intros n Hn. rewrite Forall_forall in HF.
    apply HF. eapply elem_of_sublist; eauto.
  - eapply sublist_NoDup; eauto.
  - intros n Hn. destruct (Hcur n Hn) as [Hlt Hnot]. split; [exact Hlt|].
    intros Hin. apply Hnot. eapply elem_of_sublist; eauto.
Qed.

Lemma delete_item_connections item s :
  connections (delete_item item s) `sublist_of` connections s.
Proof.
  destruct item as [b|c].
  - unfold delete_item. destruct (block_objs s !! b); [|reflexivity].
    destruct (Dict.mem _ _); [|reflexivity]. cbv zeta.
    match goal with
    | |- connections (set_blocks _ ?X) `sublist_of` _ =>
        change (connections X `sublist_of` connections s)
    end.
    apply (fold_left_inv (fun t => connections t `sublist_of` connections s));
      [|reflexivity].
    intros t a Ht. destruct (bool_decide _); [|exact Ht].
    cbn [connections set_connections].
    etrans; [apply list_remove_sublist|exact Ht].
  - assert (connections (delete_item (ICluster c) s) = connections s) as ->
      by frame connections.
    reflexivity.
Qed.

Lemma conns_ok_push s c :
  conns_ok s ->
  conns_ok (set_connections (connections s ++ [length (conn_objs s)])
              (set_conn_objs (conn_objs s ++ [c]) s)).
Proof.
  intros (HF & HN & Hcur). unfold conns_ok.
  cbn [connections conn_objs current_connection set_connections set_conn_objs].
  rewrite length_app. cbn [length]. split; [|split].
  - apply Forall_app. split.
    + eapply Forall_impl; [exact HF|]. cbn. intros; lia.
    + repeat constructor. lia.
  - apply NoDup_app. split; [exact HN|]. split; [|apply NoDup_singleton].
    intros n Hn ->%list_elem_of_singleton.
    rewrite Forall_forall in HF. specialize (HF _ Hn). lia.
  - intros n Hn. destruct (Hcur n Hn) as [Hlt Hnot]. split; [lia|].
    intros [Hin| ->%list_elem_of_singleton]%elem_of_app; [auto|lia].
Qed.

Lemma conns_ok_startConnection a s : conns_ok s -> conns_ok (startConnection a s).
Proof.
  intros Hs. unfold startConnection.
  destruct (current_connection s) eqn:Hp; [exact Hs|].
  destruct Hs as (HF & HN & _).
  unfold create_line_item. cbv beta iota zeta. unfold conns_ok.
  cbn [connections conn_objs current_connection set_current_connection set_conn_objs].
  rewrite length_app. cbn [length]. split; [|split].
  - eapply Forall_impl; [exact HF|]. cbn. intros; lia.
  - exact HN.
  - intros n [= <-]. split; [lia|]. intros Hin.
    rewrite Forall_forall in HF. specialize (HF _ Hin). lia.
Qed.

Lemma conns_ok_cancelConnection s : conns_ok s -> conns_ok (cancelConnection s).
Proof.
  intros (HF & HN & Hcur). unfold cancelConnection.
  destruct (pending_deleted s); [exact (conj HF (conj HN Hcur))|].
  unfold conns_ok.
  cbn [connections conn_objs current_connection set_current_connection].
  split; [exact HF|]. split; [exact HN|]. intros m [=].
Qed.

Lemma conns_ok_newFile s : conns_ok s -> conns_ok (newFile s).
Proof.
  intros (HF & HN & Hcur). unfold conns_ok. rewrite newFile_conn_length.
  assert (Hc : connections (newFile s) = []) by reflexivity.
  assert (Hp : current_connection (newFile s) = current_connection s).
  { unfold newFile, scene_clear. destruct (current_connection s) eqn:E; exact E. }
  rewrite Hc, Hp.
  split; [constructor|]. split; [constructor|].
  intros n Hn. split; [apply (Hcur n Hn)|apply not_elem_of_nil].
Qed.

Lemma conns_ok_endConnection a s : conns_ok s -> conns_ok (endConnection a s).
Proof.
  intros Hs. unfold endConnection.
  destruct (current_connection s) as [n|] eqn:Hp; [|exact Hs].
  destruct (conn_objs s !! n) as [c|] eqn:Hn; [|exact Hs].
  pose proof Hs as (HF & HN & Hcur).
  destruct (Hcur n Hp) as [Hlt Hnot].
  cbv zeta. destruct (bool_decide _), (line_deleted c) eqn:Hd.
  - unfold conns_ok, upd_conn.
    cbn [connections conn_objs current_connection set_conn_objs].
    rewrite !length_alter. exact Hs.
  - unfold conns_ok, upd_conn.
    cbn [connections conn_objs current_connection set_current_connection
         set_conn_objs set_connections].
    rewrite !length_alter. split; [|split].
    + apply Forall_app. split; [exact HF|]. repeat constructor. exact Hlt.
    + apply NoDup_app. split; [exact HN|]. split; [|apply NoDup_singleton].
      intros m Hm ->%list_elem_of_singleton. contradiction.
    + intros m [=].
  - exact Hs.
  - pose proof (conns_ok_cancelConnection s Hs) as (HF' & HN' & _).
    unfold conns_ok.
    cbn [connections conn_objs current_connection set_current_connection].
    split; [exact HF'|]. split; [exact HN'|]. intros m [=].
Qed.

Lemma conns_ok_step a s : conns_ok s -> conns_ok (step a s).
Proof.
  intros Hs. destruct a; cbn [step];
    try solve [apply (conns_ok_same s);
                 [frame connections|frame current_connection|frame conn_anchors
                 |exact Hs]].
  - apply conns_ok_newFile, Hs.
  - destruct input; [exact Hs..|].
    apply openFile_loops_inv.
    + intros a t t' Ht. apply load_block_inv; [| |exact Ht];
        intros; eapply conns_ok_same; eauto.
    + intros a t t' Ht. apply load_cluster_inv; [|exact Ht];
        intros; eapply conns_ok_same; eauto.
    + intros a t t' Ht. unfold load_connection.
      destruct (jn_start_block_id a); [|discriminate].
      destruct (jn_end_block_id a); [|discriminate].
      destruct (jn_start_anchor a); [|discriminate].
      destruct (jn_end_anchor a); [|discriminate].
      cbn [getitem mbind result_bind].
      destruct (Dict.get _ _); [|intros [= <-]; exact Ht].
      destruct (Dict.get _ _); [|intros [= <-]; exact Ht].
      destruct (create_line_item _ _ _); [|discriminate].
      cbn [mbind result_bind]. cbv zeta. intros [= <-].
      apply conns_ok_push, Ht.
    + apply conns_ok_newFile, Hs.
  - unfold deleteSelected.
    apply (fold_left_inv conns_ok); [|exact Hs].
    intros t item Ht. apply (conns_ok_sub t); [| | |exact Ht].
    + apply delete_item_connections.
    + frame current_connection.
    + frame conn_anchors.
  - apply conns_ok_startConnection, Hs.
  - apply conns_ok_endConnection, Hs.
  - apply conns_ok_cancelConnection, Hs.
  - apply (conns_ok_sub s); [| | |exact Hs].
    + unfold line_mousePressEvent. destruct (bool_decide _); [|reflexivity].
      apply list_remove_sublist.
    + frame current_connection.
    + frame conn_anchors.
Qed.

Lemma run_conns_ok actions : conns_ok (run actions).
Proof.
  induction actions as [|a actions IH] using rev_ind.
  - repeat split; [constructor|constructor|discriminate|discriminate].
  - rewrite run_snoc. apply conns_ok_step, IH.
Qed.

Lemma save_connection_anchors s n :
  save_connection s n = conn_anchors s !! n ≫= save_anchor_pair s.
Proof.
  unfold save_connection, save_anchor_pair. rewrite conn_anchors_lookup.
  destruct (conn_objs s !! n) as [c|]; reflexivity.
Qed.

Lemma omap_ext_elem {A B} (f g : A -> option B) (l : list A) :
  (forall x, x ∈ l -> f x = g x) -> omap f l = omap g l.
Proof.
  induction l as [|x l IH]; intros H; [reflexivity|]. cbn [omap list_omap].
  rewrite (H x) by left. rewrite IH; [reflexivity|].
  intros y Hy. apply H. right. exact Hy.
Qed.

Lemma save_connection_same s s' n :
  block_objs s' = block_objs s ->
  conn_anchors s' !! n = conn_anchors s !! n ->
  save_connection s' n = save_connection s n.
Proof.
  intros Hb Ha. rewrite !save_connection_anchors, Ha.
  unfold save_anchor_pair. rewrite Hb. reflexivity.
Qed.

(** The written document depends on the registries, the block and cluster
    objects and the anchors of the listed connections only. *)
Lemma save_data_same s s' :
  blocks s' = blocks s -> block_objs s' = block_objs s ->
  clusters s' = clusters s -> cluster_objs s' = cluster_objs s ->
  doc_blocks (save_data s') = doc_blocks (save_data s) /\
  doc_clusters (save_data s') = doc_clusters (save_data s).
Proof.
  intros Hb Ho Hc Hco. unfold save_data. cbn [doc_blocks doc_clusters].
  rewrite Hb, Hc. split.
  - apply omap_ext_elem. intros r _. unfold save_block, scenePos.
    rewrite Ho, Hco. reflexivity.
  - apply omap_ext_elem. intros kv _. unfold save_cluster, deref_blocks.
    rewrite Ho, Hco. reflexivity.
Qed.

Lemma document_eq d d' :
  doc_blocks d' = doc_blocks d -> doc_clusters d' = doc_clusters d ->
  doc_connections d' = doc_connections d -> d' = d.
Proof. destruct d, d'; cbn; congruence. Qed.

(** *** Deleted line items *)

Lemma line_deleted_update t p c :
  line_deleted (update_line_item t p c) = line_deleted c.
Proof.
  unfold update_line_item, line_deleted.
  destruct (line_item c) as [[]|] eqn:E; cbn [line_item]; rewrite ?E; reflexivity.
Qed.

Lemma pending_deleted_mouseMoveEvent p s :
  pending_deleted (mouseMoveEvent p s) = pending_deleted s.
Proof.
  unfold mouseMoveEvent. destruct (current_connection s) as [n|] eqn:E; [|reflexivity].
  unfold pending_deleted, upd_conn.
  cbn [current_connection conn_objs set_conn_objs]. rewrite E.
  rewrite list_lookup_alter_eq.
  destruct (conn_objs s !! n) as [c|]; [|reflexivity].
  cbn [fmap option_fmap option_map]. apply line_deleted_update.
Qed.

Lemma pending_deleted_moves moves s :
  pending_deleted (fold_left (fun acc p => mouseMoveEvent p acc) moves s)
  = pending_deleted s.
Proof.
  apply (fold_frame pending_deleted). intros t p. apply pending_deleted_mouseMoveEvent.
Qed.

Lemma pending_deleted_press a s :
  pending_deleted s = false -> pending_deleted (anchor_mousePressEvent a s) = false.
Proof.
  intros Hs. unfold anchor_mousePressEvent, startConnection.
  destruct (current_connection s) eqn:E; [exact Hs|].
  unfold create_line_item. cbv beta iota zeta. unfold pending_deleted.
  cbn [current_connection conn_objs set_current_connection set_conn_objs].
  rewrite list_lookup_middle by reflexivity. reflexivity.
Qed.

Lemma pending_deleted_idle s : current_connection s = None -> pending_deleted s = false.
Proof. unfold pending_deleted. intros ->. reflexivity. Qed.

Lemma cancelConnection_live s :
  pending_deleted s = false -> cancelConnection s = set_current_connection None s.
Proof. unfold cancelConnection. intros ->. reflexivity. Qed.

(** The state while a connection drawn from [a] on an idle editor is
    pending. *)
Lemma pending_state a moves s :
  current_connection s = None ->
  let s2 := fold_left (fun acc p => mouseMoveEvent p acc) moves
                      (anchor_mousePressEvent a s) in
  current_connection s2 = Some (length (conn_objs s)) /\
  conn_anchors s2 = conn_anchors s ++ [(a, None)] /\
  connections s2 = connections s /\
  blocks s2 = blocks s /\ block_objs s2 = block_objs s /\
  clusters s2 = clusters s /\ cluster_objs s2 = cluster_objs s /\
  pending_deleted s2 = false.
Proof.
  intros Hidle s2.
  assert (Hlive : pending_deleted s2 = false).
  { subst s2. rewrite pending_deleted_moves.
    apply pending_deleted_press, pending_deleted_idle, Hidle. }
  assert (Hstart : anchor_mousePressEvent a s =
            set_current_connection (Some (length (conn_objs s)))
              (set_conn_objs
                 (conn_objs s ++
                  [mkConn a None (Some (Line (point_line (anchor_scene_center s a)
                                                         (anchor_scene_center s a))))])
                 s)).
  { unfold anchor_mousePressEvent, startConnection. rewrite Hidle. reflexivity. }
  subst s2. revert Hlive. rewrite Hstart. clear Hstart. intros Hlive.
  repeat split; [| | | | | | |exact Hlive].
  - frame current_connection.
  - match goal with
    | |- conn_anchors (fold_left ?f ?l ?s0) = _ =>
        rewrite (fold_frame conn_anchors f l s0)
    end.
    + unfold conn_anchors. cbn [conn_objs set_current_connection set_conn_objs].
      rewrite map_app. reflexivity.
    + intros t p. frame conn_anchors.
  - frame connections.
  - frame blocks.
  - frame block_objs.
  - frame clusters.
  - frame cluster_objs.
Qed.

Lemma target_under_none self items s :
  target_under self items = None ->
  anchor_mouseReleaseEvent self items s = cancelConnection s.
Proof.
  unfold target_under, anchor_mouseReleaseEvent.
  destruct (List.find _ items) as [[]|]; [discriminate|reflexivity..].
Qed.

Lemma pending_deleted_scene_release items s :
  pending_deleted s = false -> pending_deleted (scene_mouseReleaseEvent items s) = false.
Proof.
  intros Hs. unfold scene_mouseReleaseEvent.
  destruct (current_connection s); [|exact Hs].
  destruct (List.find _ _); [exact Hs|].
  rewrite (cancelConnection_live s Hs). reflexivity.
Qed.

Lemma target_under_some self items t s :
  target_under self items = Some t ->
  anchor_mouseReleaseEvent self items s = endConnection t s /\
  (forall u, current_connection u <> None -> scene_mouseReleaseEvent items u = u).
Proof.
  intros Ht. split.
  - revert Ht. unfold target_under, anchor_mouseReleaseEvent.
    destruct (List.find _ items) as [[]|]; congruence.
  - intros u Hu. unfold scene_mouseReleaseEvent.
    destruct (current_connection u); [|congruence].
    assert (List.find is_anchor items <> None) as Hfind.
    { revert Ht. unfold target_under.
      induction items as [|item items IH]; [discriminate|].
      cbn [List.find]. destruct item; cbn [is_anchor]; auto; discriminate. }
    destruct (List.find is_anchor items); [reflexivity|congruence].
Qed.

(** Whatever is pending when the button is pressed, the stores only grow
    and the registries and the connection list stay. *)
Lemma pressed_state a moves s :
  let s2 := fold_left (fun acc p => mouseMoveEvent p acc) moves
                      (anchor_mousePressEvent a s) in
  (exists x, conn_anchors s2 = conn_anchors s ++ x) /\
  connections s2 = connections s /\
  blocks s2 = blocks s /\ block_objs s2 = block_objs s /\
  clusters s2 = clusters s /\ cluster_objs s2 = cluster_objs s.
Proof.
  intros s2. subst s2. split; [|repeat split].
  - match goal with
    | |- exists x, conn_anchors (fold_left ?f ?l ?s0) = _ =>
        rewrite (fold_frame conn_anchors f l s0)
    end.
    + unfold anchor_mousePressEvent, startConnection.
      destruct (current_connection s).
      * exists []. rewrite app_nil_r. reflexivity.
      * unfold create_line_item. cbv beta iota zeta.
        unfold conn_anchors.
        cbn [conn_objs set_current_connection set_conn_objs].
        rewrite map_app. eexists. reflexivity.
    + intros t p. frame conn_anchors.
  - frame connections.
  - frame blocks.
  - frame block_objs.
  - frame clusters.
  - frame cluster_objs.
Qed.

Lemma save_connections_grown s s' x :
  conns_ok s -> block_objs s' = block_objs s ->
  conn_anchors s' = conn_anchors s ++ x ->
  omap (save_connection s') (connections s) = omap (save_connection s) (connections s).
Proof.
  intros (HF & _) Hb Ha. apply omap_ext_elem. intros n Hn.
  apply save_connection_same; [exact Hb|].
  rewrite Ha. apply lookup_app_l. rewrite conn_anchors_length.
  rewrite Forall_forall in HF. apply HF, Hn.
Qed.

(** X2.  Unless a connection is pending whose line "new file" or a load has
    deleted, a connection drag released where no anchor other than the
    pressed one lies under the pointer is cancelled: nothing is left
    pending and the document that would be saved is the one from before the
    drag. *)
Theorem drag_released_off_anchor_leaves_document (actions : list Action)
  (a : AnchorHandle) (moves : list QPointF) (items : list SceneItem) :
  pending_deleted (run actions) = false ->
  target_under a items = None ->
  current_connection (drag_connection a moves items (run actions)) = None /\
  save_data (drag_connection a moves items (run actions)) = save_data (run actions).
Proof.
  intros Hlive Hnone. pose proof (run_conns_ok actions) as Hok.
  set (s := run actions) in *.
  unfold drag_connection, release_after_press.
  rewrite target_under_none by exact Hnone.
  destruct (pressed_state a moves s) as ([x Ha] & Hc & Hb & Hbo & Hk & Hco).
  set (s2 := fold_left _ moves _) in *.
  assert (Hlive2 : pending_deleted (scene_mouseReleaseEvent items s2) = false).
  { apply pending_deleted_scene_release. unfold s2.
    rewrite pending_deleted_moves. apply pending_deleted_press, Hlive. }
  rewrite (cancelConnection_live _ Hlive2).
  split; [reflexivity|].
  assert (H3 : exists x, conn_anchors (scene_mouseReleaseEvent items s2) = conn_anchors s ++ x).
  { exists x. rewrite <- Ha. frame conn_anchors. }
  destruct H3 as [y Hy].
  set (s3 := set_current_connection None (scene_mouseReleaseEvent items s2)).
  assert (Hc' : connections s3 = connections s) by (rewrite <- Hc; frame connections).
  assert (Hb' : blocks s3 = blocks s) by (rewrite <- Hb; frame blocks).
  assert (Hbo' : block_objs s3 = block_objs s) by (rewrite <- Hbo; frame block_objs).
  assert (Hk' : clusters s3 = clusters s) by (rewrite <- Hk; frame clusters).
  assert (Hco' : cluster_objs s3 = cluster_objs s)
    by (rewrite <- Hco; frame cluster_objs).
  destruct (save_data_same _ _ Hb' Hbo' Hk' Hco') as [Hd1 Hd2].
  apply document_eq; [exact Hd1|exact Hd2|].
  unfold save_data at 1. cbn [doc_connections]. rewrite Hc'.
  apply (save_connections_grown s _ y); [exact Hok|exact Hbo'|exact Hy].
Qed.

Lemma released_off_anchor_witness :
  pending_deleted (run session_pending) = false /\
  current_connection (run session_pending) = Some 1%nat /\
  target_under (0%nat, ORight) [SBlock 1%nat; SLine 0%nat] = None /\
  current_connection (drag_connection (0%nat, ORight) [mkPoint 300 120]
                        [SBlock 1%nat; SLine 0%nat] (run session_pending)) = None /\
  save_data (drag_connection (0%nat, ORight) [mkPoint 300 120]
               [SBlock 1%nat; SLine 0%nat] (run session_pending))
  = save_data (run session_pending).
Proof.
  split; [vm_compute; reflexivity|]. split; [vm_compute; reflexivity|].
  split; [reflexivity|].
  apply (drag_released_off_anchor_leaves_document session_pending
           (0%nat, ORight) [mkPoint 300 120] [SBlock 1%nat; SLine 0%nat]);
    [vm_compute; reflexivity|reflexivity].
Defined.

(** The other case: a connection is started and "new file" is chosen.  The
    line of the pending connection is deleted with the scene, every later
    attempt to cancel it raises before [current_connection] is reset, and
    no new connection can be started: a drag on a new block leaves the old
    connection pending. *)
Lemma deleted_line_stays_pending :
  let s := run [AAddBlock 100 100; AStartConnection (0%nat, ORight); ANewFile;
                AAddBlock 10 10] in
  pending_deleted s = true /\
  current_connection s = Some 0%nat /\
  cancelConnection s = s /\
  drag_connection (1%nat, OTop) [mkPoint 50 50] [SText] s = s.
Proof.
  cbv zeta. split; [vm_compute; reflexivity|]. split; [vm_compute; reflexivity|].
  split; vm_compute; reflexivity.
Qed.

(** X3.  From an idle editor, a drag from the anchor [a] released over the
    anchor [t] of another block adds exactly the connection from [a] to [t]
    to the document, after those it had; released over an anchor of the
    same block it adds nothing.  Either way no connection stays pending. *)
Theorem drag_onto_anchor_commits (actions : list Action) (a t : AnchorHandle)
  (ba bt : GraphBlock) (moves : list QPointF) (items : list SceneItem) :
  current_connection (run actions) = None ->
  target_under a items = Some t ->
  block_objs (run actions) !! a.1 = Some ba ->
  block_objs (run actions) !! t.1 = Some bt ->
  drag_outcome (run actions) a t ba bt moves items.
Proof.
  intros Hidle Ht Hba Hbt. pose proof (run_conns_ok actions) as Hok.
  set (s := run actions) in *.
  unfold drag_outcome, drag_connection, release_after_press. cbv zeta.
  destruct (pending_state a moves s Hidle)
    as (Hcur & Ha & Hc & Hb & Hbo & Hk & Hco & Hlive).
  set (s2 := fold_left _ moves _) in *.
  destruct (target_under_some a items t (scene_mouseReleaseEvent items s2) Ht)
    as [-> Hscene].
  rewrite (Hscene s2) by (rewrite Hcur; discriminate).
  set (n := length (conn_objs s)) in *.
  assert (Hn : exists c, conn_objs s2 !! n = Some c /\ start_anchor c = a /\
                         end_anchor c = None).
  { assert (conn_anchors s2 !! n = Some (a, None)) as Hl.
    { rewrite Ha. unfold n. rewrite <- conn_anchors_length.
      apply list_lookup_middle. reflexivity. }
    rewrite conn_anchors_lookup in Hl.
    destruct (conn_objs s2 !! n) as [c|]; [|discriminate].
    exists c. cbn in Hl. split; [reflexivity|]. split; congruence. }
  destruct Hn as (c & Hn & Hstart & Hend).
  assert (Hc0 : line_deleted c = false).
  { revert Hlive. unfold pending_deleted. rewrite Hcur, Hn. auto. }
  unfold endConnection. rewrite Hcur, Hn, Hstart, Hc0. cbv zeta.
  rewrite (cancelConnection_live s2 Hlive).
  destruct (bool_decide (t.1 <> a.1)) eqn:Hdiff.
  - split; [reflexivity|].
    match goal with |- save_data ?X = _ => set (s3 := X) end.
    assert (Hb3 : blocks s3 = blocks s) by (rewrite <- Hb; reflexivity).
    assert (Hbo3 : block_objs s3 = block_objs s) by (rewrite <- Hbo; reflexivity).
    assert (Hk3 : clusters s3 = clusters s) by (rewrite <- Hk; reflexivity).
    assert (Hco3 : cluster_objs s3 = cluster_objs s) by (rewrite <- Hco; reflexivity).
    assert (Hc3 : connections s3 = connections s ++ [n])
      by (rewrite <- Hc; reflexivity).
    assert (Ha3 : conn_anchors s3 = conn_anchors s ++ [(a, Some t)]).
    { unfold s3.
      change (conn_anchors
                (upd_conn n (update_line_item
                               (upd_conn n (fun c0 => mkConn (start_anchor c0) (Some t)
                                                             (line_item c0)) s2) None)
                   (upd_conn n (fun c0 => mkConn (start_anchor c0) (Some t)
                                                 (line_item c0)) s2))
              = conn_anchors s ++ [(a, Some t)]).
      rewrite conn_anchors_upd_conn.
      unfold conn_anchors, upd_conn. cbn [conn_objs set_conn_objs].
      rewrite (list_fmap_alter _ _ (fun p => (p.1, Some t)));
        [|apply Forall_forall; intros; reflexivity].
      change (alter (fun p => (p.1, Some t)) n (conn_anchors s2)
              = conn_anchors s ++ [(a, Some t)]).
      rewrite Ha. unfold n. rewrite <- conn_anchors_length.
      rewrite alter_app_r_alt, Nat.sub_diag by lia. reflexivity. }
    destruct (save_data_same _ _ Hb3 Hbo3 Hk3 Hco3) as [Hd1 Hd2].
    unfold with_connection. apply document_eq; [exact Hd1|exact Hd2|].
    cbn [doc_connections]. unfold save_data at 1. cbn [doc_connections].
    rewrite Hc3, omap_app.
    rewrite (save_connections_grown s s3 [(a, Some t)] Hok Hbo3 Ha3).
    f_equal. cbn [omap list_omap].
    rewrite save_connection_anchors, Ha3. unfold n.
    rewrite <- conn_anchors_length, list_lookup_middle by reflexivity.
    cbn [mbind option_bind]. unfold save_anchor_pair. cbn [fst snd mbind option_bind].
    rewrite Hbo3, Hba, Hbt. reflexivity.
  - split; [reflexivity|].
    match goal with |- save_data ?X = _ => set (s3 := X) end.
    assert (Hb3 : blocks s3 = blocks s) by (rewrite <- Hb; reflexivity).
    assert (Hbo3 : block_objs s3 = block_objs s) by (rewrite <- Hbo; reflexivity).
    assert (Hk3 : clusters s3 = clusters s) by (rewrite <- Hk; reflexivity).
    assert (Hco3 : cluster_objs s3 = cluster_objs s) by (rewrite <- Hco; reflexivity).
    assert (Hc3 : connections s3 = connections s) by (rewrite <- Hc; reflexivity).
    assert (Ha3 : conn_anchors s3 = conn_anchors s ++ [(a, None)])
      by (rewrite <- Ha; reflexivity).
    destruct (save_data_same _ _ Hb3 Hbo3 Hk3 Hco3) as [Hd1 Hd2].
    apply document_eq; [exact Hd1|exact Hd2|].
    unfold save_data at 1. cbn [doc_connections]. rewrite Hc3.
    apply (save_connections_grown s s3 [(a, None)] Hok Hbo3 Ha3).
Qed.

Lemma drag_onto_anchor_witness :
  exists ba bt,
    drag_outcome (run [AAddBlock 100 100; AAddBlock 400 100])
      (0%nat, ORight) (1%nat, OLeft) ba bt [mkPoint 300 120]
      [SAnchor (1%nat, OLeft); SBlock 1%nat].
Proof.
  eexists _, _.
  refine (drag_onto_anchor_commits [AAddBlock 100 100; AAddBlock 400 100]
            (0%nat, ORight) (1%nat, OLeft) _ _ [mkPoint 300 120]
            [SAnchor (1%nat, OLeft); SBlock 1%nat] _ _ _ _);
    vm_compute; reflexivity.
Defined.

Lemma loops_free_sub s s' :
  connections s' `sublist_of` connections s ->
  (forall n, n ∈ connections s -> conn_anchors s' !! n = conn_anchors s !! n) ->
  loops_free s -> loops_free s'.
Proof.
  intros Hsub Ha Hs n Hn.
  assert (n ∈ connections s) as Hin by (eapply elem_of_sublist; eauto).
  rewrite (Ha n Hin). apply Hs, Hin.
Qed.

Lemma loops_free_same s s' :
  connections s' = connections s -> conn_anchors s' = conn_anchors s ->
  loops_free s -> loops_free s'.
Proof.
  intros Hc Ha. apply loops_free_sub; [rewrite Hc; reflexivity|].
  intros n _. rewrite Ha. reflexivity.
Qed.

Lemma loops_free_step a s :
  interactive a = true -> conns_ok s -> loops_free s -> loops_free (step a s).
Proof.
  intros Hint Hok Hs. destruct a; cbn [step];
    try solve [apply (loops_free_same s);
                 [frame connections|frame conn_anchors|exact Hs]].
  - intros n Hn. cbn in Hn. apply not_elem_of_nil in Hn. contradiction.
  - destruct input; [exact Hs..|discriminate].
  - unfold deleteSelected.
    apply (fold_left_inv loops_free); [|exact Hs].
    intros t item Ht. apply (loops_free_sub t); [| |exact Ht].
    + apply delete_item_connections.
    + intros n _.
      assert (conn_anchors (delete_item item t) = conn_anchors t) as ->
        by frame conn_anchors.
      reflexivity.
  - unfold startConnection. destruct (current_connection s); [exact Hs|].
    unfold create_line_item. cbv beta iota zeta.
    apply (loops_free_sub s); [reflexivity| |exact Hs].
    intros n Hn. unfold conn_anchors.
    cbn [conn_objs set_current_connection set_conn_objs].
    rewrite map_app. apply lookup_app_l. rewrite length_map.
    destruct Hok as (HF & _). rewrite Forall_forall in HF. apply HF, Hn.
  - unfold endConnection.
    destruct (current_connection s) as [n|] eqn:Hp; [|exact Hs].
    destruct (conn_objs s !! n) as [c|] eqn:Hn; [|exact Hs].
    cbv zeta. destruct (bool_decide _) eqn:Hdiff; destruct (line_deleted c) eqn:Hdel.
    + destruct Hok as (HF & HN & Hcur). destruct (Hcur n Hp) as [Hlt Hnot].
      apply (loops_free_sub s); [reflexivity| |exact Hs].
      intros m Hm. unfold conn_anchors, upd_conn. cbn [conn_objs set_conn_objs].
      rewrite !list_lookup_fmap, list_lookup_alter_ne by (intros ->; contradiction).
      reflexivity.
    + apply bool_decide_eq_true in Hdiff.
      destruct Hok as (HF & HN & Hcur). destruct (Hcur n Hp) as [Hlt Hnot].
      match goal with |- loops_free ?X => set (s3 := X) end.
      assert (Ha3 : conn_anchors s3
                    = alter (fun p => (p.1, Some a)) n (conn_anchors s)).
      { unfold s3.
        change (conn_anchors
                  (upd_conn n (update_line_item
                                 (upd_conn n (fun c0 => mkConn (start_anchor c0) (Some a)
                                                               (line_item c0)) s) None)
                     (upd_conn n (fun c0 => mkConn (start_anchor c0) (Some a)
                                                   (line_item c0)) s))
                = alter (fun p => (p.1, Some a)) n (conn_anchors s)).
        rewrite conn_anchors_upd_conn.
        unfold conn_anchors, upd_conn. cbn [conn_objs set_conn_objs].
        apply list_fmap_alter. apply Forall_forall. intros; reflexivity. }
      intros m Hm. change (m ∈ connections s ++ [n]) in Hm.
      rewrite Ha3. apply elem_of_app in Hm as [Hm| ->%list_elem_of_singleton].
      * rewrite list_lookup_alter_ne by (intros ->; contradiction).
        apply Hs, Hm.
      * rewrite list_lookup_alter, decide_True by reflexivity.
        rewrite conn_anchors_lookup, Hn. cbn.
        eexists _, _. split; [reflexivity|exact Hdiff].
    + exact Hs.
    + apply (loops_free_same s); [frame connections|frame conn_anchors|exact Hs].
  - apply (loops_free_sub s); [| |exact Hs].
    + unfold line_mousePressEvent. destruct (bool_decide _); [|reflexivity].
      apply list_remove_sublist.
    + intros m _.
      assert (conn_anchors (line_mousePressEvent n s) = conn_anchors s) as ->
        by frame conn_anchors.
      reflexivity.
Qed.

Lemma run_interactive_loops_free actions :
  forallb interactive actions = true -> loops_free (run actions).
Proof.
  induction actions as [|a actions IH] using rev_ind; intros Hint.
  - intros n Hn. apply not_elem_of_nil in Hn. contradiction.
  - rewrite forallb_app in Hint. apply andb_prop in Hint as [Hl Ha].
    cbn in Ha. rewrite andb_true_r in Ha.
    rewrite run_snoc. apply loops_free_step; [exact Ha|apply run_conns_ok|auto].
Qed.

(** X4.  In a session that loads no document every connection of the
    editor's list is committed between anchors of two different blocks: the
    editor itself never draws a connection from a block to itself. *)
Theorem interactive_connections_join_two_blocks (actions : list Action) (n : nref) :
  forallb interactive actions = true ->
  n ∈ connections (run actions) ->
  joins_two_blocks (run actions) n.
Proof.
  intros Hint Hn.
  destruct (run_interactive_loops_free actions Hint n Hn) as (a & e & Hl & Hne).
  rewrite conn_anchors_lookup in Hl.
  destruct (conn_objs (run actions) !! n) as [c|] eqn:Hc; [|discriminate].
  cbn in Hl. exists c, e. split; [exact Hc|]. split; congruence.
Qed.

Lemma interactive_connections_witness :
  joins_two_blocks (run session_three_connected) 1%nat.
Proof.
  apply (interactive_connections_join_two_blocks session_three_connected 1%nat).
  - reflexivity.
  - apply (bool_decide_unpack _). vm_compute. exact I.
Defined.

(** *** Deleted line items are out of the list

    [scene.clear()] is followed by [connections.clear()], and a connection
    whose line is deleted is never committed: the loops over
    [self.connections] meet live line items only, so [update_line_item]
    raises in none of them. *)

Lemma line_flags_upd_conn n t p s :
  line_flags (upd_conn n (update_line_item t p) s) = line_flags s.
Proof.
  unfold line_flags, upd_conn. cbn [conn_objs set_conn_objs].
  rewrite (list_fmap_alter _ _ id); [apply list_alter_id; reflexivity|].
  apply Forall_forall. intros c _. apply line_deleted_update.
Qed.

#[local] Hint Rewrite line_flags_upd_conn : frame.

Lemma listed_live_sub s s' :
  connections s' `sublist_of` connections s ->
  (forall n, n ∈ connections s -> line_flags s' !! n = line_flags s !! n) ->
  listed_live s -> listed_live s'.
Proof.
  intros Hsub Ha Hs n Hn.
  assert (n ∈ connections s) as Hin by (eapply elem_of_sublist; eauto).
  rewrite (Ha n Hin). apply Hs, Hin.
Qed.

Lemma listed_live_same s s' :
  connections s' = connections s -> line_flags s' = line_flags s ->
  listed_live s -> listed_live s'.
Proof.
  intros Hc Ha. apply listed_live_sub; [rewrite Hc; reflexivity|].
  intros n _. rewrite Ha. reflexivity.
Qed.

Lemma listed_live_newFile s : listed_live (newFile s).
Proof. intros n Hn. cbn in Hn. apply not_elem_of_nil in Hn. contradiction. Qed.

Lemma listed_live_load_connection nd t t' :
  conns_ok t /\ listed_live t -> load_connection nd t = Ok t' ->
  conns_ok t' /\ listed_live t'.
Proof.
  intros [Hok Hs]. unfold load_connection.
  destruct (jn_start_block_id nd) as [si|]; [|discriminate].
  destruct (jn_end_block_id nd) as [ei|]; [|discriminate].
  destruct (jn_start_anchor nd) as [sa|]; [|discriminate].
  destruct (jn_end_anchor nd) as [ea|]; [|discriminate].
  cbn [getitem mbind result_bind].
  destruct (Dict.get _ _) as [sb|]; [|intros [= <-]; auto].
  destruct (Dict.get _ _) as [eb|]; [|intros [= <-]; auto].
  destruct (create_line_item _ _ _) as [cn|] eqn:E; [|discriminate].
  cbn [mbind result_bind]. cbv zeta. intros [= <-].
  split; [apply conns_ok_push, Hok|].
  intros n Hn. unfold line_flags.
  cbn [connections conn_objs set_connections set_conn_objs] in *.
  rewrite map_app.
  apply elem_of_app in Hn as [Hn| ->%list_elem_of_singleton].
  - rewrite lookup_app_l; [apply Hs, Hn|]. rewrite length_map.
    destruct Hok as (HF & _). rewrite Forall_forall in HF. apply HF, Hn.
  - rewrite lookup_app_r by (rewrite length_map; lia).
    rewrite length_map, Nat.sub_diag. cbn [map lookup list_lookup]. f_equal.
    rewrite line_deleted_update.
    unfold create_line_item in E. destruct (anchors_get _ _); [|discriminate].
    injection E as <-. reflexivity.
Qed.

Lemma listed_live_step a s :
  conns_ok s -> listed_live s -> listed_live (step a s).
Proof.
  intros Hok Hs. destruct a; cbn [step];
    try solve [apply (listed_live_same s);
                 [frame connections|frame line_flags|exact Hs]].
  - apply listed_live_newFile.
  - destruct input; [exact Hs..|].
    apply (openFile_loops_inv (fun t => conns_ok t /\ listed_live t)).
    + intros a t t' [Ht1 Ht2]. intros Hl. split.
      * revert Hl. apply load_block_inv; [| |exact Ht1];
          intros; eapply conns_ok_same; eauto.
      * revert Hl. apply load_block_inv; [| |exact Ht2];
          intros; eapply listed_live_same; eauto.
    + intros a t t' [Ht1 Ht2]. intros Hl. split.
      * revert Hl. apply load_cluster_inv; [|exact Ht1];
          intros; eapply conns_ok_same; eauto.
      * revert Hl. apply load_cluster_inv; [|exact Ht2];
          intros; eapply listed_live_same; eauto.
    + intros a t t'. apply listed_live_load_connection.
    + split; [apply conns_ok_newFile, Hok|apply listed_live_newFile].
  - unfold deleteSelected.
    apply (fold_left_inv listed_live); [|exact Hs].
    intros t item Ht. apply (listed_live_sub t); [| |exact Ht].
    + apply delete_item_connections.
    + intros n _.
      assert (line_flags (delete_item item t) = line_flags t) as ->
        by frame line_flags.
      reflexivity.
  - unfold startConnection. destruct (current_connection s); [exact Hs|].
    unfold create_line_item. cbv beta iota zeta.
    apply (listed_live_sub s); [reflexivity| |exact Hs].
    intros n Hn. unfold line_flags.
    cbn [conn_objs set_current_connection set_conn_objs].
    rewrite map_app. apply lookup_app_l. rewrite length_map.
    destruct Hok as (HF & _). rewrite Forall_forall in HF. apply HF, Hn.
  - unfold endConnection.
    destruct (current_connection s) as [n|] eqn:Hp; [|exact Hs].
    destruct (conn_objs s !! n) as [c|] eqn:Hn; [|exact Hs].
    destruct Hok as (HF & HN & Hcur). destruct (Hcur n Hp) as [Hlt Hnot].
    assert (Hflags : forall f t,
               (forall c0, line_deleted (f c0) = line_deleted c0) ->
               line_flags (upd_conn n f t) = line_flags t).
    { intros f t Hf. unfold line_flags, upd_conn. cbn [conn_objs set_conn_objs].
      rewrite (list_fmap_alter _ _ id); [apply list_alter_id; reflexivity|].
      apply Forall_forall. intros c0 _. apply Hf. }
    cbv zeta. destruct (bool_decide _) eqn:Hdiff; destruct (line_deleted c) eqn:Hdel.
    + apply (listed_live_same s); [reflexivity| |exact Hs].
      apply Hflags. reflexivity.
    + intros m Hm. change (m ∈ connections s ++ [n]) in Hm.
      match goal with |- line_flags ?X !! _ = _ =>
        assert (line_flags X = line_flags s) as -> end.
      { match goal with
        | |- line_flags (set_current_connection _ (set_connections _ ?X)) = _ =>
            change (line_flags X = line_flags s)
        end.
        rewrite line_flags_upd_conn. apply Hflags. reflexivity. }
      apply elem_of_app in Hm as [Hm| ->%list_elem_of_singleton]; [apply Hs, Hm|].
      unfold line_flags. rewrite list_lookup_fmap, Hn. cbn. rewrite Hdel. reflexivity.
    + exact Hs.
    + apply (listed_live_same s); [frame connections|frame line_flags|exact Hs].
  - apply (listed_live_sub s); [| |exact Hs].
    + unfold line_mousePressEvent. destruct (bool_decide _); [|reflexivity].
      apply list_remove_sublist.
    + intros m _.
      assert (line_flags (line_mousePressEvent n s) = line_flags s) as ->
        by frame line_flags.
      reflexivity.
Qed.

(** In every session the line items of the listed connections are live. *)
Lemma run_listed_live actions : listed_live (run actions).
Proof.
  induction actions as [|a actions IH] using rev_ind.
  - intros n Hn. apply not_elem_of_nil in Hn. contradiction.
  - rewrite run_snoc. apply listed_live_step; [apply run_conns_ok|exact IH].
Qed.

(** ** Registries and the written document *)

(** What one turn of each loading loop does, when it does not raise. *)
Lemma load_block_Ok bd s s' :
  load_block bd s = Ok s' ->
  exists b,
    b_parent b = None /\ jb_id bd = Some (block_id b) /\
    (exists v, jb_x bd = Some v /\ qreal v = Ok (px (b_pos b))) /\
    (exists v, jb_y bd = Some v /\ qreal v = Ok (py (b_pos b))) /\
    block_objs s' = block_objs s ++ [b] /\
    blocks s' = Dict.set (block_id b) (length (block_objs s)) (blocks s) /\
    cluster_objs s' = cluster_objs s /\ clusters s' = clusters s /\
    conn_objs s' = conn_objs s /\ connections s' = connections s /\
    cluster_id_counter s' = cluster_id_counter s /\
    current_connection s' = current_connection s.
Proof.
  unfold load_block.
  destruct (jb_width bd) as [w|]; [|discriminate].
  destruct (jb_height bd) as [h|]; [|discriminate].
  cbn [getitem mbind result_bind].
  destruct (qreal w) as [w'|]; [|discriminate].
  destruct (qreal h) as [h'|]; [|discriminate].
  cbn [mbind result_bind].
  destruct (jb_title bd) as [t|]; [|discriminate].
  destruct (jb_id bd) as [i|]; [|discriminate].
  destruct (jb_x bd) as [x|]; [|discriminate].
  destruct (jb_y bd) as [y|]; [|discriminate].
  cbn [getitem mbind result_bind].
  destruct (qreal x) as [x'|] eqn:Ex; [|discriminate].
  destruct (qreal y) as [y'|] eqn:Ey; [|discriminate].
  cbn [mbind result_bind]. cbv zeta. intros [= <-].
  eexists. split; [|split; [|split; [|split]]];
    [| | | |destruct (_ <=? _)%Z; repeat split; reflexivity];
    try reflexivity.
  - exists x. split; [reflexivity|exact Ex].
  - exists y. split; [reflexivity|exact Ey].
Qed.

Lemma load_cluster_Ok cd s s' :
  load_cluster cd s = Ok s' ->
  s' = s \/
  exists id cl,
    jc_id cd = Some id /\
    c_blocks cl = omap (fun bid => Dict.get bid (blocks s))
                       (default [] (jc_block_ids cd)) /\
    c_blocks cl <> [] /\ c_pos cl = origin /\
    s' = set_clusters (Dict.set id (length (cluster_objs s)) (clusters s))
           (set_cluster_objs (cluster_objs s ++ [cl]) s).
Proof.
  unfold load_cluster.
  destruct (omap _ _) as [|m ms] eqn:Hm; [intros [= <-]; left; reflexivity|].
  destruct (jc_title cd) as [t|]; [|discriminate].
  destruct (jc_id cd) as [i|]; [|discriminate].
  cbn [getitem mbind result_bind]. cbv zeta. intros [= <-].
  right. eexists _, _. split; [reflexivity|].
  split; [|split; [|split; [|reflexivity]]]; [reflexivity|discriminate|reflexivity].
Qed.

Lemma dict_del_keys_sublist {V} k (d : dict V) :
  Dict.keys (Dict.del k d) `sublist_of` Dict.keys d.
Proof.
  induction d as [|[k' v] d IH]; [constructor|]. cbn [Dict.del].
  destruct (decide (k = k')); [apply sublist_cons; reflexivity|].
  apply sublist_skip, IH.
Qed.

Lemma delete_item_clusters item s :
  Dict.keys (clusters (delete_item item s)) `sublist_of` Dict.keys (clusters s) /\
  cluster_id_counter (delete_item item s) = cluster_id_counter s.
Proof.
  split; [|frame cluster_id_counter].
  destruct item as [b|c].
  - assert (clusters (delete_item (IBlock b) s) = clusters s) as ->
      by frame clusters.
    reflexivity.
  - unfold delete_item. destruct (cluster_objs s !! c); [|reflexivity]. cbv zeta.
    destruct (fold_setParentItem None (c_blocks g) s) as (_&_&_&_&Hk&_).
    cbv zeta in Hk.
    destruct (List.find _ _); [|rewrite Hk; reflexivity].
    cbn [clusters set_clusters]. rewrite Hk. apply dict_del_keys_sublist.
Qed.

Lemma groupSelectedBlocks_clusters sel s :
  (2 <= length (selected_blocks sel))%nat ->
  clusters (groupSelectedBlocks sel s)
  = Dict.set (cluster_id_counter s) (length (cluster_objs s)) (clusters s) /\
  cluster_id_counter (groupSelectedBlocks sel s) = cluster_id_counter s + 1.
Proof.
  intros Hlen. unfold groupSelectedBlocks.
  destruct (_ <? _)%nat eqn:Hlt; [apply Nat.ltb_lt in Hlt; lia|]. cbv zeta.
  match goal with
  | |- context [fold_left ?f ?l ?s0] =>
      destruct (fold_setParentItem (Some (length (cluster_objs s))) l s0)
        as (_&_&_&_&Hk&_&_&_&_&Hn)
  end.
  cbv zeta in Hk, Hn. rewrite Hk, Hn. split; reflexivity.
Qed.

Lemma clusters_NoDup_step a s :
  NoDup (Dict.keys (clusters s)) -> NoDup (Dict.keys (clusters (step a s))).
Proof.
  intros Hs. destruct a; cbn [step];
    try solve [match goal with
               | |- NoDup (Dict.keys (clusters ?X)) =>
                   replace (clusters X) with (clusters s)
                     by (symmetry; frame clusters)
               end; exact Hs].
  - constructor.
  - destruct input; [exact Hs..|].
    apply (openFile_loops_inv (fun t => NoDup (Dict.keys (clusters t)))).
    + intros a t t' Ht (b & Hb)%load_block_Ok.
      destruct Hb as (_&_&_&_&_&_&_&->&_). exact Ht.
    + intros a t t' Ht [->|(id & cl & _ & _ & _ & _ & ->)]%load_cluster_Ok;
        [exact Ht|]. apply dict_set_NoDup, Ht.
    + intros a t t' Ht.
      apply (load_connection_inv (fun u => NoDup (Dict.keys (clusters u))));
        [|exact Ht]. auto.
    + constructor.
  - unfold deleteSelected.
    apply (fold_left_inv (fun t => NoDup (Dict.keys (clusters t)))); [|exact Hs].
    intros t item Ht. eapply sublist_NoDup; [exact Ht|].
    apply delete_item_clusters.
  - destruct (decide (2 <= length (selected_blocks sel))%nat) as [Hlen|Hlen].
    + destruct (groupSelectedBlocks_clusters sel s Hlen) as [-> _].
      apply dict_set_NoDup, Hs.
    + unfold groupSelectedBlocks.
      destruct (_ <? _)%nat eqn:Hlt; [exact Hs|apply Nat.ltb_ge in Hlt; lia].
Qed.

Lemma run_clusters_NoDup actions : NoDup (Dict.keys (clusters (run actions))).
Proof.
  induction actions as [|a actions IH] using rev_ind; [constructor|].
  rewrite run_snoc. apply clusters_NoDup_step, IH.
Qed.

Lemma save_block_ids s :
  registry_sound s ->
  map bd_id (omap (save_block s) (Dict.values (blocks s))) = Dict.keys (blocks s).
Proof.
  unfold registry_sound. generalize (blocks s) as d.
  induction d as [|[k r] d IH]; intros Hs; [reflexivity|].
  cbn [Dict.values Dict.keys map omap list_omap fst snd].
  destruct (Hs k r) as (b & Hb & Hid); [left|].
  unfold save_block at 1. rewrite Hb. cbn [mbind option_bind map bd_id].
  rewrite Hid. f_equal. apply IH. intros k' r' Hin. apply Hs. right. exact Hin.
Qed.

(** ** The cluster registry *)

Lemma clusters_below_step a s :
  interactive a = true ->
  clusters_below_counter s -> clusters_below_counter (step a s).
Proof.
  unfold clusters_below_counter.
  intros Hint Hs. destruct a; cbn [step];
    try solve [match goal with
               | |- Forall _ (Dict.keys (clusters ?X)) =>
                   replace (clusters X) with (clusters s)
                     by (symmetry; frame clusters);
                   replace (cluster_id_counter X) with (cluster_id_counter s)
                     by (symmetry; frame cluster_id_counter)
               end; exact Hs].
  - constructor.
  - destruct input; [exact Hs..|discriminate].
  - unfold deleteSelected.
    apply (fold_left_inv
             (fun t => Forall (fun k => k < cluster_id_counter t)
                              (Dict.keys (clusters t)))); [|exact Hs].
    intros t item Ht. destruct (delete_item_clusters item t) as [Hsub ->].
    apply Forall_forall. intros k Hk. rewrite Forall_forall in Ht.
    apply Ht. eapply elem_of_sublist; eauto.
  - destruct (decide (2 <= length (selected_blocks sel))%nat) as [Hlen|Hlen].
    + destruct (groupSelectedBlocks_clusters sel s Hlen) as [-> ->].
      apply dict_set_keys_Forall; [|lia].
      eapply Forall_impl; [exact Hs|]. cbn. intros; lia.
    + unfold groupSelectedBlocks.
      destruct (_ <? _)%nat eqn:Hlt; [exact Hs|apply Nat.ltb_ge in Hlt; lia].
Qed.

Lemma run_clusters_below actions :
  forallb interactive actions = true -> clusters_below_counter (run actions).
Proof.
  induction actions as [|a actions IH] using rev_ind; intros Hint.
  - constructor.
  - rewrite forallb_app in Hint. apply andb_prop in Hint as [Hl Ha].
    cbn in Ha. rewrite andb_true_r in Ha.
    rewrite run_snoc. apply clusters_below_step; auto.
Qed.

(** ** Fixed blocks *)

Lemma keeps_pinned_refl h : keeps_pinned h h.
Proof. intros r b Hb Hl. exists b. auto. Qed.

Lemma keeps_pinned_trans h1 h2 h3 :
  keeps_pinned h1 h2 -> keeps_pinned h2 h3 -> keeps_pinned h1 h3.
Proof.
  intros H12 H23 r b Hb Hl.
  destruct (H12 r b Hb Hl) as (b2 & Hb2 & Hl2 & Hp2).
  destruct (H23 r b2 Hb2 Hl2) as (b3 & Hb3 & Hl3 & Hp3).
  exists b3. split; [exact Hb3|]. split; [exact Hl3|congruence].
Qed.

Lemma keeps_pinned_alter h r f s :
  (forall b, b_locked b = true -> b_locked (f b) = true /\ b_pos (f b) = b_pos b) ->
  keeps_pinned h (block_objs s) ->
  keeps_pinned h (block_objs (upd_block r f s)).
Proof.
  intros Hf Hs. eapply keeps_pinned_trans; [exact Hs|].
  intros r' b Hb Hl. unfold upd_block. cbn [block_objs set_block_objs].
  destruct (decide (r = r')) as [->|Hne].
  - exists (f b). rewrite list_lookup_alter, decide_True, Hb by reflexivity.
    split; [reflexivity|]. apply Hf, Hl.
  - exists b. rewrite list_lookup_alter_ne by exact Hne. auto.
Qed.

Lemma keeps_pinned_app h s s' x :
  block_objs s' = block_objs s ++ x ->
  keeps_pinned h (block_objs s) -> keeps_pinned h (block_objs s').
Proof.
  intros -> Hs. eapply keeps_pinned_trans; [exact Hs|].
  intros r b Hb Hl. exists b. split; [|auto].
  apply lookup_app_l_Some, Hb.
Qed.

Ltac pinned_fun :=
  let b := fresh "b" in
  intros b ?; destruct b; split; [assumption || reflexivity|reflexivity].

(** [pinned] proves [keeps_pinned h (block_objs (op s))] from
    [keeps_pinned h (block_objs s)] for an operation that moves no locked
    block. *)
Ltac pinned_steps :=
  repeat first
    [ assumption
    | apply keeps_pinned_refl
    | progress cbv zeta
    | match goal with
      | |- keeps_pinned ?h (block_objs (fold_left ?f ?l ?s0)) =>
          apply (fold_left_inv (fun t => keeps_pinned h (block_objs t)));
          [intros ? ? ?|]
      | |- keeps_pinned _ (block_objs (match ?x with _ => _ end)) => destruct x eqn:?
      | |- keeps_pinned ?h (block_objs (upd_block ?r ?f ?X)) =>
          apply (keeps_pinned_alter h r f X); [solve [pinned_fun]|]
      | |- keeps_pinned ?h (block_objs (?g ?X)) =>
          change (keeps_pinned h (block_objs X))
      | |- keeps_pinned ?h (block_objs (?g _ ?X)) =>
          change (keeps_pinned h (block_objs X))
      | |- keeps_pinned ?h (block_objs (?g _ _ ?X)) =>
          change (keeps_pinned h (block_objs X))
      | |- keeps_pinned ?h (block_objs (?g _ _ _ ?X)) =>
          change (keeps_pinned h (block_objs X))
      | |- keeps_pinned _ (block_objs ?t) => let hd := head_of t in progress unfold hd
      end ].

Ltac pinned := solve [pinned_steps].

Lemma keeps_pinned_block_setPos h r p s :
  keeps_pinned h (block_objs s) -> keeps_pinned h (block_objs (block_setPos r p s)).
Proof.
  intros Hs. unfold block_setPos.
  destruct (block_objs s !! r) as [b|] eqn:Hb; [|exact Hs].
  destruct (b_locked b) eqn:Hl; [exact Hs|].
  rewrite updateConnectionsForBlock_block_objs.
  eapply keeps_pinned_trans; [exact Hs|].
  intros r' b' Hb' Hl'. unfold upd_block. cbn [block_objs set_block_objs].
  destruct (decide (r = r')) as [->|Hne]; [congruence|].
  exists b'. rewrite list_lookup_alter_ne by exact Hne. auto.
Qed.

Lemma keeps_pinned_step a s :
  keeps_locks a = true -> keeps_pinned (block_objs s) (block_objs (step a s)).
Proof.
  intros Ha. pose proof (keeps_pinned_refl (block_objs s)) as Hs.
  destruct a; cbn [step]; try discriminate; try pinned.
  - rewrite newFile_block_objs. exact Hs.
  - destruct input; [apply keeps_pinned_refl..|].
    apply (openFile_loops_inv (fun t => keeps_pinned (block_objs s) (block_objs t)));
      [| | |rewrite newFile_block_objs; exact Hs].
    + intros a t t' Ht (b & Hb)%load_block_Ok.
      destruct Hb as (_&_&_&_&Hb&_). eapply keeps_pinned_app; eauto.
    + intros a t t' Ht [->|(id & cl & _ & _ & _ & _ & ->)]%load_cluster_Ok;
        exact Ht.
    + intros a t t' Ht.
      apply (load_connection_inv
               (fun u => keeps_pinned (block_objs s) (block_objs u)));
        [|exact Ht]. auto.
  - unfold addBlock. cbv zeta.
    match goal with
    | |- keeps_pinned ?h (block_objs (setCurrentBlock _ ?X)) =>
        assert (keeps_pinned h (block_objs X)) as HX; [|revert HX; generalize X]
    end.
    + apply keeps_pinned_block_setPos.
      eapply keeps_pinned_app; [|exact Hs]. reflexivity.
    + intros t Ht. pinned.
  - apply keeps_pinned_block_setPos, Hs.
Qed.

Lemma keeps_pinned_steps l : forall s,
  forallb keeps_locks l = true ->
  keeps_pinned (block_objs s) (block_objs (fold_left (fun t a => step a t) l s)).
Proof.
  induction l as [|a l IH]; intros s Hl; [apply keeps_pinned_refl|].
  cbn in Hl. apply andb_prop in Hl as [Ha Hl]. cbn [fold_left].
  eapply keeps_pinned_trans; [apply keeps_pinned_step, Ha|apply IH, Hl].
Qed.

(** X5.  Once the current block is fixed, nothing the user does short of
    "unfix" moves it: after any further actions (drags of the block or of
    clusters, grouping, attaching, deleting, edits) the block object is
    still locked and its position, [pos()], is the one it had when it was
    fixed. *)
Theorem fixed_block_is_not_moved (before after : list Action) (r : bref)
  (b : GraphBlock) :
  currentBlock (run before) = Some r ->
  block_objs (run before) !! r = Some b ->
  forallb keeps_locks after = true ->
  stays_fixed before after r b.
Proof.
  intros Hcur Hb Hafter. unfold stays_fixed, run.
  rewrite fold_left_app. cbn [fold_left].
  change (fold_left (fun s a => step a s) before init) with (run before).
  apply (keeps_pinned_steps after (step AFixCurrent (run before)) Hafter r
           (set_b_locked true b)).
  - cbn [step]. unfold fixCurrent, set_locked_current. rewrite Hcur.
    unfold upd_block. cbn [block_objs set_block_objs].
    rewrite list_lookup_alter, decide_True, Hb by reflexivity. reflexivity.
  - reflexivity.
Qed.

Lemma fixed_block_witness :
  exists b, stays_fixed [AAddBlock 10 20]
              [ADragBlock 0%nat (mkPoint 5 7); AAddBlock 30 40;
               AGroupSelectedBlocks [IBlock 0%nat; IBlock 1%nat];
               ADragCluster 0%nat (mkPoint 50 0)] 0%nat b.
Proof.
  eexists.
  refine (fixed_block_is_not_moved [AAddBlock 10 20] _ 0%nat _ _ _ _);
    vm_compute; reflexivity.
Defined.

(** ** After a load *)

Lemma registered_unparented_load_block bd s s' :
  registered_unparented s -> load_block bd s = Ok s' -> registered_unparented s'.
Proof.
  unfold registered_unparented.
  intros Hs (b & Hp & _ & _ & _ & Ho & Hb & _)%load_block_Ok.
  rewrite Hb, Ho. apply dict_values_set.
  - eapply Forall_impl; [exact Hs|]. cbn. intros r (b' & Hb' & Hp').
    exists b'. split; [apply lookup_app_l_Some, Hb'|exact Hp'].
  - exists b. split; [|exact Hp]. apply list_lookup_middle. reflexivity.
Qed.

Lemma openFile_registered_unparented data s :
  registered_unparented (openFile (Parsed data) s).1.
Proof.
  apply openFile_loops_inv.
  - intros a t t' Ht Hl. eapply registered_unparented_load_block; eauto.
  - intros a t t' Ht [->|(id & cl & _ & _ & _ & _ & ->)]%load_cluster_Ok;
      exact Ht.
  - intros a t t' Ht.
    apply (load_connection_inv registered_unparented); [|exact Ht]. auto.
  - constructor.
Qed.

(** X6.  [openFile] never gives a block a parent item: after a load,
    finished or ended by an exception, every registered block is a
    top-level item written at its own position, and dragging a cluster,
    loaded or not, changes the entry of none of them. *)
Theorem loaded_blocks_are_top_level (data : JData) (s : GraphEditor) (r : bref) :
  r ∈ Dict.values (blocks (openFile (Parsed data) s).1) ->
  free_of_clusters (openFile (Parsed data) s).1 r.
Proof.
  intros Hr. pose proof (openFile_registered_unparented data s) as Hall.
  set (s' := (openFile (Parsed data) s).1) in *.
  unfold registered_unparented in Hall. rewrite Forall_forall in Hall.
  destruct (Hall r Hr) as (b & Hb & Hp).
  exists b. split; [exact Hb|]. split; [exact Hp|].
  split; [apply save_block_unparented; assumption|].
  intros c p. apply save_block_unparented; [|exact Hp].
  assert (block_objs (cluster_setPos c p s') = block_objs s') as ->
    by frame block_objs.
  exact Hb.
Qed.

Lemma loaded_blocks_witness :
  free_of_clusters (openFile (Parsed (to_json doc_with_cluster)) init).1 1%nat.
Proof.
  apply (loaded_blocks_are_top_level (to_json doc_with_cluster) init 1%nat).
  apply (bool_decide_unpack _). vm_compute. exact I.
Defined.

(** ** Deleting clusters *)

Lemma bare_blocks_setParent r p s :
  bare_blocks (upd_block r (set_b_parent p) s) = bare_blocks s.
Proof.
  unfold bare_blocks, upd_block. cbn [block_objs set_block_objs].
  rewrite (list_fmap_alter _ _ id); [apply list_alter_id; reflexivity|].
  apply Forall_forall. intros [] _. reflexivity.
Qed.

#[local] Hint Rewrite bare_blocks_setParent : frame.

Lemma bare_blocks_ids s s' :
  bare_blocks s' = bare_blocks s ->
  map block_id (block_objs s') = map block_id (block_objs s).
Proof.
  intros H. apply (f_equal (map block_id)) in H. unfold bare_blocks in H.
  rewrite !map_map in H. exact H.
Qed.

Lemma save_block_ids_of s (l : list bref) :
  map bd_id (omap (save_block s) l)
  = omap (fun r => map block_id (block_objs s) !! r) l.
Proof.
  induction l as [|r l IH]; [reflexivity|]. cbn [omap list_omap].
  unfold save_block at 1. rewrite list_lookup_fmap.
  destruct (block_objs s !! r); cbn; [f_equal|]; exact IH.
Qed.

Lemma save_connection_ids s s' n :
  conn_objs s' = conn_objs s ->
  map block_id (block_objs s') = map block_id (block_objs s) ->
  save_connection s' n = save_connection s n.
Proof.
  intros Hc Hb. unfold save_connection. rewrite Hc.
  destruct (conn_objs s !! n) as [c|]; [|reflexivity]. cbn [mbind option_bind].
  destruct (end_anchor c) as [e|]; [|reflexivity]. cbn [mbind option_bind].
  pose proof (f_equal (fun l => l !! (start_anchor c).1) Hb) as H1.
  pose proof (f_equal (fun l => l !! e.1) Hb) as H2.
  cbn beta in H1, H2. rewrite !list_lookup_fmap in H1, H2.
  destruct (block_objs s' !! (start_anchor c).1), (block_objs s !! (start_anchor c).1);
    try discriminate; [|reflexivity].
  cbn [mbind option_bind].
  destruct (block_objs s' !! e.1), (block_objs s !! e.1);
    try discriminate; [|reflexivity].
  cbn in H1, H2 |- *. congruence.
Qed.

Lemma deleteSelected_clusters_frame {T} (proj : GraphEditor -> T) :
  (forall c t, proj (delete_item (ICluster c) t) = proj t) ->
  forall cs s, proj (deleteSelected (ICluster <$> cs) s) = proj s.
Proof.
  intros Hone. unfold deleteSelected.
  induction cs as [|c cs IH]; intros s; [reflexivity|].
  cbn [fmap list_fmap fold_left]. rewrite IH. apply Hone.
Qed.

(** X7.  Deleting clusters deletes nothing else: whatever clusters are
    selected, the block registry and the connection list stay as they are,
    the block objects change in their parent links only, and the written
    document keeps its block ids and all its connections. *)
Theorem deleting_clusters_keeps_blocks_and_connections (cs : list cref)
  (s : GraphEditor) :
  blocks (deleteSelected (ICluster <$> cs) s) = blocks s /\
  connections (deleteSelected (ICluster <$> cs) s) = connections s /\
  bare_blocks (deleteSelected (ICluster <$> cs) s) = bare_blocks s /\
  block_ids (save_data (deleteSelected (ICluster <$> cs) s))
  = block_ids (save_data s) /\
  doc_connections (save_data (deleteSelected (ICluster <$> cs) s))
  = doc_connections (save_data s).
Proof.
  assert (Hb : blocks (deleteSelected (ICluster <$> cs) s) = blocks s).
  { apply (deleteSelected_clusters_frame blocks). intros c t. frame blocks. }
  assert (Hc : connections (deleteSelected (ICluster <$> cs) s) = connections s).
  { apply (deleteSelected_clusters_frame connections). intros c t.
    frame connections. }
  assert (Ho : conn_objs (deleteSelected (ICluster <$> cs) s) = conn_objs s).
  { apply (deleteSelected_clusters_frame conn_objs). intros c t. frame conn_objs. }
  assert (Hbare : bare_blocks (deleteSelected (ICluster <$> cs) s) = bare_blocks s).
  { apply (deleteSelected_clusters_frame bare_blocks). intros c t.
    frame bare_blocks. }
  pose proof (bare_blocks_ids _ _ Hbare) as Hids.
  split; [exact Hb|]. split; [exact Hc|]. split; [exact Hbare|]. split.
  - unfold block_ids, save_data. cbn [doc_blocks].
    rewrite !save_block_ids_of, Hb, Hids. reflexivity.
  - unfold save_data. cbn [doc_connections]. rewrite Hc.
    apply omap_ext_elem. intros n _. apply save_connection_ids; assumption.
Qed.

(** ** Clicking a connection, adding a block *)

Lemma list_remove_NoDup n l :
  NoDup l -> list_remove n l = List.filter (fun m => negb (bool_decide (m = n))) l.
Proof.
  induction 1 as [|m l Hm Hl IH]; [reflexivity|]. cbn [list_remove List.filter].
  destruct (decide (n = m)) as [->|Hne].
  - rewrite bool_decide_eq_true_2 by reflexivity. cbn [negb].
    symmetry. apply filter_all. intros k Hk.
    rewrite bool_decide_eq_false_2; [reflexivity|]. intros ->. contradiction.
  - rewrite bool_decide_eq_false_2 by congruence. cbn [negb]. f_equal. exact IH.
Qed.

(** X8.  In every session a click on the line of a connection removes that
    connection from the editor's list and no other, keeps the order of the
    rest, and changes nothing else that is written: the blocks and clusters
    of the document stay, and its connections are those of the remaining
    list. *)
Theorem line_click_removes_that_connection (actions : list Action) (n : nref) :
  connections (line_mousePressEvent n (run actions))
  = List.filter (fun m => negb (bool_decide (m = n))) (connections (run actions)) /\
  doc_blocks (save_data (line_mousePressEvent n (run actions)))
  = doc_blocks (save_data (run actions)) /\
  doc_clusters (save_data (line_mousePressEvent n (run actions)))
  = doc_clusters (save_data (run actions)) /\
  doc_connections (save_data (line_mousePressEvent n (run actions)))
  = omap (save_connection (run actions))
         (List.filter (fun m => negb (bool_decide (m = n)))
                      (connections (run actions))).
Proof.
  destruct (run_conns_ok actions) as (_ & Hnd & _).
  set (s := run actions) in *.
  assert (Hc : connections (line_mousePressEvent n s)
               = List.filter (fun m => negb (bool_decide (m = n))) (connections s)).
  { unfold line_mousePressEvent. destruct (bool_decide (n ∈ connections s)) eqn:Hin.
    - cbn [connections set_connections]. apply list_remove_NoDup, Hnd.
    - apply bool_decide_eq_false in Hin. symmetry. apply filter_all.
      intros k Hk. rewrite bool_decide_eq_false_2; [reflexivity|].
      intros ->. contradiction. }
  assert (Hs : block_objs (line_mousePressEvent n s) = block_objs s)
    by frame block_objs.
  destruct (save_data_same s (line_mousePressEvent n s)) as [Hd1 Hd2];
    [frame blocks|exact Hs|frame clusters|frame cluster_objs|].
  split; [exact Hc|]. split; [exact Hd1|]. split; [exact Hd2|].
  unfold save_data at 1. cbn [doc_connections]. rewrite Hc.
  apply omap_ext_elem. intros m _. apply save_connection_same; [exact Hs|].
  assert (conn_anchors (line_mousePressEvent n s) = conn_anchors s) as ->
    by frame conn_anchors.
  reflexivity.
Qed.

Lemma addBlock_state x y s :
  let b := set_b_pos (mkPoint (inject_Z x) (inject_Z y))
             (new_GraphBlock (mkRect 0 0 150 80) "Новий блок" (block_id_counter s)) in
  block_objs (addBlock x y s) = block_objs s ++ [b] /\
  blocks (addBlock x y s)
  = Dict.set (block_id_counter s) (length (block_objs s)) (blocks s) /\
  cluster_objs (addBlock x y s) = cluster_objs s /\
  clusters (addBlock x y s) = clusters s.
Proof.
  intros b. split; [|repeat split].
  - unfold addBlock. cbv zeta.
    match goal with
    | |- block_objs (setCurrentBlock _ ?X) = _ =>
        replace (block_objs (setCurrentBlock (length (block_objs s)) X))
          with (block_objs X) by (symmetry; frame block_objs)
    end.
    unfold block_setPos. cbn [block_objs set_block_id_counter set_blocks set_block_objs].
    rewrite list_lookup_middle by reflexivity. cbn [b_locked new_GraphBlock].
    unfold new_GraphBlock, updateAnchors. cbn [b_locked set_b_anchors].
    rewrite updateConnectionsForBlock_block_objs.
    unfold upd_block. cbn [block_objs set_block_id_counter set_blocks set_block_objs].
    rewrite alter_app_r_alt, Nat.sub_diag by lia. reflexivity.
  - frame blocks.
  - frame cluster_objs.
  - frame clusters.
Qed.

(** X9.  In every session [addBlock] adds exactly one entry to the blocks
    of the written document, after those it had and leaving them as they
    were: a white, unlocked 150 x 80 block with an empty content, at the
    position drawn, under the id that was the block counter. *)
Theorem addBlock_appends_one_block_entry (actions : list Action) (x y : Z) :
  doc_blocks (save_data (addBlock x y (run actions)))
  = doc_blocks (save_data (run actions)) ++
    [mkBlockData (block_id_counter (run actions)) "Новий блок" ""
       (inject_Z x) (inject_Z y) 150 80 "#ffffff" false].
Proof.
  destruct (run_registry_ok actions) as (Hnd & Hsound & Hlt).
  set (s := run actions) in *.
  destruct (addBlock_state x y s) as (Ho & Hb & Hco & Hk). cbv zeta in Ho.
  assert (Hfresh : block_id_counter s ∉ Dict.keys (blocks s)).
  { intros Hin. rewrite Forall_forall in Hlt. specialize (Hlt _ Hin). lia. }
  rewrite (dict_set_fresh _ _ _ Hfresh) in Hb.
  unfold save_data. cbn [doc_blocks]. rewrite Hb.
  unfold Dict.values. rewrite map_app, omap_app. cbn [map snd]. f_equal.
  - apply omap_ext_elem. intros r Hr.
    apply list_elem_of_fmap in Hr as ([k r'] & -> & Hin). cbn [snd].
    destruct (Hsound k r' Hin) as (b & Hl & _).
    unfold save_block, scenePos. rewrite Ho, Hco.
    rewrite (lookup_app_l_Some _ _ _ _ Hl), Hl. reflexivity.
  - cbn [omap list_omap].
    erewrite save_block_unparented;
      [|rewrite Ho; apply list_lookup_middle; reflexivity|reflexivity].
    reflexivity.
Qed.

(** ** Cluster rects *)

Lemma positive_not_null r : positive r -> isNull r = false.
Proof.
  intros [Hw _]. unfold isNull.
  destruct (Qeq_bool (rw r) 0) eqn:E; [|reflexivity].
  apply Qeq_bool_iff in E. rewrite E in Hw. apply Qlt_irrefl in Hw. contradiction.
Qed.

Lemma positive_lo x w : (0 < w)%Q -> lo x w = x.
Proof.
  intros Hw. unfold lo, Qltb.
  destruct (Qle_bool 0 w) eqn:E; [reflexivity|].
  apply Qlt_le_weak, Qle_bool_iff in Hw. congruence.
Qed.

Lemma positive_hi x w : (0 < w)%Q -> hi x w = (x + w)%Q.
Proof.
  intros Hw. unfold hi, Qltb.
  destruct (Qle_bool 0 w) eqn:E; [reflexivity|].
  apply Qlt_le_weak, Qle_bool_iff in Hw. congruence.
Qed.

Lemma united_positive r1 r2 :
  positive r1 -> positive r2 ->
  positive (united r1 r2) /\ encloses 0 (united r1 r2) r1 /\
  encloses 0 (united r1 r2) r2.
Proof.
  intros H1 H2. unfold united.
  rewrite (positive_not_null r1 H1), (positive_not_null r2 H2).
  destruct H1 as [Hw1 Hh1], H2 as [Hw2 Hh2].
  rewrite !positive_lo, !positive_hi by assumption. cbv zeta.
  unfold positive, encloses. cbn [rx ry rw rh].
  pose proof (Q.le_min_l (rx r1) (rx r2)). pose proof (Q.le_min_r (rx r1) (rx r2)).
  pose proof (Q.le_min_l (ry r1) (ry r2)). pose proof (Q.le_min_r (ry r1) (ry r2)).
  pose proof (Q.le_max_l (rx r1 + rw r1) (rx r2 + rw r2)).
  pose proof (Q.le_max_r (rx r1 + rw r1) (rx r2 + rw r2)).
  pose proof (Q.le_max_l (ry r1 + rh r1) (ry r2 + rh r2)).
  pose proof (Q.le_max_r (ry r1 + rh r1) (ry r2 + rh r2)).
  repeat split; lra.
Qed.

Lemma encloses_trans r1 r2 r3 m :
  encloses 0 r1 r2 -> encloses m r2 r3 -> encloses m r1 r3.
Proof. unfold encloses. intros (?&?&?&?) (?&?&?&?). repeat split; lra. Qed.

Lemma encloses_refl r : encloses 0 r r.
Proof. unfold encloses. repeat split; lra. Qed.

Lemma fold_united_encloses (rs : list QRectF) : forall acc,
  positive acc -> Forall positive rs ->
  let u := fold_left united rs acc in
  positive u /\ encloses 0 u acc /\ forall r, r ∈ rs -> encloses 0 u r.
Proof.
  induction rs as [|r rs IH]; intros acc Hacc Hrs; cbn [fold_left].
  - split; [exact Hacc|]. split; [apply encloses_refl|].
    intros r Hr. apply not_elem_of_nil in Hr. contradiction.
  - apply Forall_cons in Hrs as [Hr Hrs].
    destruct (united_positive acc r Hacc Hr) as (Hu & Hua & Hur).
    destruct (IH (united acc r) Hu Hrs) as (Hp & He & Hall).
    split; [exact Hp|]. split; [eapply encloses_trans; eauto|].
    intros r' [->|Hin]%elem_of_cons; [eapply encloses_trans; eauto|auto].
Qed.

Lemma sized_positive s b : sized b -> positive (block_sceneBoundingRect s b).
Proof.
  intros [Hw Hh]. unfold positive, block_sceneBoundingRect, translated,
    boundingRect, adjust, PEN_HALF_WIDTH. cbn [rw rh]. split; lra.
Qed.

Lemma computeBoundingRect_encloses s bs b :
  Forall sized bs -> b ∈ bs ->
  encloses 10 (computeBoundingRect s bs) (block_sceneBoundingRect s b).
Proof.
  intros Hbs Hb. destruct bs as [|b0 rest]; [apply not_elem_of_nil in Hb; contradiction|].
  unfold computeBoundingRect.
  apply Forall_cons in Hbs as [H0 Hrest].
  assert (fold_left (fun rect blk => united rect (block_sceneBoundingRect s blk))
                    rest (block_sceneBoundingRect s b0)
          = fold_left united (map (block_sceneBoundingRect s) rest)
                      (block_sceneBoundingRect s b0)) as ->.
  { clear. generalize (block_sceneBoundingRect s b0) as acc.
    induction rest as [|x rest IH]; intros acc; [reflexivity|].
    cbn [fold_left map]. apply IH. }
  destruct (fold_united_encloses (map (block_sceneBoundingRect s) rest)
              (block_sceneBoundingRect s b0)) as (_ & He0 & Hall).
  { apply sized_positive, H0. }
  { apply Forall_fmap. eapply Forall_impl; [exact Hrest|].
    intros x Hx. apply sized_positive, Hx. }
  cbv zeta in He0, Hall.
  set (u := fold_left united _ _) in *.
  assert (encloses 0 u (block_sceneBoundingRect s b)) as (?&?&?&?).
  { apply elem_of_cons in Hb as [->|Hin]; [exact He0|].
    apply Hall. apply list_elem_of_fmap. exists b. auto. }
  unfold encloses, adjust. cbn [rx ry rw rh]. repeat split; lra.
Qed.

(** X10.  The rect of a new cluster surrounds its blocks.  In every session,
    when two or more blocks are grouped that are top-level items with
    whole-number positions and whole-number sizes that are not negative, the
    cluster made of them sits at the origin, the blocks become its children
    where they were, and the scene bounding rect that each of them has after
    the grouping lies within the cluster's rect, at least 10 away from each
    of its edges. *)
Theorem new_cluster_encloses_its_blocks (actions : list Action) (sel : list Item)
  (r : bref) :
  (2 <= length (selected_blocks sel))%nat ->
  Forall on_grid (deref_blocks (run actions) (selected_blocks sel)) ->
  r ∈ selected_blocks sel ->
  (r < length (block_objs (run actions)))%nat ->
  grouped_within (run actions) sel r.
Proof.
  intros Hlen Hgrid Hr Hlt. set (s := run actions) in *.
  destruct (lookup_lt_is_Some_2 _ _ Hlt) as [b Hb].
  assert (Hin : b ∈ deref_blocks s (selected_blocks sel)).
  { unfold deref_blocks. apply list_elem_of_omap. exists r. auto. }
  assert (Hsized : Forall sized (deref_blocks s (selected_blocks sel))).
  { eapply Forall_impl; [exact Hgrid|]. intros x Hx. apply Hx. }
  rewrite Forall_forall in Hgrid. destruct (Hgrid b Hin) as (Hpar & _).
  pose proof (computeBoundingRect_encloses s _ b Hsized Hin) as Henc.
  unfold grouped_within. cbv zeta. unfold groupSelectedBlocks.
  destruct (_ <? _)%nat eqn:E; [apply Nat.ltb_lt in E; lia|]. cbv zeta.
  match goal with
  | |- context [fold_left ?f ?l ?s0] =>
      destruct (fold_setParentItem (Some (length (cluster_objs s))) l s0)
        as (Hbo & Hco & _);
      set (s' := fold_left f l s0) in *
  end.
  cbv zeta in Hbo, Hco.
  cbn [block_objs cluster_objs set_cluster_id_counter set_clusters set_cluster_objs]
    in Hbo, Hco.
  assert (Hcl : cluster_objs s' !! length (cluster_objs s)
                = Some (new_GraphCluster s (selected_blocks sel)
                          ("Кластер " +:+ pretty (cluster_id_counter s)))).
  { rewrite Hco. apply list_lookup_middle. reflexivity. }
  assert (Hb' : block_objs s' !! r
                = Some (set_b_parent (Some (length (cluster_objs s))) b)).
  { rewrite Hbo, lookup_fold_alter by reflexivity.
    rewrite bool_decide_eq_true_2 by exact Hr. rewrite Hb. reflexivity. }
  eexists _, _. split; [exact Hcl|]. split; [reflexivity|].
  split; [exact Hb'|]. split; [reflexivity|].
  unfold new_GraphCluster. cbn [c_rect].
  revert Henc. unfold block_sceneBoundingRect, scenePos.
  cbn [b_parent set_b_parent b_pos b_rect]. rewrite Hpar, Hcl.
  unfold new_GraphCluster. cbn [c_pos].
  unfold encloses, translated, padd, origin. cbn [rx ry rw rh px py].
  intros (?&?&?&?). repeat split; lra.
Qed.

Lemma new_cluster_witness :
  grouped_within (run [AAddBlock 100 100; AAddBlock 400 100])
    [IBlock 0%nat; IBlock 1%nat] 1%nat.
Proof.
  refine (new_cluster_encloses_its_blocks [AAddBlock 100 100; AAddBlock 400 100]
            [IBlock 0%nat; IBlock 1%nat] 1%nat _ _ _ _).
  - vm_compute. lia.
  - assert (Hw : forall n : Z, Z.abs n <= 2 ^ 40 -> whole (inject_Z n)).
    { intros n Hn. exists n. split; [exact Hn|reflexivity]. }
    vm_compute deref_blocks.
    repeat constructor; try discriminate;
      first [apply (Hw 100) | apply (Hw 400) | apply (Hw 150) | apply (Hw 80)];
      vm_compute; discriminate.
  - apply (bool_decide_unpack _). vm_compute. exact I.
  - vm_compute. lia.
Defined.

(** ** Loading a malformed document *)








(** An integer that is no double does not come through the conversion: it
    is rounded, as 2^53 + 1 is to 2^53, or refused, as 10^400 is, and then
    the load ends with [TypeError] before the block is registered. *)
Lemma load_converts_integers :
  (b_pos <$> block_objs (openFile (Parsed (blocks_only [block_at_int (2 ^ 53 + 1)]))
                                  init).1 !! 0%nat)
  = Some (mkPoint (inject_Z (2 ^ 53)) 0) /\
  openFile (Parsed (blocks_only [block_at_int (10 ^ 400)])) init
  = (init, Some TypeError).
Proof. split; vm_compute; reflexivity. Qed.

(** ** Attaching *)

Lemma cluster_frames_set_c_blocks c (f : GraphCluster -> GraphCluster) s :
  (forall cl, c_pos (f cl) = c_pos cl /\ c_rect (f cl) = c_rect cl) ->
  cluster_frames (upd_cluster c f s) = cluster_frames s.
Proof.
  intros Hf. unfold cluster_frames, upd_cluster.
  cbn [cluster_objs set_cluster_objs].
  rewrite (list_fmap_alter _ _ id); [apply list_alter_id; reflexivity|].
  apply Forall_forall. intros cl _. destruct (Hf cl) as [-> ->]. reflexivity.
Qed.

Lemma attach_block_frames c rect r s :
  cluster_frames (attach_block c rect r s) = cluster_frames s /\
  bare_blocks (attach_block c rect r s) = bare_blocks s /\
  blocks (attach_block c rect r s) = blocks s /\
  currentCluster (attach_block c rect r s) = currentCluster s.
Proof.
  split; [|split; [|split]].
  - unfold attach_block. destruct (block_objs s !! r) as [b|]; [|reflexivity].
    destruct (b_parent b); [reflexivity|].
    destruct (contains _ _); [|reflexivity]. cbv zeta.
    rewrite cluster_frames_set_c_blocks; [reflexivity|].
    intros cl. destruct (bool_decide _); split; reflexivity.
  - frame bare_blocks.
  - frame blocks.
  - frame currentCluster.
Qed.

Lemma fold_fixed {A} (f : GraphEditor -> A -> GraphEditor) (l : list A) s :
  (forall a, a ∈ l -> f s a = s) -> fold_left f l s = s.
Proof.
  induction l as [|a l IH]; intros H; [reflexivity|]. cbn [fold_left].
  rewrite (H a) by left. apply IH. intros a' Ha'. apply H. right. exact Ha'.
Qed.

(** X12.  [attachClusterBlocks] is idempotent: a second press of "attach"
    right after the first changes nothing, since every registered block
    that was free and inside the current cluster's rect has been attached
    by the first, and those outside are outside still. *)
Theorem attachClusterBlocks_idempotent (s : GraphEditor) :
  attachClusterBlocks (attachClusterBlocks s) = attachClusterBlocks s.
Proof.
  destruct (currentCluster s) as [c|] eqn:Hcur;
    [|unfold attachClusterBlocks; rewrite Hcur; cbn; rewrite Hcur; reflexivity].
  destruct (cluster_objs s !! c) as [cl|] eqn:Hcl;
    [|unfold attachClusterBlocks; rewrite Hcur, Hcl; cbn; rewrite Hcur, Hcl;
      reflexivity].
  set (rect := cluster_sceneBoundingRect cl).
  set (l := Dict.values (blocks s)).
  assert (Hs' : attachClusterBlocks s
                = fold_left (fun acc r => attach_block c rect r acc) l s).
  { unfold attachClusterBlocks. rewrite Hcur, Hcl. reflexivity. }
  rewrite Hs'. set (s' := fold_left _ l s) in *.
  assert (Hinv : cluster_frames s' = cluster_frames s /\
                 bare_blocks s' = bare_blocks s /\ blocks s' = blocks s /\
                 currentCluster s' = currentCluster s).
  { unfold s'.
    apply (fold_left_inv
             (fun t => cluster_frames t = cluster_frames s /\
                       bare_blocks t = bare_blocks s /\ blocks t = blocks s /\
                       currentCluster t = currentCluster s)); [|auto].
    intros t r (H1 & H2 & H3 & H4).
    destruct (attach_block_frames c rect r t) as (-> & -> & -> & ->). auto. }
  destruct Hinv as (Hfr & Hbare & Hb & Hc).
  assert (exists cl', cluster_objs s' !! c = Some cl' /\
                      cluster_sceneBoundingRect cl' = rect) as (cl' & Hcl' & Hrect).
  { pose proof (f_equal (fun x => x !! c) Hfr) as Hl. cbn beta in Hl.
    unfold cluster_frames in Hl. rewrite !list_lookup_fmap, Hcl in Hl.
    destruct (cluster_objs s' !! c) as [cl'|]; [|discriminate].
    exists cl'. split; [reflexivity|]. cbn in Hl. injection Hl as Hp Hr.
    unfold rect, cluster_sceneBoundingRect. rewrite Hp, Hr. reflexivity. }
  unfold attachClusterBlocks at 1. rewrite Hc, Hcur, Hcl', Hrect, Hb. fold l.
  apply fold_fixed. intros r Hr.
  unfold attach_block.
  destruct (block_objs s' !! r) as [b'|] eqn:Hb'; [|reflexivity].
  destruct (b_parent b') eqn:Hp'; [reflexivity|].
  assert (exists b, block_objs s !! r = Some b) as [b Hbs].
  { pose proof (f_equal (fun x => x !! r) Hbare) as Hl. cbn beta in Hl.
    unfold bare_blocks in Hl. rewrite !list_lookup_fmap, Hb' in Hl.
    destruct (block_objs s !! r) as [b|]; [eauto|discriminate]. }
  destruct (attach_fold_frame c rect l s r b Hbs) as [_ Hafter].
  cbv zeta in Hafter. fold s' in Hafter. rewrite Hb' in Hafter.
  injection Hafter as Hafter.
  rewrite (bool_decide_eq_true_2 (r ∈ l) Hr) in Hafter. cbn [andb] in Hafter.
  destruct (bool_decide (b_parent b = None)) eqn:Hpb.
  - destruct (contains rect (b_pos b)) eqn:Hin; cbn [andb] in Hafter.
    + subst b'. discriminate.
    + subst b'. rewrite (scenePos_unparented s' b Hp'), Hin. reflexivity.
  - cbn [andb] in Hafter. subst b'.
    apply bool_decide_eq_false in Hpb. contradiction.
Qed.

(** ** The edit panel *)

Lemma panel_pinned_step a s :
  keeps_edit_lock a = true -> editLocked s = true -> panel_pinned s (step a s).
Proof.
  intros Ha Hl. unfold panel_pinned.
  destruct a; cbn [step]; try discriminate;
    try solve [split; [transitivity (editLocked s); [frame editLocked|exact Hl]
                      |split; [frame currentBlock|frame currentCluster]]].
  - destruct input; try discriminate; auto.
  - unfold addBlock. cbv zeta.
    match goal with
    | |- context [setCurrentBlock ?r ?X] =>
        assert (HX : editLocked X = true)
          by (transitivity (editLocked s); [frame editLocked|exact Hl]);
        unfold setCurrentBlock; rewrite HX
    end.
    split; [transitivity (editLocked s); [frame editLocked|exact Hl]
           |split; [frame currentBlock|frame currentCluster]].
  - unfold setCurrentBlock. rewrite Hl. auto.
  - unfold setCurrentCluster. rewrite Hl. auto.
  - destruct locked; [|discriminate]. auto.
  - destruct visible; [|discriminate]. auto.
Qed.

(** X13.  While "lock editing" is on, the edit panel keeps its object:
    whatever is pressed, added, grouped, deleted or dragged, the current
    block and the current cluster stay what they were, until the lock is
    unticked, the dock is hidden, or the model is cleared by "new" or by a
    load.  In particular, with the lock on and nothing current (as after
    "new"), nothing becomes current. *)
Theorem edit_lock_pins_the_panel (l : list Action) (s : GraphEditor) :
  editLocked s = true -> forallb keeps_edit_lock l = true ->
  panel_pinned s (fold_left (fun t a => step a t) l s).
Proof.
  revert s. induction l as [|a l IH]; intros s Hl Hall; [repeat split; auto|].
  cbn in Hall. apply andb_prop in Hall as [Ha Hall]. cbn [fold_left].
  destruct (panel_pinned_step a s Ha Hl) as (Hl1 & Hb1 & Hc1).
  destruct (IH (step a s) Hl1 Hall) as (Hl2 & Hb2 & Hc2).
  repeat split; congruence.
Qed.

Lemma edit_lock_witness :
  panel_pinned (run [AAddBlock 10 20; ALockToggled true])
    (fold_left (fun t a => step a t)
       [AAddBlock 30 40; APressBlock 1%nat; APressCluster 0%nat]
       (run [AAddBlock 10 20; ALockToggled true])).
Proof.
  apply (edit_lock_pins_the_panel
           [AAddBlock 30 40; APressBlock 1%nat; APressCluster 0%nat]
           (run [AAddBlock 10 20; ALockToggled true])); reflexivity.
Defined.

Lemma map_upd_block {T} (g : GraphBlock -> T) r f s :
  (forall b, g (f b) = g b) ->
  map g (block_objs (upd_block r f s)) = map g (block_objs s).
Proof.
  intros Hg. unfold upd_block. cbn [block_objs set_block_objs].
  rewrite (list_fmap_alter _ _ id); [apply list_alter_id; reflexivity|].
  apply Forall_forall. intros b _. apply Hg.
Qed.

Lemma map_upd_cluster {T} (g : GraphCluster -> T) c f s :
  (forall cl, g (f cl) = g cl) ->
  map g (cluster_objs (upd_cluster c f s)) = map g (cluster_objs s).
Proof.
  intros Hg. unfold upd_cluster. cbn [cluster_objs set_cluster_objs].
  rewrite (list_fmap_alter _ _ id); [apply list_alter_id; reflexivity|].
  apply Forall_forall. intros b _. apply Hg.
Qed.

Lemma lookup_upd_block_ne r r' f s :
  r <> r' -> block_objs (upd_block r f s) !! r' = block_objs s !! r'.
Proof. intros Hne. apply list_lookup_alter_ne, Hne. Qed.

Lemma lookup_upd_cluster_ne c c' f s :
  c <> c' -> cluster_objs (upd_cluster c f s) !! c' = cluster_objs s !! c'.
Proof. intros Hne. apply list_lookup_alter_ne, Hne. Qed.

Ltac edit_frame :=
  repeat first
    [ reflexivity
    | rewrite map_upd_block by (intros []; reflexivity)
    | rewrite map_upd_cluster by (intros []; reflexivity)
    | rewrite lookup_upd_block_ne by congruence
    | rewrite lookup_upd_cluster_ne by congruence
    | match goal with
      | |- context [block_objs (upd_cluster ?c ?f ?X)] =>
          change (block_objs (upd_cluster c f X)) with (block_objs X)
      | |- context [cluster_objs (upd_block ?r ?f ?X)] =>
          change (cluster_objs (upd_block r f X)) with (cluster_objs X)
      end ].

(** X14.  The edit panel changes the object it shows and nothing else:
    "fix", "unfix", "colour" and "save" leave the registries, the
    connections and every block and cluster other than the current one as
    they are, and move and reparent nothing, the current object
    included. *)
Theorem panel_edits_only_the_current_object (a : Action) (s : GraphEditor) :
  edits_current a = true -> only_current_changed s (step a s).
Proof.
  intros Ha. unfold only_current_changed.
  destruct a; try discriminate; cbn [step].
  - unfold fixCurrent, set_locked_current.
    destruct (currentBlock s) as [r|]; [|destruct (currentCluster s) as [c|]];
      repeat split; intros; edit_frame.
  - unfold unfixCurrent, set_locked_current.
    destruct (currentBlock s) as [r|]; [|destruct (currentCluster s) as [c|]];
      repeat split; intros; edit_frame.
  - unfold changeColor. destruct color as [name|]; [|repeat split; reflexivity].
    cbv zeta.
    destruct (currentBlock s) as [r|] eqn:Hb;
      [change (currentCluster (upd_block r (set_b_color name) s))
         with (currentCluster s)|];
      destruct (currentCluster s) as [c|] eqn:Hc;
      repeat split; intros; edit_frame.
  - unfold saveEdit.
    destruct (currentBlock s) as [r|] eqn:Hb.
    + destruct (block_objs s !! r) as [b|]; [|repeat split; reflexivity].
      cbv zeta. repeat split; intros; edit_frame.
    + destruct (currentCluster s) as [c|] eqn:Hc; [|repeat split; reflexivity].
      destruct (cluster_objs s !! c) as [cl|]; [|repeat split; reflexivity].
      cbv zeta. repeat split; intros; edit_frame.
Qed.

Lemma panel_edits_witness :
  only_current_changed (run session_cluster_selected)
    (step (AChangeColor (Some "#ff0000")) (run session_cluster_selected)).
Proof.
  apply (panel_edits_only_the_current_object (AChangeColor (Some "#ff0000"))
           (run session_cluster_selected)).
  reflexivity.
Defined.

(** ** What a load leaves, whatever was open *)

Lemma same_block_extends t t0 t' t0' r r0 :
  extends t t' -> extends t0 t0' -> same_block t t0 r r0 -> same_block t' t0' r r0.
Proof.
  intros ([x Hx] & _) ([x0 Hx0] & _) (b & Hb & Hb0 & Hp).
  exists b. rewrite Hx, Hx0.
  split; [apply lookup_app_l_Some, Hb|]. split; [apply lookup_app_l_Some, Hb0|exact Hp].
Qed.

Lemma same_anchor_extends t t0 t' t0' a a0 :
  extends t t' -> extends t0 t0' -> same_anchor t t0 a a0 -> same_anchor t' t0' a a0.
Proof.
  intros He He0 [Hb Ho]. split; [eapply same_block_extends; eauto|exact Ho].
Qed.

Lemma same_cluster_extends t t0 t' t0' c c0 :
  extends t t' -> extends t0 t0' ->
  same_cluster t t0 c c0 -> same_cluster t' t0' c c0.
Proof.
  intros He He0 (cl & cl0 & Hc & Hc0 & H1 & H2 & H3 & H4 & H5 & Hm).
  pose proof He as (_ & [y Hy] & _). pose proof He0 as (_ & [y0 Hy0] & _).
  exists cl, cl0. rewrite Hy, Hy0.
  split; [apply lookup_app_l_Some, Hc|]. split; [apply lookup_app_l_Some, Hc0|].
  repeat (split; [assumption|]).
  eapply Forall2_impl; [exact Hm|]. intros r r0. apply same_block_extends; assumption.
Qed.

Lemma same_conn_extends t t0 t' t0' n n0 :
  extends t t' -> extends t0 t0' -> same_conn t t0 n n0 -> same_conn t' t0' n n0.
Proof.
  intros He He0 (cn & cn0 & Hn & Hn0 & Hs & Hen & Hl).
  pose proof He as (_ & _ & [z Hz]). pose proof He0 as (_ & _ & [z0 Hz0]).
  exists cn, cn0. rewrite Hz, Hz0.
  split; [apply lookup_app_l_Some, Hn|]. split; [apply lookup_app_l_Some, Hn0|].
  split; [eapply same_anchor_extends; eauto|]. split; [|exact Hl].
  destruct Hen; constructor. eapply same_anchor_extends; eauto.
Qed.

Lemma same_content_extends t t0 t' t0' :
  extends t t' -> extends t0 t0' -> same_content t t0 ->
  Forall2 (same_entry (same_block t' t0')) (blocks t) (blocks t0) /\
  Forall2 (same_entry (same_cluster t' t0')) (clusters t) (clusters t0) /\
  Forall2 (same_conn t' t0') (connections t) (connections t0).
Proof.
  intros He He0 (Hb & Hc & Hn & _). split; [|split].
  - eapply Forall2_impl; [exact Hb|]. intros kv kv0 [Hk Hv].
    split; [exact Hk|]. eapply same_block_extends; eauto.
  - eapply Forall2_impl; [exact Hc|]. intros kv kv0 [Hk Hv].
    split; [exact Hk|]. eapply same_cluster_extends; eauto.
  - eapply Forall2_impl; [exact Hn|]. intros n n0. apply same_conn_extends; assumption.
Qed.

Lemma dict_get_same {V} (P : V -> V -> Prop) (d d0 : dict V) k :
  Forall2 (same_entry P) d d0 ->
  option_Forall2 P (Dict.get k d) (Dict.get k d0).
Proof.
  induction 1 as [|[k1 v1] [k2 v2] d d0 [Hk Hv] Hd IH]; [constructor|].
  cbn in Hk, Hv. subst k2. cbn [Dict.get].
  destruct (decide (k = k1)); [constructor; exact Hv|exact IH].
Qed.

Lemma dict_set_same {V} (P : V -> V -> Prop) (d d0 : dict V) k v v0 :
  Forall2 (same_entry P) d d0 -> P v v0 ->
  Forall2 (same_entry P) (Dict.set k v d) (Dict.set k v0 d0).
Proof.
  intros Hd Hv.
  induction Hd as [|[k1 v1] [k2 v2] d d0 [Hk Hv1] Hd IH].
  - repeat constructor. exact Hv.
  - cbn in Hk, Hv1. subst k2. cbn [Dict.set].
    destruct (decide (k = k1)); constructor; auto; split; auto.
Qed.

Lemma omap_get_same {V} (P : V -> V -> Prop) (d d0 : dict V) ids :
  Forall2 (same_entry P) d d0 ->
  Forall2 P (omap (fun i => Dict.get i d) ids) (omap (fun i => Dict.get i d0) ids).
Proof.
  intros Hd. induction ids as [|i ids IH]; [constructor|]. cbn [omap list_omap].
  destruct (dict_get_same P d d0 i Hd); [constructor|]; assumption.
Qed.

Lemma same_blocks_deref t t0 rs rs0 :
  Forall2 (same_block t t0) rs rs0 ->
  deref_blocks t rs = deref_blocks t0 rs0 /\
  Forall (fun b => b_parent b = None) (deref_blocks t rs).
Proof.
  unfold deref_blocks.
  induction 1 as [|r r0 rs rs0 (b & Hb & Hb0 & Hp) Hrs [IH1 IH2]];
    [split; [reflexivity|constructor]|].
  cbn [omap list_omap]. rewrite Hb, Hb0. split; [f_equal; exact IH1|].
  constructor; assumption.
Qed.

Lemma computeBoundingRect_unparented t t0 bs :
  Forall (fun b => b_parent b = None) bs ->
  computeBoundingRect t bs = computeBoundingRect t0 bs.
Proof.
  intros Hbs.
  assert (Hrect : forall b, b ∈ bs ->
            block_sceneBoundingRect t b = block_sceneBoundingRect t0 b).
  { intros b Hb. rewrite Forall_forall in Hbs. unfold block_sceneBoundingRect.
    rewrite !scenePos_unparented by auto. reflexivity. }
  destruct bs as [|b0 rest]; [reflexivity|]. unfold computeBoundingRect.
  rewrite (Hrect b0) by left. f_equal.
  assert (Hrest : forall b, b ∈ rest ->
            block_sceneBoundingRect t b = block_sceneBoundingRect t0 b)
    by (intros b Hb; apply Hrect; right; exact Hb).
  clear Hrect Hbs. generalize (block_sceneBoundingRect t0 b0) as acc.
  induction rest as [|b rest IH]; intros acc; [reflexivity|]. cbn [fold_left].
  rewrite (Hrest b) by left. apply IH. intros b' Hb'. apply Hrest. right. exact Hb'.
Qed.

Lemma same_anchor_center t t0 a a0 :
  same_anchor t t0 a a0 -> anchor_scene_center t a = anchor_scene_center t0 a0.
Proof.
  intros [(b & Hb & Hb0 & Hp) Ho]. unfold anchor_scene_center.
  rewrite Hb, Hb0, Ho, !scenePos_unparented by exact Hp. reflexivity.
Qed.

Lemma load_block_same bd t t0 :
  same_content t t0 -> same_outcome (load_block bd t) (load_block bd t0).
Proof.
  intros Hs. pose proof Hs as (_ & _ & _ & Hbc & Hcc).
  load_block_cases bd ltac:(reflexivity).
  cbn [getitem mbind result_bind]. cbv zeta.
  set (b := set_b_locked _ _).
  set (u := set_blocks _ (set_block_objs (block_objs t ++ [b]) t)).
  set (u0 := set_blocks _ (set_block_objs (block_objs t0 ++ [b]) t0)).
  assert (He : extends t u) by (repeat split; [exists [b]|exists []|exists []];
                                 rewrite ?app_nil_r; reflexivity).
  assert (He0 : extends t0 u0) by (repeat split; [exists [b]|exists []|exists []];
                                   rewrite ?app_nil_r; reflexivity).
  destruct (same_content_extends t t0 u u0 He He0 Hs) as (Hb & Hc & Hn).
  assert (Hu : same_content u u0).
  { split; [|split; [exact Hc|split; [exact Hn|split; assumption]]].
    apply dict_set_same; [exact Hb|].
    exists b. split; [apply list_lookup_middle; reflexivity|].
    split; [apply list_lookup_middle; reflexivity|reflexivity]. }
  change (block_id_counter u) with (block_id_counter t).
  change (block_id_counter u0) with (block_id_counter t0).
  rewrite <- Hbc. destruct (_ <=? _)%Z; [|exact Hu].
  destruct Hu as (H1 & H2 & H3 & _ & H5). repeat split; assumption.
Qed.

Lemma load_cluster_same cd t t0 :
  same_content t t0 -> same_outcome (load_cluster cd t) (load_cluster cd t0).
Proof.
  intros Hs. pose proof Hs as (Hb & Hc & Hn & Hbc & Hcc).
  unfold load_cluster.
  pose proof (omap_get_same _ _ _ (default [] (jc_block_ids cd)) Hb) as Hm.
  destruct Hm as [|m m0 ms ms0 Hm Hms]; [exact Hs|].
  assert (Hall : Forall2 (same_block t t0) (m :: ms) (m0 :: ms0))
    by (constructor; assumption).
  clear Hm Hms.
  destruct (jc_title cd) as [ti|]; [|reflexivity].
  destruct (jc_id cd) as [i|]; [|reflexivity].
  cbn [getitem mbind result_bind]. cbv zeta.
  set (cl := set_c_locked _ _). set (cl0 := set_c_locked _ _).
  set (u := set_clusters _ _). set (u0 := set_clusters _ _).
  assert (He : extends t u) by (repeat split; [exists []|exists [cl]|exists []];
                                 rewrite ?app_nil_r; reflexivity).
  assert (He0 : extends t0 u0) by (repeat split; [exists []|exists [cl0]|exists []];
                                   rewrite ?app_nil_r; reflexivity).
  destruct (same_content_extends t t0 u u0 He He0 Hs) as (Hb' & Hc' & Hn').
  split; [exact Hb'|]. split; [|split; [exact Hn'|split; assumption]].
  apply dict_set_same; [exact Hc'|].
  exists cl, cl0.
  split; [apply list_lookup_middle; reflexivity|].
  split; [apply list_lookup_middle; reflexivity|].
  destruct (same_blocks_deref t t0 _ _ Hall) as [Hd Hp].
  repeat (split; [reflexivity|]).
  split.
  - unfold cl, cl0, new_GraphCluster. cbn [c_rect set_c_locked set_c_color].
    rewrite <- Hd. apply computeBoundingRect_unparented, Hp.
  - split; [reflexivity|].
    eapply Forall2_impl; [exact Hall|]. intros r r0.
    apply same_block_extends; assumption.
Qed.

Lemma load_connection_same nd t t0 :
  same_content t t0 -> same_outcome (load_connection nd t) (load_connection nd t0).
Proof.
  intros Hs. pose proof Hs as (Hb & Hc & Hn & Hbc & Hcc).
  unfold load_connection.
  destruct (jn_start_block_id nd) as [si|]; [|reflexivity].
  destruct (jn_end_block_id nd) as [ei|]; [|reflexivity].
  destruct (jn_start_anchor nd) as [sn|]; [|reflexivity].
  destruct (jn_end_anchor nd) as [en|]; [|reflexivity].
  cbn [getitem mbind result_bind].
  destruct (dict_get_same _ _ _ si Hb) as [sb sb0 Hsb|]; [|exact Hs].
  destruct (dict_get_same _ _ _ ei Hb) as [eb eb0 Heb|]; [|exact Hs].
  unfold anchors_get.
  destruct (List.find (fun o => bool_decide (orientation_name o = sn))
                      all_orientations) as [so|]; [|reflexivity].
  cbn [fmap option_fmap option_map].
  unfold create_line_item. cbn [mbind result_bind]. cbv zeta.
  set (eo := List.find _ all_orientations).
  assert (Hsa : same_anchor t t0 (sb, so) (sb0, so)) by (split; [exact Hsb|reflexivity]).
  assert (Hea : option_Forall2 (same_anchor t t0)
                  ((fun o => (eb, o)) <$> eo) ((fun o => (eb0, o)) <$> eo)).
  { destruct eo; constructor. split; [exact Heb|reflexivity]. }
  set (cn := update_line_item t None _). set (cn0 := update_line_item t0 None _).
  set (u := set_connections _ _). set (u0 := set_connections _ _).
  assert (He : extends t u) by (repeat split; [exists []|exists []|exists [cn]];
                                 rewrite ?app_nil_r; reflexivity).
  assert (He0 : extends t0 u0) by (repeat split; [exists []|exists []|exists [cn0]];
                                   rewrite ?app_nil_r; reflexivity).
  destruct (same_content_extends t t0 u u0 He He0 Hs) as (Hb' & Hc' & Hn').
  split; [exact Hb'|]. split; [exact Hc'|]. split; [|split; assumption].
  apply Forall2_app; [exact Hn'|]. constructor; [|constructor].
  exists cn, cn0.
  split; [apply list_lookup_middle; reflexivity|].
  split; [apply list_lookup_middle; reflexivity|].
  unfold cn, cn0, update_line_item. cbn [line_item start_anchor end_anchor].
  split; [eapply same_anchor_extends; eauto|]. split.
  - destruct Hea; constructor. eapply same_anchor_extends; eauto.
  - rewrite (same_anchor_center t t0 _ _ Hsa).
    destruct Hea as [e e0 He1|]; [|reflexivity].
    rewrite (same_anchor_center t t0 _ _ He1). reflexivity.
Qed.

Lemma for_each_same {A} (body : A -> GraphEditor -> result GraphEditor)
  (l : list A) :
  (forall a t t0, same_content t t0 -> same_outcome (body a t) (body a t0)) ->
  forall t t0, same_content t t0 ->
    (for_each body l t).2 = (for_each body l t0).2 /\
    same_content (for_each body l t).1 (for_each body l t0).1.
Proof.
  intros Hbody. induction l as [|a l IH]; intros t t0 Hs; cbn [for_each].
  - split; [reflexivity|exact Hs].
  - specialize (Hbody a t t0 Hs). unfold same_outcome in Hbody.
    destruct (body a t), (body a t0); try contradiction.
    + apply IH, Hbody.
    + subst. split; [reflexivity|exact Hs].
Qed.

Lemma and_then_same r r0 k k0 :
  r.2 = r0.2 -> same_content r.1 r0.1 ->
  (forall t t0, same_content t t0 ->
                (k t).2 = (k0 t0).2 /\ same_content (k t).1 (k0 t0).1) ->
  (and_then r k).2 = (and_then r0 k0).2 /\
  same_content (and_then r k).1 (and_then r0 k0).1.
Proof.
  destruct r as [t e], r0 as [t0 e0]. cbn [fst snd]. intros <- Hs Hk.
  unfold and_then. cbn [fst snd].
  destruct e; [split; [reflexivity|exact Hs]|]. apply Hk, Hs.
Qed.

Lemma omap_Forall2_eq {A B} (f g : A -> option B) (l l0 : list A) :
  Forall2 (fun x x0 => f x = g x0) l l0 -> omap f l = omap g l0.
Proof.
  induction 1 as [|x x0 l l0 Hx Hl IH]; [reflexivity|].
  cbn [omap list_omap]. rewrite Hx. destruct (g x0); [f_equal|]; exact IH.
Qed.

Lemma same_content_save_data t t0 :
  same_content t t0 -> save_data t = save_data t0.
Proof.
  intros (Hb & Hc & Hn & _). unfold save_data. f_equal.
  - apply omap_Forall2_eq. unfold Dict.values. apply Forall2_fmap.
    eapply Forall2_impl; [exact Hb|].
    intros [k r] [k0 r0] [Hk (b & Hr & Hr0 & Hp)]. cbn [snd] in *.
    rewrite (save_block_unparented t r b Hr Hp),
      (save_block_unparented t0 r0 b Hr0 Hp). reflexivity.
  - apply omap_Forall2_eq. eapply Forall2_impl; [exact Hc|].
    intros [k c] [k0 c0] [Hk Hcl].
    destruct Hcl as (cl & cl0 & Hl & Hl0 & H1 & H2 & H3 & H4 & H5 & Hm).
    cbn [fst snd] in *. subst k0. unfold save_cluster. cbn [fst snd].
    rewrite Hl, Hl0. cbn [mbind option_bind].
    destruct (same_blocks_deref t t0 _ _ Hm) as [-> _].
    rewrite H1, H2, H5. reflexivity.
  - apply omap_Forall2_eq. eapply Forall2_impl; [exact Hn|].
    intros n n0 (cn & cn0 & Hl1 & Hl0 & [(sb & Hsb & Hsb0 & _) Hso] & Hen & _).
    unfold save_connection. rewrite Hl1, Hl0. cbn [mbind option_bind].
    destruct Hen as [e e0 [(eb & Heb & Heb0 & _) Heo]|];
      cbn [mbind option_bind]; [|reflexivity].
    rewrite Hsb, Hsb0, Heb, Heb0, Hso, Heo. reflexivity.
Qed.

Lemma newFile_same_content s s0 : same_content (newFile s) (newFile s0).
Proof. repeat split; constructor. Qed.

(** X15.  What a load leaves is determined by the file alone: whatever two
    editors held before, loading the same parsed document into each ends
    the same way (both finish, or both raise the same exception at the same
    entry) and leaves the same model, so that the documents written next
    are equal and the two id counters agree. *)
Theorem load_depends_on_the_file_only (data : JData) (s s0 : GraphEditor) :
  (openFile (Parsed data) s).2 = (openFile (Parsed data) s0).2 /\
  save_data (openFile (Parsed data) s).1 = save_data (openFile (Parsed data) s0).1 /\
  block_id_counter (openFile (Parsed data) s).1
  = block_id_counter (openFile (Parsed data) s0).1 /\
  cluster_id_counter (openFile (Parsed data) s).1
  = cluster_id_counter (openFile (Parsed data) s0).1.
Proof.
  assert (H : (openFile (Parsed data) s).2 = (openFile (Parsed data) s0).2 /\
              same_content (openFile (Parsed data) s).1 (openFile (Parsed data) s0).1).
  { unfold openFile. cbv zeta.
    destruct (for_each_same load_block (default [] (j_blocks data))
                (fun a t t0 => load_block_same a t t0) (newFile s) (newFile s0)
                (newFile_same_content s s0)) as [He Hs].
    apply and_then_same; [exact He|exact Hs|].
    intros t t0 Ht.
    destruct (for_each_same load_cluster (default [] (j_clusters data))
                (fun a t t0 => load_cluster_same a t t0) t t0 Ht) as [He1 Hs1].
    apply and_then_same; [exact He1|exact Hs1|].
    intros u u0 Hu.
    apply (for_each_same load_connection (default [] (j_connections data))
             (fun a t t0 => load_connection_same a t t0) u u0 Hu). }
  destruct H as [He Hs]. split; [exact He|].
  split; [apply same_content_save_data, Hs|].
  destruct Hs as (_ & _ & _ & Hbc & Hcc). split; assumption.
Qed.

(** ** The written document *)

Lemma cluster_count_upd_cluster c f s :
  cluster_count (upd_cluster c f s) = cluster_count s.
Proof. apply length_alter. Qed.

#[local] Hint Rewrite cluster_count_upd_cluster : frame.

Lemma dict_del_values_sublist {V} k (d : dict V) :
  Dict.values (Dict.del k d) `sublist_of` Dict.values d.
Proof.
  induction d as [|[k' v] d IH]; [constructor|]. cbn [Dict.del].
  destruct (decide (k = k')); [apply sublist_cons; reflexivity|].
  apply sublist_skip, IH.
Qed.

Lemma clusters_stored_push (h : list GraphCluster) (d : dict cref) id cl :
  Forall (fun c => (c < length h)%nat) (Dict.values d) ->
  Forall (fun c => (c < length (h ++ [cl]))%nat)
         (Dict.values (Dict.set id (length h) d)).
Proof.
  rewrite length_app. cbn [length]. intros Hs. apply dict_values_set; [|lia].
  eapply Forall_impl; [exact Hs|]. cbn. intros; lia.
Qed.

Lemma clusters_stored_delete_item item s :
  clusters_stored s -> clusters_stored (delete_item item s).
Proof.
  unfold clusters_stored. intros Hs.
  assert (cluster_count (delete_item item s) = cluster_count s) as ->
    by frame cluster_count.
  destruct item as [b|c].
  - assert (clusters (delete_item (IBlock b) s) = clusters s) as ->
      by frame clusters.
    exact Hs.
  - unfold delete_item. destruct (cluster_objs s !! c); [|exact Hs]. cbv zeta.
    destruct (fold_setParentItem None (c_blocks g) s) as (_&_&_&_&Hk&_).
    cbv zeta in Hk.
    destruct (List.find _ _); [|rewrite Hk; exact Hs].
    cbn [clusters set_clusters]. rewrite Hk.
    apply Forall_forall. intros c' Hc'. rewrite Forall_forall in Hs. apply Hs.
    eapply elem_of_sublist; [exact Hc'|apply dict_del_values_sublist].
Qed.

Lemma clusters_stored_step a s : clusters_stored s -> clusters_stored (step a s).
Proof.
  intros Hs. destruct a; cbn [step];
    try solve [unfold clusters_stored;
               match goal with
               | |- Forall _ (Dict.values (clusters ?X)) =>
                   replace (clusters X) with (clusters s)
                     by (symmetry; frame clusters);
                   replace (cluster_count X) with (cluster_count s)
                     by (symmetry; frame cluster_count)
               end; exact Hs].
  - constructor.
  - destruct input; [exact Hs..|].
    apply openFile_loops_inv.
    + intros a t t' Ht (b & Hb)%load_block_Ok.
      destruct Hb as (_&_&_&_&_&_&Hco&Hk&_).
      unfold clusters_stored, cluster_count. rewrite Hk, Hco. exact Ht.
    + intros a t t' Ht [->|(id & cl & _ & _ & _ & _ & ->)]%load_cluster_Ok;
        [exact Ht|]. apply (clusters_stored_push _ _ _ _ Ht).
    + intros a t t' Ht.
      apply (load_connection_inv clusters_stored); [|exact Ht]. auto.
    + constructor.
  - unfold deleteSelected. apply (fold_left_inv clusters_stored); [|exact Hs].
    intros t item. apply clusters_stored_delete_item.
  - unfold groupSelectedBlocks. destruct (_ <? _)%nat; [exact Hs|]. cbv zeta.
    match goal with
    | |- clusters_stored (fold_left ?f ?l ?s0) =>
        assert (clusters_stored s0) as H0
          by exact (clusters_stored_push (cluster_objs s) (clusters s)
                      (cluster_id_counter s) _ Hs);
        destruct (fold_setParentItem (Some (length (cluster_objs s))) l s0)
          as (_&Hco&_&_&Hk&_)
    end.
    cbv zeta in Hco, Hk. unfold clusters_stored, cluster_count in *.
    rewrite Hk, Hco. exact H0.
Qed.

Lemma run_clusters_stored actions : clusters_stored (run actions).
Proof.
  induction actions as [|a actions IH] using rev_ind; [constructor|].
  rewrite run_snoc. apply clusters_stored_step, IH.
Qed.

Lemma save_cluster_ids s :
  clusters_stored s ->
  map cd_id (omap (save_cluster s) (clusters s)) = Dict.keys (clusters s).
Proof.
  unfold clusters_stored, cluster_count. generalize (clusters s) as d.
  induction d as [|[k c] d IH]; intros Hs; [reflexivity|].
  apply Forall_cons in Hs as [Hc Hs]. cbn [snd] in Hc.
  apply lookup_lt_is_Some_2 in Hc as [cl Hcl].
  cbn [omap list_omap]. unfold save_cluster at 1. cbn [fst snd].
  rewrite Hcl. cbn [mbind option_bind map cd_id Dict.keys fst].
  f_equal. apply IH, Hs.
Qed.

(** X16.  Whatever the session, the document written has one entry for each
    registered block and one for each registered cluster, in the order of
    the registries and under their keys; the ids of its blocks are pairwise
    distinct and so are the ids of its clusters, and the id the next new
    block gets is not among the block ids. *)
Theorem saved_ids_are_distinct (actions : list Action) :
  block_ids (save_data (run actions)) = Dict.keys (blocks (run actions)) /\
  map cd_id (doc_clusters (save_data (run actions)))
  = Dict.keys (clusters (run actions)) /\
  NoDup (block_ids (save_data (run actions))) /\
  NoDup (map cd_id (doc_clusters (save_data (run actions)))) /\
  (block_id_counter (run actions) ∉ block_ids (save_data (run actions))).
Proof.
  destruct (run_registry_ok actions) as (Hnd & Hsound & Hlt).
  assert (block_ids (save_data (run actions)) = Dict.keys (blocks (run actions)))
    as Hids by (apply save_block_ids, Hsound).
  assert (map cd_id (doc_clusters (save_data (run actions)))
          = Dict.keys (clusters (run actions)))
    as Hcids by (apply save_cluster_ids, run_clusters_stored).
  rewrite Hids, Hcids. split; [reflexivity|]. split; [reflexivity|].
  split; [exact Hnd|]. split; [apply run_clusters_NoDup|].
  intros Hin. rewrite Forall_forall in Hlt. specialize (Hlt _ Hin). lia.
Qed.

(** ** What a file round trip keeps *)






Section Pruned_load.

(** The block store and the block registry once the first loop is over. *)
Variable H : list GraphBlock.
Variable B : dict bref.
Hypothesis sound :
  forall k r, Dict.get k B = Some r -> exists b, H !! r = Some b /\ block_id b = k.


Variable C : list GraphCluster.
Variable K : dict cref.


End Pruned_load.










(** ** Grouping *)

Lemma deref_ids_bare s s' (rs : list bref) :
  bare_blocks s' = bare_blocks s ->
  map block_id (deref_blocks s' rs) = map block_id (deref_blocks s rs).
Proof.
  intros Hbare. pose proof (bare_blocks_ids _ _ Hbare) as Hids.
  assert (Hl : forall t, map block_id (deref_blocks t rs)
                         = omap (fun r => map block_id (block_objs t) !! r) rs).
  { intros t. unfold deref_blocks. induction rs as [|r rs IH]; [reflexivity|].
    cbn [omap list_omap]. rewrite list_lookup_fmap.
    destruct (block_objs t !! r); cbn; [f_equal|]; exact IH. }
  rewrite !Hl, Hids. reflexivity.
Qed.

(** X19.  In a session that loads no document, grouping two or more blocks
    always adds a cluster and replaces none: the new cluster gets an id
    that no registered cluster has and goes last in the registry, and the
    written document gains one cluster entry, after those it had and
    leaving them as they were, listing the ids of the selected blocks. *)
Theorem grouping_adds_a_cluster (actions : list Action) (sel : list Item) :
  forallb interactive actions = true ->
  (2 <= length (selected_blocks sel))%nat ->
  cluster_added (run actions) sel.
Proof.
  intros Hint Hlen. pose proof (run_clusters_below actions Hint) as Hlt.
  pose proof (run_clusters_stored actions) as Hstored.
  set (s := run actions) in *.
  assert (cluster_id_counter s ∉ Dict.keys (clusters s)) as Hfresh.
  { intros Hin. unfold clusters_below_counter in Hlt.
    rewrite Forall_forall in Hlt. specialize (Hlt _ Hin). lia. }
  assert (Hk : clusters (groupSelectedBlocks sel s)
               = clusters s ++ [(cluster_id_counter s, length (cluster_objs s))]).
  { destruct (groupSelectedBlocks_clusters sel s Hlen) as [-> _].
    apply dict_set_fresh, Hfresh. }
  split; [apply dict_get_keys, Hfresh|]. split; [exact Hk|].
  assert (Hbare : bare_blocks (groupSelectedBlocks sel s) = bare_blocks s)
    by frame bare_blocks.
  assert (Hco : cluster_objs (groupSelectedBlocks sel s)
                = cluster_objs s ++
                  [new_GraphCluster s (selected_blocks sel)
                     ("Кластер " +:+ pretty (cluster_id_counter s))]).
  { unfold groupSelectedBlocks.
    destruct (_ <? _)%nat eqn:E; [apply Nat.ltb_lt in E; lia|]. cbv zeta.
    match goal with
    | |- context [fold_left ?f ?l ?s0] =>
        destruct (fold_setParentItem (Some (length (cluster_objs s))) l s0)
          as (_&H1&_)
    end.
    cbv zeta in H1. rewrite H1. reflexivity. }
  unfold save_data. cbn [doc_clusters]. rewrite Hk, omap_app. f_equal.
  - apply omap_ext_elem. intros [k c] Hkc. unfold save_cluster. cbn [fst snd].
    assert (Hc : (c < length (cluster_objs s))%nat).
    { unfold clusters_stored, cluster_count in Hstored.
      rewrite Forall_forall in Hstored. apply Hstored.
      apply list_elem_of_fmap. exists (k, c). auto. }
    rewrite Hco, lookup_app_l by exact Hc.
    destruct (cluster_objs s !! c) as [cl|]; [|reflexivity].
    cbn [mbind option_bind]. rewrite (deref_ids_bare _ _ _ Hbare). reflexivity.
  - cbn [omap list_omap]. unfold save_cluster. cbn [fst snd].
    rewrite Hco, list_lookup_middle by reflexivity. cbn [mbind option_bind].
    unfold new_GraphCluster. cbn [c_title c_color c_blocks c_locked].
    rewrite (deref_ids_bare _ _ _ Hbare). reflexivity.
Qed.

Lemma grouping_adds_a_cluster_witness :
  cluster_added (run session_grouped) [IBlock 0%nat; IBlock 1%nat].
Proof.
  apply (grouping_adds_a_cluster session_grouped [IBlock 0%nat; IBlock 1%nat]).
  - reflexivity.
  - vm_compute. lia.
Defined.
